(** * Steamworks wrapper: subscription orchestration layer

    A shallow embedding of [app/utils/steam/steamworks/wrapper.py]:
    the SDK session ([SteamworksInterface]), its background polling
    thread, the completion waiter, the callback handlers, the
    subscription orchestrator ([SteamworksSubscriptionHandler]), the
    dependency query ([SteamworksAppDependenciesQuery]) and the game
    launcher ([SteamworksGameLaunch]).

    The program talks to a native SDK, sleeps, reads the clock and shares
    one session object with a polling thread.  All of it is made explicit:
    a [World] holds the session object, the state of the polling thread,
    the SDK's registered handlers, the clock, and the list of observable
    events issued so far; the behaviour of the SDK and of the scheduler is
    an input of the model (an oracle for failing calls, and a script of
    what happens in the background during each blocking sleep).

    Time is counted in integer milliseconds (the source uses float
    seconds): [OPERATION_INTERVAL] is 100, one second is 1000.  Where the
    completion waiter compares the difference of two float readings with
    its timeout, and the milliseconds give exactly the timeout, the
    rounding of the floats decides; the model asks it of the
    environment.

    What the model takes from outside the repository:
    - the steps of the polling thread are placed at the blocking calls of
      the main flow ([sleep], [join]); each blocking call consumes one
      entry of the script, which says how many turns of its loop the
      thread gets, what the SDK dispatches in each, and whether the thread
      is then suspended between its loop test and [run_callbacks()], so
      that what the main flow does next falls between the two: the thread
      and the main flow share the session without a lock;
    - [run_callbacks()] calls the registered handlers as ordinary Python
      calls: an exception raised by a handler propagates and ends the
      polling thread; one [run_callbacks()], with the handlers it calls,
      is a single step of the thread;
    - once the SDK reports loaded it stays loaded until [unload()];
    - any SDK call may raise, and so may the constructor of the SDK object,
      as the environment decides;
    - the text of an exception raised by the SDK is not held: what
      formatting a log line that ends with it does is asked of the
      environment. *)

From Stdlib Require Import ZArith String List Bool Lia.
From stdpp Require Import base option gmap strings list.

Open Scope string_scope.
Open Scope list_scope.
Open Scope Z_scope.

(** ** Python values used by the wrapper *)

(** The exceptions the wrapper raises, catches or lets through.  Every one
    of them is an [Exception] in the source's [except Exception] clauses. *)
Inductive exn :=
| ValueError
| IndexError
| AttributeError
| SteamException
| KeyError.

(** The object the SDK hands to a callback as [args[0]].  An attribute that
    the object does not have is [None]; [app_dependencies_list] stands for
    the result of its method [get_app_dependencies_list()]. *)
Record CallbackObj := {
  publishedFileId : option Z;
  result : option Z;
  app_dependencies_list : option (list Z)
}.

(** [Union[int, list[int]]] *)
Inductive IntOrList :=
| PyInt (n : Z)
| PyList (l : list Z).

(** The callables the wrapper registers with the SDK. *)
Inductive Handler :=
| cb_operation (operation : string)   (* closure of [_create_callback] *)
| cb_download                          (* closure of [_create_download_callback] *)
| cb_app_dependencies.                 (* [_cb_app_dependencies_result_callback] *)

(** ** The SDK boundary *)

Inductive SdkCall :=
| Initialize
| Loaded
| Unload
| RunCallbacks
| SetItemSubscribedCallback (h : Handler)
| SetItemUnsubscribedCallback (h : Handler)
| SetGetAppDependenciesResultCallback (h : Handler)
| SubscribeItem (pfid : Z)
| UnsubscribeItem (pfid : Z)
| DownloadItem (pfid : Z) (high_priority : bool) (callback : Handler)
               (override_callback : bool)
| GetAppDependencies (pfid : Z).

(** The kinds of notification the SDK dispatches from [run_callbacks()]. *)
Inductive Channel :=
| ItemSubscribed
| ItemUnsubscribed
| AppDependenciesResult
| DownloadItemResult.

(** One notification: the channel and the positional arguments [*args]. *)
Definition Delivery : Type := Channel * list CallbackObj.

(** What happens in the background while the main flow is blocked once:
    extra time that elapses beyond the requested duration, whether the SDK
    finishes loading, and the turns the polling thread gets, each with the
    notifications the SDK has pending for that turn's [run_callbacks()].
    [preempted]: after these turns the thread makes one more loop test and
    is suspended before the [run_callbacks()] that follows it, for which
    the SDK holds the given notifications; the call is made when the thread
    is next given time. *)
Record Tick := {
  jitter : N;
  load_done : bool;
  quanta : list (list Delivery);
  preempted : option (list Delivery)
}.

(** The part of the environment that does not change: which SDK calls
    raise (by position in the event list and by call), whether the SDK
    reports loaded right after a successful [initialize()], for which
    library path the constructor of the SDK object raises, and what
    formatting a log line that ends with the text of an exception does (by
    position in the event list and by exception): [None] when the text has
    no replacement field, the exception that [str.format] raises
    otherwise.  [reading_short start now]: the clock counts whole
    milliseconds, [time()] returns floats; the difference of the float
    readings of these two instants is rounded to less than the
    milliseconds between them. *)
Record Env := {
  sdk_raises : nat -> SdkCall -> bool;
  sdk_loaded0 : bool;
  sdk_missing : option string -> bool;
  format_raises : nat -> exn -> option exn;
  reading_short : Z -> Z -> bool
}.

(** Observable events, in the order they happen. *)
Inductive Event :=
| EvCall (c : SdkCall)
| EvSleep (ms : Z)
| EvThreadStart
| EvJoin (timeout_ms : option Z)
| EvSetStop (b : bool)                (* an assignment [self.end_callbacks = b] *)
| EvCallback (h : Handler).           (* the polling thread enters a handler *)

Inductive Log :=
| LogInitFailed
| LogNotRunning
| LogLoadTimeout
| LogCallbackTimeout (timeout : Z)
| LogCompleted
| LogWaitTimeout
| LogRunError (e : exn)
| LogThreadEnd (count : Z)
| LogOperation (operation : string) (pfid : Z) (res : option Z)
| LogOperationFired (operation : string)
| LogOperationError (operation : string)
| LogDownloadInitiated (pfid : Z)
| LogDownloadResult (res pfid : Z)
| LogDownloadParseFailed (e : exn)
| LogDownloadFailed (pfid : Z) (e : exn)
| LogDependencies (pfid : Z) (deps : list Z).

(** ** The session object *)

(** [SteamworksInterface].  [end_callbacks] and [multiple_queries] are
    attributes that [__init__] creates only when [callbacks] is true. *)
Record SteamworksInterface := {
  callbacks : bool;
  callbacks_count : Z;
  callbacks_total : option Z;
  end_callbacks : option bool;
  multiple_queries : option bool;
  get_app_deps_query_result : gmap Z (list Z);
  steam_not_running : bool
}.

(** The polling thread ([steamworks_thread], target [_callbacks]).
    [NoThread]: the attribute was never created. *)
Inductive ThreadState :=
| NoThread
| WaitingForLoad    (* in [while not self.steamworks.loaded()] *)
| Polling           (* at the test of [while not self.end_callbacks] *)
| Pumping (pending : list Delivery)
                    (* past that test, entering [run_callbacks()] *)
| Finished          (* left the loop *)
| Crashed.          (* ended by an exception *)

Definition is_alive (t : ThreadState) : bool :=
  match t with
  | WaitingForLoad | Polling | Pumping _ => true
  | _ => false
  end.

Record Registry := {
  on_subscribed : option Handler;
  on_unsubscribed : option Handler;
  on_app_dependencies : option Handler;
  on_download : option Handler
}.

Record World := {
  env : Env;
  clock : Z;
  script : list Tick;
  trace : list Event;
  logs : list Log;
  loaded_flag : bool;
  registry : Registry;
  steamworks_thread : ThreadState;
  iface : SteamworksInterface
}.

Definition blank_iface : SteamworksInterface :=
  {| callbacks := false; callbacks_count := 0; callbacks_total := None;
     end_callbacks := None; multiple_queries := None;
     get_app_deps_query_result := ∅; steam_not_running := false |}.

Definition no_handlers : Registry :=
  {| on_subscribed := None; on_unsubscribed := None;
     on_app_dependencies := None; on_download := None |}.

(** The world in which a process starts: nothing issued yet. *)
Definition init_world (e : Env) (s : list Tick) : World :=
  {| env := e; clock := 0; script := s; trace := []; logs := [];
     loaded_flag := false; registry := no_handlers;
     steamworks_thread := NoThread; iface := blank_iface |}.

(** Field updates. *)
Definition with_clock (v : Z) (w : World) : World :=
  {| env := env w; clock := v; script := script w; trace := trace w;
     logs := logs w; loaded_flag := loaded_flag w; registry := registry w;
     steamworks_thread := steamworks_thread w; iface := iface w |}.
Definition with_script (v : list Tick) (w : World) : World :=
  {| env := env w; clock := clock w; script := v; trace := trace w;
     logs := logs w; loaded_flag := loaded_flag w; registry := registry w;
     steamworks_thread := steamworks_thread w; iface := iface w |}.
Definition with_trace (v : list Event) (w : World) : World :=
  {| env := env w; clock := clock w; script := script w; trace := v;
     logs := logs w; loaded_flag := loaded_flag w; registry := registry w;
     steamworks_thread := steamworks_thread w; iface := iface w |}.
Definition with_logs (v : list Log) (w : World) : World :=
  {| env := env w; clock := clock w; script := script w; trace := trace w;
     logs := v; loaded_flag := loaded_flag w; registry := registry w;
     steamworks_thread := steamworks_thread w; iface := iface w |}.
Definition with_loaded (v : bool) (w : World) : World :=
  {| env := env w; clock := clock w; script := script w; trace := trace w;
     logs := logs w; loaded_flag := v; registry := registry w;
     steamworks_thread := steamworks_thread w; iface := iface w |}.
Definition with_registry (v : Registry) (w : World) : World :=
  {| env := env w; clock := clock w; script := script w; trace := trace w;
     logs := logs w; loaded_flag := loaded_flag w; registry := v;
     steamworks_thread := steamworks_thread w; iface := iface w |}.
Definition with_thread (v : ThreadState) (w : World) : World :=
  {| env := env w; clock := clock w; script := script w; trace := trace w;
     logs := logs w; loaded_flag := loaded_flag w; registry := registry w;
     steamworks_thread := v; iface := iface w |}.
Definition with_iface (v : SteamworksInterface) (w : World) : World :=
  {| env := env w; clock := clock w; script := script w; trace := trace w;
     logs := logs w; loaded_flag := loaded_flag w; registry := registry w;
     steamworks_thread := steamworks_thread w; iface := v |}.

Definition set_callbacks (v : bool) (s : SteamworksInterface) :=
  {| callbacks := v; callbacks_count := callbacks_count s;
     callbacks_total := callbacks_total s; end_callbacks := end_callbacks s;
     multiple_queries := multiple_queries s;
     get_app_deps_query_result := get_app_deps_query_result s;
     steam_not_running := steam_not_running s |}.
Definition set_callbacks_count (v : Z) (s : SteamworksInterface) :=
  {| callbacks := callbacks s; callbacks_count := v;
     callbacks_total := callbacks_total s; end_callbacks := end_callbacks s;
     multiple_queries := multiple_queries s;
     get_app_deps_query_result := get_app_deps_query_result s;
     steam_not_running := steam_not_running s |}.
Definition set_callbacks_total (v : option Z) (s : SteamworksInterface) :=
  {| callbacks := callbacks s; callbacks_count := callbacks_count s;
     callbacks_total := v; end_callbacks := end_callbacks s;
     multiple_queries := multiple_queries s;
     get_app_deps_query_result := get_app_deps_query_result s;
     steam_not_running := steam_not_running s |}.
Definition set_end_callbacks (v : option bool) (s : SteamworksInterface) :=
  {| callbacks := callbacks s; callbacks_count := callbacks_count s;
     callbacks_total := callbacks_total s; end_callbacks := v;
     multiple_queries := multiple_queries s;
     get_app_deps_query_result := get_app_deps_query_result s;
     steam_not_running := steam_not_running s |}.
Definition set_multiple_queries (v : option bool) (s : SteamworksInterface) :=
  {| callbacks := callbacks s; callbacks_count := callbacks_count s;
     callbacks_total := callbacks_total s; end_callbacks := end_callbacks s;
     multiple_queries := v;
     get_app_deps_query_result := get_app_deps_query_result s;
     steam_not_running := steam_not_running s |}.
Definition set_query_result (v : gmap Z (list Z)) (s : SteamworksInterface) :=
  {| callbacks := callbacks s; callbacks_count := callbacks_count s;
     callbacks_total := callbacks_total s; end_callbacks := end_callbacks s;
     multiple_queries := multiple_queries s;
     get_app_deps_query_result := v;
     steam_not_running := steam_not_running s |}.
Definition set_steam_not_running (v : bool) (s : SteamworksInterface) :=
  {| callbacks := callbacks s; callbacks_count := callbacks_count s;
     callbacks_total := callbacks_total s; end_callbacks := end_callbacks s;
     multiple_queries := multiple_queries s;
     get_app_deps_query_result := get_app_deps_query_result s;
     steam_not_running := v |}.

(** ** A state-and-exception monad over the world *)

(** How a computation ends: it returns, it raises, it blocks for ever
    ([Blocked]: a [join()] on a thread that never ends), or the model's
    loop bound was too small ([NoFuel], shown below never to happen). *)
Inductive outcome (A : Type) :=
| Ret (a : A)
| Raise (e : exn)
| Blocked
| NoFuel.
Arguments Ret {A} a.
Arguments Raise {A} e.
Arguments Blocked {A}.
Arguments NoFuel {A}.

Definition M (A : Type) : Type := World -> outcome A * World.

Definition ret {A} (a : A) : M A := fun w => (Ret a, w).
Definition raise {A} (e : exn) : M A := fun w => (Raise e, w).

Definition bind {A B} (m : M A) (f : A -> M B) : M B :=
  fun w =>
    match m w with
    | (Ret a, w') => f a w'
    | (Raise e, w') => (Raise e, w')
    | (Blocked, w') => (Blocked, w')
    | (NoFuel, w') => (NoFuel, w')
    end.

Notation "'let*' x ':=' m 'in' k" := (bind m (fun x => k))
  (at level 10, x name, m at level 100, k at level 200).
Notation "m >> k" := (bind m (fun _ => k))
  (at level 80, right associativity).

Definition get {A} (f : World -> A) : M A := fun w => (Ret (f w), w).
Definition modify (f : World -> World) : M unit := fun w => (Ret tt, f w).

(** [try: body except <classes>: handler] *)
Definition try_except {A} (body : M A) (catches : exn -> bool)
    (handler : exn -> M A) : M A :=
  fun w =>
    match body w with
    | (Raise e, w') => if catches e then handler e w' else (Raise e, w')
    | r => r
    end.

(** [try: body finally: final] *)
Definition try_finally {A} (body : M A) (final : M unit) : M A :=
  fun w =>
    match body w with
    | (Ret a, w') => (final >> ret a) w'
    | (Raise e, w') => (final >> raise e) w'
    | r => r
    end.

Definition Exception (e : exn) : bool := true.

(** [for x in xs: body x] *)
Fixpoint for_each {A} (xs : list A) (body : A -> M unit) : M unit :=
  match xs with
  | [] => ret tt
  | x :: rest => body x >> for_each rest body
  end.

(** Reading an attribute that may be missing. *)
Definition attr {A} (o : option A) : M A :=
  match o with
  | Some a => ret a
  | None => raise AttributeError
  end.

(** [args[0]] *)
Definition first_arg (args : list CallbackObj) : M CallbackObj :=
  match args with
  | a :: _ => ret a
  | [] => raise IndexError
  end.

(** ** Primitive effects *)

Definition emit (e : Event) : M unit :=
  modify (fun w => with_trace (trace w ++ [e]) w).

Definition log (l : Log) : M unit :=
  modify (fun w => with_logs (logs w ++ [l]) w).

(** [logger.error(f"... {e}", exc_info=True)]: given a keyword argument,
    loguru formats the text with it ([text.format(exc_info=True)]) before
    it logs, and [str.format] raises on a replacement field that it cannot
    fill.  The text ends with the message of [e]: when the environment
    says that formatting it raises, nothing is logged and that exception
    leaves the call. *)
Definition log_exc_info (l : Log) (e : exn) : M unit :=
  fun w =>
    match format_raises (env w) (length (trace w)) e with
    | Some x => (Raise x, w)
    | None => log l w
    end.

Definition time : M Z := get clock.

Definition modify_iface (f : SteamworksInterface -> SteamworksInterface) : M unit :=
  modify (fun w => with_iface (f (iface w)) w).

(** [self.end_callbacks = b], recorded as an event. *)
Definition assign_end_callbacks (b : bool) : M unit :=
  emit (EvSetStop b) >> modify_iface (set_end_callbacks (Some b)).

(** The handlers the SDK holds, one per channel. *)
Definition register (ch : Channel) (h : Handler) (r : Registry) : Registry :=
  match ch with
  | ItemSubscribed =>
      {| on_subscribed := Some h; on_unsubscribed := on_unsubscribed r;
         on_app_dependencies := on_app_dependencies r; on_download := on_download r |}
  | ItemUnsubscribed =>
      {| on_subscribed := on_subscribed r; on_unsubscribed := Some h;
         on_app_dependencies := on_app_dependencies r; on_download := on_download r |}
  | AppDependenciesResult =>
      {| on_subscribed := on_subscribed r; on_unsubscribed := on_unsubscribed r;
         on_app_dependencies := Some h; on_download := on_download r |}
  | DownloadItemResult =>
      {| on_subscribed := on_subscribed r; on_unsubscribed := on_unsubscribed r;
         on_app_dependencies := on_app_dependencies r; on_download := Some h |}
  end.

Definition registered (ch : Channel) (r : Registry) : option Handler :=
  match ch with
  | ItemSubscribed => on_subscribed r
  | ItemUnsubscribed => on_unsubscribed r
  | AppDependenciesResult => on_app_dependencies r
  | DownloadItemResult => on_download r
  end.

(** What a call that returns changes in the SDK: whether it is loaded,
    and the handler of a channel ([DownloadItem] takes its callback with
    the request). *)
Definition sdk_effect (c : SdkCall) (w : World) : World :=
  match c with
  | Initialize => with_loaded (sdk_loaded0 (env w)) w
  | Unload => with_loaded false w
  | SetItemSubscribedCallback h =>
      with_registry (register ItemSubscribed h (registry w)) w
  | SetItemUnsubscribedCallback h =>
      with_registry (register ItemUnsubscribed h (registry w)) w
  | SetGetAppDependenciesResultCallback h =>
      with_registry (register AppDependenciesResult h (registry w)) w
  | DownloadItem _ _ h _ =>
      with_registry (register DownloadItemResult h (registry w)) w
  | _ => w
  end.

(** A call into the SDK: recorded, then it raises when the environment
    says so, and otherwise has its effect on the SDK's own state. *)
Definition sdk_call (c : SdkCall) : M unit :=
  fun w =>
    let w1 := with_trace (trace w ++ [EvCall c]) w in
    if sdk_raises (env w) (length (trace w)) c
    then (Raise SteamException, w1)
    else (Ret tt, sdk_effect c w1).

(** [self.steamworks.loaded()] *)
Definition loaded : M bool :=
  emit (EvCall Loaded) >> get loaded_flag.

(** [STEAMWORKS(_libs=_libs)]: the constructor of the SDK object belongs
    to the SteamworksPy package, outside this repository; it loads the
    native library from [_libs] and builds the handle on which every later
    call is made.  It issues no SDK call, and raises when the library
    cannot be loaded. *)
Definition STEAMWORKS (_libs : option string) : M unit :=
  fun w =>
    if sdk_missing (env w) _libs then (Raise SteamException, w) else (Ret tt, w).

(** Timing constants of the source, in milliseconds. *)
Definition RESUBSCRIBE_STAGE_WAIT : Z := 1000.
Definition OPERATION_INTERVAL : Z := 100.
Definition STEAMWORKS_TIMEOUT : Z := 30.   (* seconds *)
Definition seconds (s : Z) : Z := s * 1000.

(** ** Callback handlers *)

(** [if self.callbacks_total:] on an [int | None]. *)
Definition truthy (n : option Z) : bool :=
  match n with
  | Some v => negb (v =? 0)
  | None => false
  end.

(** [self.callbacks_count == self.callbacks_total] *)
Definition count_is_total (count : Z) (total : option Z) : bool :=
  match total with
  | Some t => count =? t
  | None => false
  end.

(** [SteamworksInterface._cb_app_dependencies_result_callback] *)
Definition _cb_app_dependencies_result_callback (args : list CallbackObj) : M unit :=
  modify_iface (fun s => set_callbacks_count (callbacks_count s + 1) s) >>
  let* a := first_arg args in
  let* _r := attr (result a) in
  let* pfid := attr (publishedFileId a) in
  let* app_dependencies := attr (app_dependencies_list a) in
  log (LogDependencies pfid app_dependencies) >>
  (if (0 <? Z.of_nat (length app_dependencies))
   then modify_iface (fun s =>
          set_query_result (<[pfid := app_dependencies]> (get_app_deps_query_result s)) s)
   else ret tt) >>
  let* s := get iface in
  let* multiple := attr (multiple_queries s) in
  if multiple && count_is_total (callbacks_count s) (callbacks_total s)
  then assign_end_callbacks true
  else if negb multiple
  then assign_end_callbacks true
  else ret tt.

(** The closure returned by
    [SteamworksSubscriptionHandler._create_callback(iface, operation)]. *)
Definition _create_callback (operation : string) (args : list CallbackObj) : M unit :=
  modify_iface (fun s => set_callbacks_count (callbacks_count s + 1) s) >>
  try_except
    (match args with
     | a :: _ =>
         match publishedFileId a with
         | Some pfid => log (LogOperation operation pfid (result a))
         | None => log (LogOperationFired operation)
         end
     | [] => log (LogOperationFired operation)
     end)
    Exception
    (fun _ => log (LogOperationError operation)).

(** The closure returned by
    [SteamworksSubscriptionHandler._create_download_callback(iface)]. *)
Definition _create_download_callback (args : list CallbackObj) : M unit :=
  try_except
    (let* a := first_arg args in
     let* res := attr (result a) in
     let* pfid := attr (publishedFileId a) in
     if res =? 1
     then log (LogDownloadInitiated pfid)
     else log (LogDownloadResult res pfid))
    (fun e => match e with IndexError | AttributeError => true | _ => false end)
    (fun e => log (LogDownloadParseFailed e)).

(** Calling a registered callable with [*args]. *)
Definition invoke (h : Handler) (args : list CallbackObj) : M unit :=
  match h with
  | cb_operation operation => _create_callback operation args
  | cb_download => _create_download_callback args
  | cb_app_dependencies => _cb_app_dependencies_result_callback args
  end.

(** ** The polling thread *)

(** The SDK dispatches one notification to the handler registered on its
    channel, if there is one. *)
Definition deliver (d : Delivery) : M unit :=
  let* r := get registry in
  match registered (fst d) r with
  | Some h => emit (EvCallback h) >> invoke h (snd d)
  | None => ret tt
  end.

(** [self.steamworks.run_callbacks()] with the notifications [pending]:
    each is handed to its handler in turn; an exception raised by a
    handler leaves the pump. *)
Definition run_callbacks (pending : list Delivery) : M unit :=
  sdk_call RunCallbacks >> for_each pending deliver.

(** The test of the main loop of [SteamworksInterface._callbacks],
    [while not self.end_callbacks]: with the flag set the thread leaves
    the loop and ends; with the flag unset it goes on to
    [run_callbacks()], for which the SDK holds [pending]. *)
Definition _callbacks_test (pending : list Delivery) (w : World) : World :=
  match end_callbacks (iface w) with
  | Some true =>
      with_thread Finished
        (snd (log (LogThreadEnd (callbacks_count (iface w))) w))
  | Some false => with_thread (Pumping pending) w
  | None => with_thread Crashed w
  end.

(** The body of that loop: one [run_callbacks()] (and the thread's own
    0.1 s sleep), which brings the thread back to the loop test.  An
    exception that escapes ends the thread. *)
Definition _callbacks_pump (pending : list Delivery) (w : World) : World :=
  match run_callbacks pending w with
  | (Ret _, w1) => with_thread Polling w1
  | (_, w1) => with_thread Crashed w1
  end.

(** One turn of the thread: a test of the first loop while the SDK is not
    loaded; a test of the main loop followed, when the stop flag is unset,
    by the body; or, for a thread that was suspended after its loop test,
    the body it had gone on to. *)
Definition _callbacks_turn (pending : list Delivery) (w : World) : World :=
  match steamworks_thread w with
  | WaitingForLoad =>
      let w1 := snd (loaded w) in
      if loaded_flag w1 then with_thread Polling w1 else w1
  | Polling =>
      let w1 := _callbacks_test pending w in
      match steamworks_thread w1 with
      | Pumping p => _callbacks_pump p w1
      | _ => w1
      end
  | Pumping p => _callbacks_pump p w
  | _ => w
  end.

(** The thread makes its loop test and is suspended there. *)
Definition _callbacks_suspend (pending : list Delivery) (w : World) : World :=
  match steamworks_thread w with
  | Polling => _callbacks_test pending w
  | _ => w
  end.

(** The thread is given the time to reach its next loop test. *)
Definition settle : M unit :=
  modify (fun w => _callbacks_turn [] (_callbacks_turn [] w)).

(** What goes on while the main flow is blocked once: the next entry of
    the script, if any is left. *)
Definition background : M unit :=
  fun w =>
    match script w with
    | [] => (Ret tt, w)
    | tk :: rest =>
        let w1 := with_script rest
                    (with_clock (clock w + Z.of_N (jitter tk))
                       (with_loaded (loaded_flag w || load_done tk) w)) in
        let w2 := fold_left (fun w' pending => _callbacks_turn pending w') (quanta tk) w1 in
        (Ret tt, match preempted tk with
                 | Some pending => _callbacks_suspend pending w2
                 | None => w2
                 end)
    end.

(** [time.sleep(secs)]; a negative duration is a [ValueError]. *)
Definition sleep (ms : Z) : M unit :=
  if ms <? 0 then raise ValueError
  else emit (EvSleep ms) >>
       modify (fun w => with_clock (clock w + ms) w) >>
       background.

(** [self.steamworks_thread.is_alive()] *)
Definition thread_is_alive : M bool :=
  let* t := get steamworks_thread in
  match t with
  | NoThread => raise AttributeError
  | _ => ret (is_alive t)
  end.

(** [self.steamworks_thread.join()]: waits through whatever the
    background still does until the thread has ended; when the script is
    exhausted and the thread is still alive, nothing will end it. *)
Fixpoint join_rec (ticks : list Tick) : M unit :=
  settle >>
  let* alive := thread_is_alive in
  if negb alive then ret tt
  else match ticks with
       | [] => fun w => (Blocked, w)
       | _ :: rest => background >> join_rec rest
       end.

Definition join : M unit :=
  emit (EvJoin None) >>
  let* alive := thread_is_alive in
  if negb alive then ret tt
  else let* s := get script in join_rec s.

(** [self.steamworks_thread.join(timeout=secs)] on a live thread. *)
Definition join_timeout (ms : Z) : M unit :=
  emit (EvJoin (Some ms)) >>
  settle >>
  let* alive := thread_is_alive in
  if negb alive then ret tt
  else modify (fun w => with_clock (clock w + ms) w) >> background.

(** ** [SteamworksInterface] *)

(** [SteamworksInterface._daemon()] followed by [.start()]. *)
Definition _daemon_start : M unit :=
  modify (with_thread WaitingForLoad) >> emit EvThreadStart.

(** [SteamworksInterface.__init__(callbacks, callbacks_total, _libs)] *)
Definition SteamworksInterface_init (cbs : bool) (total : option Z)
    (_libs : option string) : M unit :=
  modify_iface (fun _ => blank_iface) >>
  modify_iface (set_callbacks cbs) >>
  modify_iface (set_callbacks_count 0) >>
  modify_iface (set_callbacks_total total) >>
  (if cbs
   then assign_end_callbacks false >>
        (if truthy total
         then modify_iface (set_multiple_queries (Some true))
         else modify_iface (set_multiple_queries (Some false)))
   else ret tt) >>
  modify_iface (set_query_result ∅) >>
  modify_iface (set_steam_not_running false) >>
  STEAMWORKS _libs >>
  try_except (sdk_call Initialize) Exception
    (fun _ => log LogInitFailed >> modify_iface (set_steam_not_running true)) >>
  let* s := get iface in
  if negb (steam_not_running s)
  then if callbacks s then _daemon_start else ret tt
  else ret tt.

(** [time() - start_time >= timeout] at the reading [t].  A difference of
    milliseconds that is not the timeout decides it; at exactly the
    timeout the rounding of the float readings does. *)
Definition reached (e : Env) (timeout start_time t : Z) : bool :=
  if t - start_time =? seconds timeout
  then negb (reading_short e start_time t)
  else seconds timeout <? t - start_time.

(** The loop of [SteamworksInterface._wait_for_callbacks]. *)
Fixpoint wait_loop (fuel : nat) (timeout start_time : Z) : M bool :=
  match fuel with
  | O => fun w => (NoFuel, w)
  | S fuel' =>
      let* s := get iface in
      let* stop := attr (end_callbacks s) in
      if stop then ret true
      else
        let* alive := thread_is_alive in
        if negb alive then ret true
        else
          let* t := time in
          let* e := get env in
          if reached e timeout start_time t
          then log (LogCallbackTimeout timeout) >>
               assign_end_callbacks true >>
               ret false
          else sleep OPERATION_INTERVAL >> wait_loop fuel' timeout start_time
  end.

(** Turns of the loop that a timeout allows: one per 100 ms, one more
    when the reading at the timeout falls short, and the one that sees the
    timeout. *)
Definition wait_fuel (timeout : Z) : nat := S (S (Z.to_nat (timeout * 10))).

(** [SteamworksInterface._wait_for_callbacks(timeout)] *)
Definition _wait_for_callbacks (timeout : Z) : M bool :=
  let* start_time := time in
  wait_loop (wait_fuel timeout) timeout start_time.

(** ** [SteamworksSubscriptionHandler] *)

Record SteamworksSubscriptionHandler := {
  action : string;
  pfid_or_pfids : list Z;
  handler_libs : option string
}.

Definition valid_actions : list string :=
  ["subscribe"; "unsubscribe"; "resubscribe"].

(** [action in valid_actions] *)
Definition is_valid_action (a : string) : bool :=
  existsb (String.eqb a) valid_actions.

(** [SteamworksSubscriptionHandler.__init__(action, pfid_or_pfids, _libs)] *)
Definition SubscriptionHandler_init (a : string) (ids : IntOrList)
    (_libs : option string) : M SteamworksSubscriptionHandler :=
  if negb (is_valid_action a)
  then raise ValueError
  else ret {| action := a;
              pfid_or_pfids := match ids with
                               | PyList l => l
                               | PyInt n => [n]
                               end;
              handler_libs := _libs |}.

(** The dictionary [operation_map] of [_queue_operations]. *)
Definition operation_map (operation : string) : option (Z -> SdkCall) :=
  if String.eqb operation "subscribe" then Some SubscribeItem
  else if String.eqb operation "unsubscribe" then Some UnsubscribeItem
  else None.

(** The body of the loop of [_queue_operations], for the [idx]-th
    identifier of [total] (counted from 1). *)
Definition queue_one (operation : string) (total : nat) (idx : nat) (pfid : Z) : M unit :=
  (match operation_map operation with
   | Some call => sdk_call (call pfid)
   | None => ret tt
   end) >>
  (if (idx <? total)%nat then sleep OPERATION_INTERVAL else ret tt).

(** [for idx, pfid in enumerate(pfids, start)] *)
Fixpoint for_enumerate (start : nat) (xs : list Z) (body : nat -> Z -> M unit) : M unit :=
  match xs with
  | [] => ret tt
  | x :: rest => body start x >> for_enumerate (S start) rest body
  end.

(** [SteamworksSubscriptionHandler._queue_operations] *)
Definition _queue_operations (operation : string) (pfids : list Z) : M unit :=
  for_enumerate 1 pfids (queue_one operation (length pfids)).

(** [SteamworksSubscriptionHandler._register_callbacks]; [actions] is the
    set of action names, given as a list. *)
Definition _register_callbacks (actions : list string) : M unit :=
  (if existsb (String.eqb "unsubscribe") actions
   then sdk_call (SetItemUnsubscribedCallback (cb_operation "unsubscribe"))
   else ret tt) >>
  (if existsb (String.eqb "subscribe") actions
   then sdk_call (SetItemSubscribedCallback (cb_operation "subscribe"))
   else ret tt).

(** Stage 5 of [_handle_resubscribe]: one guarded [DownloadItem] each. *)
Definition download_one (pfid : Z) : M unit :=
  try_except
    (sdk_call (DownloadItem pfid true cb_download true))
    Exception
    (fun e => log_exc_info (LogDownloadFailed pfid e) e).

(** [SteamworksSubscriptionHandler._handle_resubscribe] *)
Definition _handle_resubscribe (self : SteamworksSubscriptionHandler) : M unit :=
  _register_callbacks ["unsubscribe"; "subscribe"] >>
  _queue_operations "unsubscribe" (pfid_or_pfids self) >>
  sleep RESUBSCRIBE_STAGE_WAIT >>
  _queue_operations "subscribe" (pfid_or_pfids self) >>
  sleep RESUBSCRIBE_STAGE_WAIT >>
  for_each (pfid_or_pfids self) download_one.

(** [SteamworksSubscriptionHandler._handle_subscribe] *)
Definition _handle_subscribe (self : SteamworksSubscriptionHandler) : M unit :=
  _register_callbacks ["subscribe"] >>
  _queue_operations "subscribe" (pfid_or_pfids self).

(** [SteamworksSubscriptionHandler._handle_unsubscribe] *)
Definition _handle_unsubscribe (self : SteamworksSubscriptionHandler) : M unit :=
  _register_callbacks ["unsubscribe"] >>
  _queue_operations "unsubscribe" (pfid_or_pfids self).

(** The loop of [run] that waits for the SDK to load: [true] when it is
    loaded, [false] when the 30 s budget ran out first. *)
Fixpoint wait_loaded (fuel : nat) (start_time : Z) : M bool :=
  match fuel with
  | O => fun w => (NoFuel, w)
  | S fuel' =>
      let* is_loaded := loaded in
      if is_loaded then ret true
      else
        let* t := time in
        if seconds STEAMWORKS_TIMEOUT <? t - start_time
        then log LogLoadTimeout >> ret false
        else sleep OPERATION_INTERVAL >> wait_loaded fuel' start_time
  end.

Definition load_fuel : nat := 302.

(** The [finally] block of [run]. *)
Definition run_cleanup : M unit :=
  let* t := get steamworks_thread in
  (match t with
   | NoThread => ret tt                           (* [hasattr] is false *)
   | _ => if is_alive t then join_timeout (seconds 5) else ret tt
   end) >>
  sdk_call Unload.

(** The [try] block of [run]. *)
Definition run_body (self : SteamworksSubscriptionHandler) : M unit :=
  (if String.eqb (action self) "resubscribe" then _handle_resubscribe self
   else if String.eqb (action self) "subscribe" then _handle_subscribe self
   else if String.eqb (action self) "unsubscribe" then _handle_unsubscribe self
   else ret tt) >>
  let* completed := _wait_for_callbacks STEAMWORKS_TIMEOUT in
  if completed then log LogCompleted else log LogWaitTimeout.

(** [SteamworksSubscriptionHandler.run] *)
Definition SubscriptionHandler_run (self : SteamworksSubscriptionHandler) : M unit :=
  SteamworksInterface_init true None (handler_libs self) >>
  let* s := get iface in
  if steam_not_running s
  then log LogNotRunning >> sdk_call Unload
  else
    let* start_time := time in
    let* ready := wait_loaded load_fuel start_time in
    if negb ready
    then ret tt
    else
      try_finally
        (try_except (run_body self) Exception (fun e => log_exc_info (LogRunError e) e))
        run_cleanup.

(** ** [SteamworksAppDependenciesQuery] *)

Record SteamworksAppDependenciesQuery := {
  query_pfids : IntOrList;
  interval : Z;
  query_libs : option string
}.

(** [SteamworksAppDependenciesQuery.__init__]; [interval] defaults to 1. *)
Definition DependenciesQuery_init (ids : IntOrList) (interval_s : option Z)
    (_libs : option string) : SteamworksAppDependenciesQuery :=
  {| query_pfids := ids; interval := default 1 interval_s; query_libs := _libs |}.

(** The input as a list: [[n]] for a single [int]. *)
Definition as_list (ids : IntOrList) : list Z :=
  match ids with
  | PyInt n => [n]
  | PyList l => l
  end.

(** The body of the query loop of [run]. *)
Definition query_one (self : SteamworksAppDependenciesQuery) (total : nat) (pfid : Z) : M unit :=
  sdk_call (SetGetAppDependenciesResultCallback cb_app_dependencies) >>
  sdk_call (GetAppDependencies pfid) >>
  (if (1 <? total)%nat then sleep (seconds (interval self)) else ret tt).

(** [SteamworksAppDependenciesQuery.run]; [None] is Python's [None]. *)
Definition DependenciesQuery_run (self : SteamworksAppDependenciesQuery)
    : M (option (gmap Z (list Z))) :=
  let pfids := as_list (query_pfids self) in
  SteamworksInterface_init true (Some (Z.of_nat (length pfids))) (query_libs self) >>
  let* s := get iface in
  if negb (steam_not_running s)
  then
    let* is_loaded := loaded in
    if negb is_loaded
    then ret None                                   (* [break], then [return None] *)
    else
      for_each pfids (query_one self (length pfids)) >>
      _wait_for_callbacks 60 >>
      join >>
      let* s' := get iface in
      ret (Some (get_app_deps_query_result s'))
  else sdk_call Unload >> ret None.

(** * Properties *)

(** ** Views of an event list *)

(** The per-item operations: subscribe, unsubscribe and forced download. *)
Definition is_item_call (e : Event) : bool :=
  match e with
  | EvCall (SubscribeItem _) | EvCall (UnsubscribeItem _)
  | EvCall (DownloadItem _ _ _ _) => true
  | _ => false
  end.

Definition item_calls (tr : list Event) : list Event := List.filter is_item_call tr.

(** The per-item operations together with the one-second stage delays. *)
Definition is_stage_event (e : Event) : bool :=
  match e with
  | EvSleep ms => ms =? RESUBSCRIBE_STAGE_WAIT
  | _ => is_item_call e
  end.

Definition stage_view (tr : list Event) : list Event := List.filter is_stage_event tr.

(** ** Construction of the subscription handler *)

(** C4. An action outside subscribe / unsubscribe / resubscribe makes the
    constructor raise [ValueError]; a valid one gives the handler, with the
    identifiers as a list.  Either way the world is left as it was: no SDK
    call, no event. *)
Theorem C4_action_validated_at_construction :
  forall (a : string) (ids : IntOrList) (libs : option string) (w : World),
    ((a = "subscribe" \/ a = "unsubscribe" \/ a = "resubscribe") /\
     SubscriptionHandler_init a ids libs w =
       (Ret {| action := a; pfid_or_pfids := as_list ids; handler_libs := libs |}, w))
    \/
    ((a <> "subscribe" /\ a <> "unsubscribe" /\ a <> "resubscribe") /\
     SubscriptionHandler_init a ids libs w = (Raise ValueError, w)).
Proof.
  intros a ids libs w. unfold SubscriptionHandler_init, is_valid_action, valid_actions.
  cbn [existsb].
  destruct (String.eqb_spec a "subscribe") as [E1|N1].
  { left. split; [auto|]. cbn. destruct ids; reflexivity. }
  destruct (String.eqb_spec a "unsubscribe") as [E2|N2].
  { left. split; [auto|]. cbn. destruct ids; reflexivity. }
  destruct (String.eqb_spec a "resubscribe") as [E3|N3].
  { left. split; [auto|]. cbn. destruct ids; reflexivity. }
  right. split; [auto|]. reflexivity.
Qed.


(** ** Reasoning about computations *)

Lemma bind_Ret {A B} (m : M A) (f : A -> M B) w a w' :
  m w = (Ret a, w') -> bind m f w = f a w'.
Proof. intros H. unfold bind. rewrite H. reflexivity. Qed.


(** [preserves I m]: whatever way [m] ends, it takes a world in which
    [I] holds to a world in which [I] holds. *)
Definition preserves {A} (I : World -> Prop) (m : M A) : Prop :=
  forall w, I w -> I (snd (m w)).

Section Preserves.
Context (I : World -> Prop).

Lemma preserves_ret {A} (a : A) : preserves I (ret a).
Proof. intros w H. exact H. Qed.

Lemma preserves_raise {A} (e : exn) : preserves I (@raise A e).
Proof. intros w H. exact H. Qed.

Lemma preserves_get {A} (f : World -> A) : preserves I (get f).
Proof. intros w H. exact H. Qed.

Lemma preserves_attr {A} (o : option A) : preserves I (attr o).
Proof. destruct o; [apply preserves_ret | apply preserves_raise]. Qed.

Lemma preserves_first_arg args : preserves I (first_arg args).
Proof. destruct args; [apply preserves_raise | apply preserves_ret]. Qed.

Lemma preserves_bind {A B} (m : M A) (f : A -> M B) :
  preserves I m -> (forall a, preserves I (f a)) -> preserves I (bind m f).
Proof.
  intros Hm Hf w H. unfold bind. specialize (Hm w H).
  destruct (m w) as [[a|e| |] w1]; cbn in *; auto.
  apply Hf, Hm.
Qed.

(** The same, keeping what is known of the value returned. *)
Lemma preserves_bind_val {A B} (P : A -> Prop) (m : M A) (f : A -> M B) :
  preserves I m -> (forall w a, I w -> fst (m w) = Ret a -> P a) ->
  (forall a, P a -> preserves I (f a)) -> preserves I (bind m f).
Proof.
  intros Hm HP Hf w H. unfold bind. specialize (Hm w H). specialize (HP w).
  destruct (m w) as [[a|e| |] w1]; cbn in *; auto.
  apply Hf; auto.
Qed.

Lemma preserves_try_except {A} (body : M A) catches handler :
  preserves I body -> (forall e, preserves I (handler e)) ->
  preserves I (try_except body catches handler).
Proof.
  intros Hb Hh w H. unfold try_except. specialize (Hb w H).
  destruct (body w) as [[a|e| |] w1]; cbn in *; auto.
  destruct (catches e); cbn; auto. apply Hh, Hb.
Qed.

Lemma preserves_try_finally {A} (body : M A) final :
  preserves I body -> preserves I final ->
  preserves I (try_finally body final).
Proof.
  intros Hb Hf w H. unfold try_finally. specialize (Hb w H).
  destruct (body w) as [[a|e| |] w1]; cbn in *; auto.
  - apply preserves_bind; auto. intros _. apply preserves_ret.
  - apply preserves_bind; auto. intros _. apply preserves_raise.
Qed.

Lemma preserves_for_each {A} (P : A -> Prop) (xs : list A) body :
  (forall x, P x -> preserves I (body x)) -> Forall P xs ->
  preserves I (for_each xs body).
Proof.
  intros Hb HP. induction HP as [|x xs Hx _ IH]; cbn [for_each].
  - apply preserves_ret.
  - apply preserves_bind; auto.
Qed.

Lemma preserves_for_enumerate (xs : list Z) body :
  (forall i x, preserves I (body i x)) ->
  forall start, preserves I (for_enumerate start xs body).
Proof.
  intros Hb. induction xs as [|x xs IH]; intros start; cbn [for_enumerate].
  - apply preserves_ret.
  - apply preserves_bind; auto.
Qed.

Lemma preserves_modify (f : World -> World) :
  (forall w, I w -> I (f w)) -> preserves I (modify f).
Proof. intros Hf w H. apply Hf, H. Qed.

Lemma preserves_log_exc_info l e :
  preserves I (log l) -> preserves I (log_exc_info l e).
Proof.
  intros Hl w H. unfold log_exc_info.
  destruct (format_raises _ _ _); [exact H | apply Hl, H].
Qed.
End Preserves.

(** *** The background, for an invariant that its steps respect *)

Definition ok_pending (okargs : list CallbackObj -> Prop) (pending : list Delivery) : Prop :=
  Forall (fun d => okargs (snd d)) pending.

(** The notifications of one entry of the script. *)
Definition ok_tick (okargs : list CallbackObj -> Prop) (tk : Tick) : Prop :=
  Forall (ok_pending okargs) (quanta tk) /\
  forall p, preempted tk = Some p -> ok_pending okargs p.

(** A state that the thread may be put in. *)
Definition runnable (okargs : list CallbackObj -> Prop) (t : ThreadState) : Prop :=
  t <> NoThread /\ forall p, t = Pumping p -> ok_pending okargs p.

Lemma ok_pending_any (okargs : list CallbackObj -> Prop) pending :
  (forall args, okargs args) -> ok_pending okargs pending.
Proof. intros H. apply Forall_forall. intros d _. apply H. Qed.

Lemma ok_tick_any (okargs : list CallbackObj -> Prop) tk :
  (forall args, okargs args) -> ok_tick okargs tk.
Proof.
  intros H. split.
  - apply Forall_forall. intros q _. apply ok_pending_any, H.
  - intros p _. apply ok_pending_any, H.
Qed.

(** What an invariant [I] has to respect for the background to preserve
    it; [okargs] is what [I] may rely on about the arguments of the
    notifications still in the script, and of those that a suspended
    thread is about to receive. *)
Record background_ok (I : World -> Prop) (okargs : list CallbackObj -> Prop) : Prop := {
  bg_logs : forall w n, I w -> I (with_logs (logs w ++ [LogThreadEnd n]) w);
  bg_clock : forall w d, 0 <= d -> I w -> I (with_clock (clock w + d) w);
  bg_loaded : forall w b, I w -> I (with_loaded (loaded_flag w || b) w);
  bg_thread : forall w t, I w -> runnable okargs t -> I (with_thread t w);
  bg_script : forall w tk rest,
    I w -> script w = tk :: rest ->
    I (with_script rest w) /\ ok_tick okargs tk;
  bg_poll_loaded : forall w,
    I w -> I (with_trace (trace w ++ [EvCall Loaded]) w);
  bg_pump : forall w pending,
    ok_pending okargs pending -> I w -> I (snd (run_callbacks pending w));
  bg_suspended : forall w p,
    I w -> steamworks_thread w = Pumping p -> ok_pending okargs p
}.

(** The condition on the pump, for an invariant that every delivery
    respects. *)
Lemma pump_by_deliver (I : World -> Prop) (okargs : list CallbackObj -> Prop) :
  (forall w, I w -> I (with_trace (trace w ++ [EvCall RunCallbacks]) w)) ->
  (forall d, okargs (snd d) -> preserves I (deliver d)) ->
  forall w pending,
    ok_pending okargs pending -> I w -> I (snd (run_callbacks pending w)).
Proof.
  intros Hpump Hdel w pending Hp H. unfold run_callbacks, bind, sdk_call.
  destruct (sdk_raises _ _ _); cbn; [apply Hpump; auto|].
  apply (preserves_for_each I (fun d => okargs (snd d)));
    [exact Hdel | exact Hp | apply Hpump; auto].
Qed.

Section Background.
Context (I : World -> Prop) (okargs : list CallbackObj -> Prop).
Hypothesis HB : background_ok I okargs.

Let I_logs := bg_logs I okargs HB.
Let I_clock := bg_clock I okargs HB.
Let I_loaded := bg_loaded I okargs HB.
Let I_thread := bg_thread I okargs HB.
Let I_script := bg_script I okargs HB.
Let I_quiet := bg_poll_loaded I okargs HB.
Let I_pump := bg_pump I okargs HB.
Let I_suspended := bg_suspended I okargs HB.

Lemma runnable_plain t :
  t <> NoThread -> (forall p, t <> Pumping p) -> runnable okargs t.
Proof. intros H1 H2. split; [exact H1|]. intros p Hp. destruct (H2 p Hp). Qed.

Lemma callbacks_test_preserves pending w :
  ok_pending okargs pending -> I w -> I (_callbacks_test pending w).
Proof.
  intros Hp H. unfold _callbacks_test.
  destruct (end_callbacks (iface w)) as [[|]|].
  - apply I_thread; [|apply runnable_plain; discriminate].
    cbn. apply I_logs. exact H.
  - apply I_thread; [exact H|]. split; [discriminate|].
    intros p Heq. injection Heq as <-. exact Hp.
  - apply I_thread; [exact H | apply runnable_plain; discriminate].
Qed.

Lemma callbacks_pump_preserves pending w :
  ok_pending okargs pending -> I w -> I (_callbacks_pump pending w).
Proof.
  intros Hp H. unfold _callbacks_pump.
  assert (H1 : I (snd (run_callbacks pending w))) by (apply I_pump; auto).
  destruct (run_callbacks pending w) as [[a|e| |] w1]; cbn in *;
    apply I_thread; solve [assumption | apply runnable_plain; discriminate].
Qed.

Lemma callbacks_turn_preserves pending w :
  ok_pending okargs pending -> I w -> I (_callbacks_turn pending w).
Proof.
  intros Hp H. unfold _callbacks_turn.
  destruct (steamworks_thread w) as [| | |p| |] eqn:Et; auto.
  - assert (H1 : I (snd (loaded w))).
    { unfold loaded, emit, modify, get, bind. cbn. apply I_quiet; auto. }
    destruct (loaded_flag (snd (loaded w)));
      [apply I_thread; [exact H1 | apply runnable_plain; discriminate] | exact H1].
  - pose proof (callbacks_test_preserves pending w Hp H) as H1.
    destruct (steamworks_thread (_callbacks_test pending w)) as [| | |p| |] eqn:Et1; auto.
    apply callbacks_pump_preserves; [|exact H1]. exact (I_suspended _ _ H1 Et1).
  - apply callbacks_pump_preserves; [|exact H]. exact (I_suspended _ _ H Et).
Qed.

Lemma callbacks_suspend_preserves pending w :
  ok_pending okargs pending -> I w -> I (_callbacks_suspend pending w).
Proof.
  intros Hp H. unfold _callbacks_suspend.
  destruct (steamworks_thread w); auto. apply callbacks_test_preserves; auto.
Qed.

Lemma settle_preserves : preserves I settle.
Proof.
  apply preserves_modify. intros w H.
  apply callbacks_turn_preserves; [constructor|].
  apply callbacks_turn_preserves; [constructor|exact H].
Qed.

Lemma turns_preserve qs w :
  Forall (ok_pending okargs) qs -> I w ->
  I (fold_left (fun w' pending => _callbacks_turn pending w') qs w).
Proof.
  intros Hq. revert w. induction Hq as [|q qs Hq _ IH]; intros w H; cbn; auto.
  apply IH, callbacks_turn_preserves; auto.
Qed.

Lemma background_preserves : preserves I background.
Proof.
  intros w H. unfold background. destruct (script w) as [|tk rest] eqn:Es; auto.
  cbn.
  destruct (I_script (with_clock (clock w + Z.of_N (jitter tk))
                        (with_loaded (loaded_flag w || load_done tk) w)) tk rest)
    as [H1 [H2 H3]]; auto.
  { apply (I_clock (with_loaded (loaded_flag w || load_done tk) w)); [lia|].
    apply I_loaded, H. }
  pose proof (turns_preserve (quanta tk) _ H2 H1) as H4.
  destruct (preempted tk) as [p|]; [|exact H4].
  apply callbacks_suspend_preserves; auto.
Qed.

(** The events of the main flow when it blocks. *)
Hypothesis I_block : forall w e,
  ((exists ms, e = EvSleep ms) \/ exists t, e = EvJoin t) ->
  I w -> I (with_trace (trace w ++ [e]) w).

Lemma sleep_preserves ms : preserves I (sleep ms).
Proof.
  unfold sleep. destruct (Z.ltb_spec ms 0) as [|Hms]; [apply preserves_raise|].
  apply preserves_bind.
  { apply preserves_modify. intros w H. apply I_block; eauto. }
  intros _. apply preserves_bind.
  { apply preserves_modify. intros w H. apply I_clock; auto. }
  intros _. apply background_preserves.
Qed.

Lemma thread_is_alive_preserves : preserves I thread_is_alive.
Proof.
  unfold thread_is_alive. apply preserves_bind; [apply preserves_get|].
  intros t. destruct t; solve [apply preserves_ret | apply preserves_raise].
Qed.

Lemma join_rec_preserves ticks : preserves I (join_rec ticks).
Proof.
  induction ticks as [|tk rest IH]; cbn [join_rec].
  - apply preserves_bind; [apply settle_preserves|]. intros _.
    apply preserves_bind; [apply thread_is_alive_preserves|]. intros alive.
    destruct alive; cbn [negb]; [|apply preserves_ret]. intros w H. exact H.
  - apply preserves_bind; [apply settle_preserves|]. intros _.
    apply preserves_bind; [apply thread_is_alive_preserves|]. intros alive.
    destruct alive; cbn [negb]; [|apply preserves_ret].
    apply preserves_bind; [apply background_preserves|]. intros _. exact IH.
Qed.

Lemma join_preserves : preserves I join.
Proof.
  unfold join. apply preserves_bind.
  { apply preserves_modify. intros w H. apply I_block; eauto. }
  intros _. apply preserves_bind; [apply thread_is_alive_preserves|]. intros alive.
  destruct alive; cbn [negb]; [|apply preserves_ret].
  apply preserves_bind; [apply preserves_get|]. intros s. apply join_rec_preserves.
Qed.

Lemma join_timeout_preserves ms : 0 <= ms -> preserves I (join_timeout ms).
Proof.
  intros Hms. unfold join_timeout. apply preserves_bind.
  { apply preserves_modify. intros w H. apply I_block; eauto. }
  intros _. apply preserves_bind; [apply settle_preserves|]. intros _.
  apply preserves_bind; [apply thread_is_alive_preserves|]. intros alive.
  destruct alive; cbn [negb]; [|apply preserves_ret].
  apply preserves_bind; [|intros _; apply background_preserves].
  apply preserves_modify. intros w H. apply I_clock; auto.
Qed.
End Background.

(** The SDK calls the orchestrator makes once the session is open. *)
Definition is_orchestrator_call (c : SdkCall) : bool :=
  match c with
  | Unload | SubscribeItem _ | UnsubscribeItem _
  | SetItemSubscribedCallback (cb_operation _)
  | SetItemUnsubscribedCallback (cb_operation _)
  | DownloadItem _ _ cb_download _ => true
  | _ => false
  end.

(** *** The main flow, for an invariant that its steps respect *)

Section MainFlow.
Context (I : World -> Prop).

Hypothesis H_sleep : forall ms, preserves I (sleep ms).
Hypothesis H_log : forall l, l <> LogCompleted -> preserves I (log l).
Hypothesis H_loaded : preserves I loaded.
Hypothesis H_call : forall c, is_orchestrator_call c = true -> preserves I (sdk_call c).
Hypothesis H_join_timeout : forall ms, 0 <= ms -> preserves I (join_timeout ms).

Lemma wait_loaded_preserves fuel start : preserves I (wait_loaded fuel start).
Proof.
  induction fuel as [|fuel IH]; cbn [wait_loaded]; [intros w H; exact H|].
  apply preserves_bind; [exact H_loaded|]. intros b.
  destruct b; [apply preserves_ret|].
  apply preserves_bind; [apply preserves_get|]. intros t.
  destruct (_ <? _).
  - apply preserves_bind; [apply H_log; discriminate|]. intros _. apply preserves_ret.
  - apply preserves_bind; [apply H_sleep|]. intros _. exact IH.
Qed.

Lemma queue_operations_preserves operation pfids :
  preserves I (_queue_operations operation pfids).
Proof.
  unfold _queue_operations. apply preserves_for_enumerate.
  intros i x. unfold queue_one. apply preserves_bind.
  - unfold operation_map.
    destruct (String.eqb operation "subscribe"); [apply H_call; reflexivity|].
    destruct (String.eqb operation "unsubscribe"); [apply H_call; reflexivity|].
    apply preserves_ret.
  - intros _. destruct (_ <? _)%nat; [apply H_sleep | apply preserves_ret].
Qed.

Lemma register_callbacks_preserves actions :
  preserves I (_register_callbacks actions).
Proof.
  unfold _register_callbacks. apply preserves_bind.
  - destruct (existsb _ _); [apply H_call; reflexivity | apply preserves_ret].
  - intros _. destruct (existsb _ _); [apply H_call; reflexivity | apply preserves_ret].
Qed.

Lemma download_one_preserves pfid : preserves I (download_one pfid).
Proof.
  unfold download_one. apply preserves_try_except.
  - apply H_call; reflexivity.
  - intros e. apply preserves_log_exc_info, H_log. discriminate.
Qed.

Lemma handle_resubscribe_preserves self : preserves I (_handle_resubscribe self).
Proof.
  unfold _handle_resubscribe.
  apply preserves_bind; [apply register_callbacks_preserves|]. intros _.
  apply preserves_bind; [apply queue_operations_preserves|]. intros _.
  apply preserves_bind; [apply H_sleep|]. intros _.
  apply preserves_bind; [apply queue_operations_preserves|]. intros _.
  apply preserves_bind; [apply H_sleep|]. intros _.
  apply (preserves_for_each I (fun _ => True)).
  - intros x _. apply download_one_preserves.
  - apply Forall_forall. auto.
Qed.

Lemma handle_subscribe_preserves self : preserves I (_handle_subscribe self).
Proof.
  unfold _handle_subscribe.
  apply preserves_bind; [apply register_callbacks_preserves|]. intros _.
  apply queue_operations_preserves.
Qed.

Lemma handle_unsubscribe_preserves self : preserves I (_handle_unsubscribe self).
Proof.
  unfold _handle_unsubscribe.
  apply preserves_bind; [apply register_callbacks_preserves|]. intros _.
  apply queue_operations_preserves.
Qed.

Lemma handle_action_preserves self :
  preserves I
    (if String.eqb (action self) "resubscribe" then _handle_resubscribe self
     else if String.eqb (action self) "subscribe" then _handle_subscribe self
     else if String.eqb (action self) "unsubscribe" then _handle_unsubscribe self
     else ret tt).
Proof.
  destruct (String.eqb _ _); [apply handle_resubscribe_preserves|].
  destruct (String.eqb _ _); [apply handle_subscribe_preserves|].
  destruct (String.eqb _ _); [apply handle_unsubscribe_preserves|].
  apply preserves_ret.
Qed.

Lemma run_cleanup_preserves : preserves I run_cleanup.
Proof.
  unfold run_cleanup. apply preserves_bind; [apply preserves_get|]. intros t.
  apply preserves_bind; [|intros _; apply H_call; reflexivity].
  destruct t; cbn; solve [apply preserves_ret | apply H_join_timeout; unfold seconds; lia].
Qed.

(** The waiter, when setting the stop flag respects the invariant. *)
Hypothesis H_stop : preserves I (assign_end_callbacks true).

Lemma wait_loop_preserves fuel timeout start :
  preserves I (wait_loop fuel timeout start).
Proof.
  induction fuel as [|fuel IH]; cbn [wait_loop]; [intros w H; exact H|].
  apply preserves_bind; [apply preserves_get|]. intros s.
  apply preserves_bind; [apply preserves_attr|]. intros stop.
  destruct stop; [apply preserves_ret|].
  apply preserves_bind; [apply thread_is_alive_preserves|]. intros alive.
  destruct alive; cbn [negb]; [|apply preserves_ret].
  apply preserves_bind; [apply preserves_get|]. intros t.
  apply preserves_bind; [apply preserves_get|]. intros e.
  destruct (reached e timeout start t).
  - apply preserves_bind; [apply H_log; discriminate|]. intros _.
    apply preserves_bind; [apply H_stop|]. intros _. apply preserves_ret.
  - apply preserves_bind; [apply H_sleep|]. intros _. exact IH.
Qed.

Lemma wait_for_callbacks_preserves timeout :
  preserves I (_wait_for_callbacks timeout).
Proof.
  unfold _wait_for_callbacks. apply preserves_bind; [apply preserves_get|].
  intros t. apply wait_loop_preserves.
Qed.

Hypothesis H_completed : preserves I (log LogCompleted).

Lemma run_body_preserves self : preserves I (run_body self).
Proof.
  unfold run_body.
  apply preserves_bind; [apply handle_action_preserves|]. intros _.
  apply preserves_bind; [apply wait_for_callbacks_preserves|]. intros b.
  destruct b; [apply H_completed | apply H_log; discriminate].
Qed.

Lemma run_guarded_preserves self :
  preserves I
    (try_finally
       (try_except (run_body self) Exception (fun e => log_exc_info (LogRunError e) e))
       run_cleanup).
Proof.
  apply preserves_try_finally; [|apply run_cleanup_preserves].
  apply preserves_try_except; [apply run_body_preserves|]. intros e.
  apply preserves_log_exc_info, H_log. discriminate.
Qed.
End MainFlow.

(** *** The handlers, for an invariant that their steps respect *)

(** The handlers that the subscription orchestrator registers. *)
Definition orchestrator_handler (h : Handler) : bool :=
  match h with
  | cb_app_dependencies => false
  | _ => true
  end.


Lemma first_arg_value args w a :
  fst (first_arg args w) = Ret a -> exists rest, args = a :: rest.
Proof. destruct args; cbn; intros H; inversion H. eauto. Qed.

Lemma attr_value {A} (o : option A) w a : fst (attr o w) = Ret a -> o = Some a.
Proof. destruct o; cbn; intros H; inversion H. reflexivity. Qed.

Section Handlers.
Context (I : World -> Prop) (okpfid : Z -> Prop).

Hypothesis H_log : forall l, l <> LogCompleted -> preserves I (log l).
Hypothesis H_count :
  preserves I (modify_iface (fun s => set_callbacks_count (callbacks_count s + 1) s)).
Hypothesis H_enter : forall h w, I w -> I (with_trace (trace w ++ [EvCallback h]) w).

(** The handlers of the subscription orchestrator only count and log. *)
Lemma invoke_orchestrator_preserves h args :
  orchestrator_handler h = true -> preserves I (invoke h args).
Proof.
  intros Hh. destruct h as [operation| |]; cbn [invoke]; [| |discriminate].
  - unfold _create_callback. apply preserves_bind; [apply H_count|].
    intros _. apply preserves_try_except; [|intros x; apply H_log; discriminate].
    destruct args as [|a ?]; [apply H_log; discriminate|].
    destruct (publishedFileId a); apply H_log; discriminate.
  - unfold _create_download_callback.
    apply preserves_try_except; [|intros x; apply H_log; discriminate].
    apply preserves_bind; [apply preserves_first_arg|]. intros a.
    apply preserves_bind; [apply preserves_attr|]. intros res.
    apply preserves_bind; [apply preserves_attr|]. intros pfid.
    destruct (res =? 1); apply H_log; discriminate.
Qed.

Hypothesis H_result : forall pfid deps,
  okpfid pfid ->
  preserves I (modify_iface (fun s =>
    set_query_result (<[pfid := deps]> (get_app_deps_query_result s)) s)).
Hypothesis H_stop : preserves I (assign_end_callbacks true).

(** The identifier a payload carries, if it has one, is acceptable. *)
Definition ok_payload (args : list CallbackObj) : Prop :=
  forall a rest p, args = a :: rest -> publishedFileId a = Some p -> okpfid p.

Lemma invoke_preserves h args : ok_payload args -> preserves I (invoke h args).
Proof.
  intros Hargs. destruct h as [operation| |];
    try (apply invoke_orchestrator_preserves; reflexivity); cbn [invoke].
  - unfold _cb_app_dependencies_result_callback.
    apply preserves_bind; [apply H_count|]. intros _.
    apply (preserves_bind_val I (fun a => exists rest, args = a :: rest));
      [apply preserves_first_arg | intros w0 a0 _; apply first_arg_value |]. intros a [rest Ha].
    apply preserves_bind; [apply preserves_attr|]. intros res.
    apply (preserves_bind_val I (fun p => publishedFileId a = Some p));
      [apply preserves_attr | intros w0 a0 _; apply attr_value |]. intros pfid Hp.
    apply preserves_bind; [apply preserves_attr|]. intros deps.
    apply preserves_bind; [apply H_log; discriminate|]. intros _.
    apply preserves_bind.
    { destruct (_ <? _); [|apply preserves_ret]. apply H_result. eapply Hargs; eauto. }
    intros _. apply preserves_bind; [apply preserves_get|]. intros s.
    apply preserves_bind; [apply preserves_attr|]. intros multiple.
    destruct (_ && _); [apply H_stop|].
    destruct (negb multiple); [apply H_stop | apply preserves_ret].
Qed.

Lemma deliver_preserves d : ok_payload (snd d) -> preserves I (deliver d).
Proof.
  intros Hd. unfold deliver. apply preserves_bind; [apply preserves_get|]. intros r.
  destruct (registered d.1 r) as [h|]; [|apply preserves_ret].
  apply preserves_bind; [|intros _; apply invoke_preserves, Hd].
  apply preserves_modify. intros w H. apply H_enter, H.
Qed.
End Handlers.

(** ** Opening a session *)

(** The world after [SteamworksInterface.__init__]. *)

Definition init_failed (cbs : bool) (w : World) : bool :=
  sdk_raises (env w) (length (trace w) + (if cbs then 1 else 0))%nat Initialize.

Definition opened (cbs : bool) (total : option Z) (w : World) : World :=
  let failed := init_failed cbs w in
  {| env := env w; clock := clock w; script := script w;
     trace := trace w ++ (if cbs then [EvSetStop false] else []) ++ [EvCall Initialize]
                      ++ (if negb failed && cbs then [EvThreadStart] else []);
     logs := logs w ++ (if failed then [LogInitFailed] else []);
     loaded_flag := if failed then loaded_flag w else sdk_loaded0 (env w);
     registry := registry w;
     steamworks_thread := if negb failed && cbs then WaitingForLoad else steamworks_thread w;
     iface := {| callbacks := cbs; callbacks_count := 0; callbacks_total := total;
                 end_callbacks := if cbs then Some false else None;
                 multiple_queries := if cbs then Some (truthy total) else None;
                 get_app_deps_query_result := ∅;
                 steam_not_running := failed |} |}.

(** The world after a call of [SteamworksInterface.__init__] that the
    constructor of the SDK object ended: the attributes assigned before
    it, no [initialize()] and no thread. *)
Definition unopened (cbs : bool) (total : option Z) (w : World) : World :=
  {| env := env w; clock := clock w; script := script w;
     trace := trace w ++ (if cbs then [EvSetStop false] else []);
     logs := logs w;
     loaded_flag := loaded_flag w;
     registry := registry w;
     steamworks_thread := steamworks_thread w;
     iface := {| callbacks := cbs; callbacks_count := 0; callbacks_total := total;
                 end_callbacks := if cbs then Some false else None;
                 multiple_queries := if cbs then Some (truthy total) else None;
                 get_app_deps_query_result := ∅;
                 steam_not_running := false |} |}.

Lemma interface_init_opened cbs total libs w :
  sdk_missing (env w) libs = false ->
  SteamworksInterface_init cbs total libs w = (Ret tt, opened cbs total w).
Proof.
  intros Hm.
  unfold opened, init_failed, SteamworksInterface_init, assign_end_callbacks,
    try_except, sdk_call, _daemon_start, STEAMWORKS, modify_iface, emit, log,
    modify, get, bind, ret.
  destruct cbs; cbn.
  - destruct (truthy total); cbn; rewrite Hm; cbn; rewrite length_app; cbn [length];
      destruct (sdk_raises (env w) (length (trace w) + 1) Initialize); cbn;
      rewrite <- ?app_assoc, ?app_nil_r; reflexivity.
  - rewrite Hm; cbn. rewrite Nat.add_0_r.
    destruct (sdk_raises (env w) (length (trace w)) Initialize); cbn;
      rewrite <- ?app_assoc, ?app_nil_r; reflexivity.
Qed.

Lemma interface_init_missing cbs total libs w :
  sdk_missing (env w) libs = true ->
  SteamworksInterface_init cbs total libs w = (Raise SteamException, unopened cbs total w).
Proof.
  intros Hm.
  unfold unopened, SteamworksInterface_init, assign_end_callbacks,
    STEAMWORKS, modify_iface, emit, modify, get, bind, ret.
  destruct cbs; cbn.
  - destruct (truthy total); cbn; rewrite Hm; rewrite ?app_nil_r; reflexivity.
  - rewrite Hm, ?app_nil_r. reflexivity.
Qed.

(** A run whose session cannot be built ends there. *)
Lemma run_missing self e s :
  sdk_missing e (handler_libs self) = true ->
  SubscriptionHandler_run self (init_world e s)
    = (Raise SteamException, unopened true None (init_world e s)).
Proof.
  intros Hm. unfold SubscriptionHandler_run. unfold bind at 1.
  rewrite (interface_init_missing true None _ (init_world e s) Hm). reflexivity.
Qed.

Lemma query_run_missing self e s :
  sdk_missing e (query_libs self) = true ->
  DependenciesQuery_run self (init_world e s)
    = (Raise SteamException,
       unopened true (Some (Z.of_nat (length (as_list (query_pfids self))))) (init_world e s)).
Proof.
  intros Hm. unfold DependenciesQuery_run. cbv zeta. unfold bind at 1.
  rewrite (interface_init_missing true _ _ (init_world e s) Hm). reflexivity.
Qed.

(** C6.  The claim fails on the code when the constructor of the SDK
    object raises: [STEAMWORKS(_libs=_libs)] is called before the [try]
    that guards [initialize()], so the exception leaves
    [SteamworksInterface.__init__]; [steam_not_running] is still [False],
    [initialize()] was not called and no thread was started.  When the
    constructor returns, [__init__] returns too: a failing [initialize()]
    is absorbed, it shows only as [steam_not_running], and then no polling
    thread is started. *)
Theorem C6_open_propagates_constructor_failure :
  forall (cbs : bool) (total : option Z) (libs : option string) (w : World),
    let failed :=
      sdk_raises (env w) (length (trace w) + (if cbs then 1 else 0))%nat Initialize in
    (sdk_missing (env w) libs = true ->
     exists w',
       SteamworksInterface_init cbs total libs w = (Raise SteamException, w') /\
       steam_not_running (iface w') = false /\
       steamworks_thread w' = steamworks_thread w /\
       trace w' = trace w ++ (if cbs then [EvSetStop false] else [])) /\
    (sdk_missing (env w) libs = false ->
     exists w',
       SteamworksInterface_init cbs total libs w = (Ret tt, w') /\
       steam_not_running (iface w') = failed /\
       steamworks_thread w' =
         (if negb failed && cbs then WaitingForLoad else steamworks_thread w) /\
       trace w' =
         trace w ++ (if cbs then [EvSetStop false] else []) ++ [EvCall Initialize]
                 ++ (if negb failed && cbs then [EvThreadStart] else [])).
Proof.
  intros cbs total libs w failed. split; intros Hm.
  - exists (unopened cbs total w).
    split; [apply interface_init_missing, Hm|]. repeat split.
  - exists (opened cbs total w).
    split; [apply interface_init_opened, Hm|]. repeat split.
Qed.

(** A platform on which the native library of the SDK is not found at
    the path given. *)
Definition env_no_library : Env :=
  {| sdk_raises := fun _ _ => false; sdk_loaded0 := true;
     sdk_missing := fun libs => match libs with Some _ => true | None => false end;
     format_raises := fun _ _ => None;
     reading_short := fun _ _ => false |}.

Lemma C6_open_propagates_constructor_failure_witness :
  exists w',
    SteamworksInterface_init true None (Some "libs") (init_world env_no_library [])
      = (Raise SteamException, w') /\
    steam_not_running (iface w') = false /\
    steamworks_thread w' = steamworks_thread (init_world env_no_library []) /\
    trace w' = trace (init_world env_no_library []) ++ [EvSetStop false].
Proof.
  apply (C6_open_propagates_constructor_failure true None (Some "libs")
           (init_world env_no_library [])).
  reflexivity.
Defined.

(** ** Concrete environments *)

(** A platform on which every call returns; a script in which the polling
    thread pumps one notification and the clock then jumps by 40 s. *)
Definition env_quiet : Env := {| sdk_raises := fun _ _ => false; sdk_loaded0 := true;
     sdk_missing := fun _ => false; format_raises := fun _ _ => None;
     reading_short := fun _ _ => false |}.

Definition subscribed_payload (pfid : Z) : CallbackObj :=
  {| publishedFileId := Some pfid; result := Some 1; app_dependencies_list := None |}.

Definition script_stall : list Tick :=
  [ {| jitter := 0; load_done := false;
       quanta := [[]; [(ItemSubscribed, [subscribed_payload 7])]]; preempted := None |};
    {| jitter := 0; load_done := false; quanta := []; preempted := None |};
    {| jitter := 40000; load_done := false; quanta := []; preempted := None |} ].

Definition handler_7 : SteamworksSubscriptionHandler :=
  {| action := "resubscribe"; pfid_or_pfids := [7]; handler_libs := None |}.

(** ** Platform unavailable *)

(** C5. When the session reports [steam_not_running] after it is opened,
    the whole run issues no subscribe, unsubscribe or download call. *)
Theorem C5_unavailable_platform_issues_no_item_call :
  forall (self : SteamworksSubscriptionHandler) (e : Env) (s : list Tick),
    steam_not_running
      (iface (snd (SteamworksInterface_init true None (handler_libs self)
                     (init_world e s)))) = true ->
    item_calls (trace (snd (SubscriptionHandler_run self (init_world e s)))) = [].
Proof.
  intros self e s.
  destruct (sdk_missing e (handler_libs self)) eqn:Em.
  { rewrite (interface_init_missing true None _ (init_world e s) Em). discriminate. }
  unfold SubscriptionHandler_run.
  rewrite (bind_Ret _ _ _ _ _ (interface_init_opened true None _ (init_world e s) Em)).
  rewrite (interface_init_opened true None _ (init_world e s) Em).
  cbn [snd iface opened steam_not_running].
  intros Hf. unfold bind at 1. cbn [get iface opened steam_not_running].
  rewrite Hf. unfold bind, log, modify, sdk_call. cbn.
  destruct (sdk_raises e _ Unload); cbn; rewrite Hf; reflexivity.
Qed.

Definition env_no_steam : Env :=
  {| sdk_raises := fun _ c => match c with Initialize => true | _ => false end;
     sdk_loaded0 := false;
     sdk_missing := fun _ => false; format_raises := fun _ _ => None;
     reading_short := fun _ _ => false |}.

Lemma C5_unavailable_platform_issues_no_item_call_witness :
  item_calls (trace (snd (SubscriptionHandler_run handler_7 (init_world env_no_steam [])))) = [].
Proof.
  apply (C5_unavailable_platform_issues_no_item_call handler_7 env_no_steam []).
  vm_compute. reflexivity.
Defined.

(** ** Callback handlers and malformed payloads *)

(** The closures of the subscription handler never raise: whatever the
    payload, [_create_callback] counts and logs, and
    [_create_download_callback] logs. *)
Lemma create_callback_never_raises operation args w :
  exists w', _create_callback operation args w = (Ret tt, w') /\
             callbacks_count (iface w') = callbacks_count (iface w) + 1 /\
             end_callbacks (iface w') = end_callbacks (iface w) /\
             trace w' = trace w.
Proof.
  unfold _create_callback, try_except, bind, modify_iface, modify, log.
  destruct args as [|a rest]; cbn; [eauto|].
  destruct (publishedFileId a); cbn; eauto.
Qed.

Lemma create_download_callback_never_raises args w :
  exists w', _create_download_callback args w = (Ret tt, w') /\
             iface w' = iface w /\ trace w' = trace w.
Proof.
  unfold _create_download_callback, try_except, bind, first_arg, attr, log, modify, ret, raise.
  destruct args as [|a rest]; cbn; [eauto|].
  destruct (result a) as [r|]; cbn; [|eauto].
  destruct (publishedFileId a) as [p|]; cbn; [|eauto].
  destruct (r =? 1); cbn; eauto.
Qed.

(** A payload without the [result] attribute. *)
Definition payload_without_result : CallbackObj :=
  {| publishedFileId := Some 10; result := None; app_dependencies_list := Some [294100] |}.

(** C9, at the failing inputs.  The dependency-result handler has no guard:
    called without arguments it raises [IndexError], and on an object
    without [result] it raises [AttributeError], after having counted the
    callback. *)
Theorem C9_dependency_handler_raises_on_malformed_payload :
  forall w : World,
    fst (_cb_app_dependencies_result_callback [] w) = Raise IndexError /\
    fst (_cb_app_dependencies_result_callback [payload_without_result] w)
      = Raise AttributeError /\
    callbacks_count
      (iface (snd (_cb_app_dependencies_result_callback [payload_without_result] w)))
      = callbacks_count (iface w) + 1.
Proof. intros w. repeat split. Qed.

(** ** Blocking calls return *)

Lemma background_Ret w : fst (background w) = Ret tt.
Proof. unfold background. destruct (script w); reflexivity. Qed.

Lemma sleep_unfold ms w :
  0 <= ms ->
  sleep ms w =
    (Ret tt, snd (background (with_clock (clock w + ms)
                                (with_trace (trace w ++ [EvSleep ms]) w)))).
Proof.
  intros Hms. unfold sleep. destruct (Z.ltb_spec ms 0) as [Hlt|_]; [lia|].
  unfold bind, emit, modify. cbn.
  rewrite (surjective_pairing (background _)), background_Ret. reflexivity.
Qed.

(** ** Resubscribe: the order of the stages *)

(** The background issues no item operation and no stage delay, and
    leaves the environment as it is. *)
Definition quiet_since (e : Env) (tr0 : list Event) (w : World) : Prop :=
  env w = e /\ exists d, trace w = tr0 ++ d /\ stage_view d = [].

Lemma quiet_since_frame e tr0 w w' :
  env w' = env w -> trace w' = trace w -> quiet_since e tr0 w -> quiet_since e tr0 w'.
Proof. intros He Ht [H1 H2]. unfold quiet_since. rewrite He, Ht. auto. Qed.

Lemma quiet_since_emit e tr0 w ev :
  is_stage_event ev = false ->
  quiet_since e tr0 w -> quiet_since e tr0 (with_trace (trace w ++ [ev]) w).
Proof.
  intros Hev [H1 [d [H2 H3]]]. split; [exact H1|]. exists (d ++ [ev]). cbn. split.
  - rewrite H2, app_assoc. reflexivity.
  - unfold stage_view in *. rewrite List.filter_app, H3. cbn. rewrite Hev. reflexivity.
Qed.

Lemma quiet_since_log e tr0 l : preserves (quiet_since e tr0) (log l).
Proof. intros w H. eapply quiet_since_frame; [| |exact H]; reflexivity. Qed.

Lemma quiet_since_modify_iface e tr0 f : preserves (quiet_since e tr0) (modify_iface f).
Proof. intros w H. eapply quiet_since_frame; [| |exact H]; reflexivity. Qed.

Lemma quiet_since_assign e tr0 b : preserves (quiet_since e tr0) (assign_end_callbacks b).
Proof.
  unfold assign_end_callbacks. apply preserves_bind; [|intros _; apply quiet_since_modify_iface].
  apply preserves_modify. intros w H. apply quiet_since_emit; auto.
Qed.

Lemma quiet_since_background e tr0 : background_ok (quiet_since e tr0) (fun _ => True).
Proof.
  split.
  - intros w n H. eapply quiet_since_frame; [| |exact H]; reflexivity.
  - intros w c _ H. eapply quiet_since_frame; [| |exact H]; reflexivity.
  - intros w b H. eapply quiet_since_frame; [| |exact H]; reflexivity.
  - intros w t H _. eapply quiet_since_frame; [| |exact H]; reflexivity.
  - intros w tk rest H _. split.
    + eapply quiet_since_frame; [| |exact H]; reflexivity.
    + apply ok_tick_any. intros. hnf. intros. exact Logic.I.
  - intros w H. apply quiet_since_emit; auto.
  - apply pump_by_deliver; [intros w H; apply quiet_since_emit; auto|].
    intros d _. apply (deliver_preserves (quiet_since e tr0) (fun _ => True)).
    + intros l _. apply quiet_since_log.
    + apply quiet_since_modify_iface.
    + intros h w H. apply quiet_since_emit; auto.
    + intros pfid deps _. apply quiet_since_modify_iface.
    + apply quiet_since_assign.
    + intros a rest p _ _. exact I.
  - intros w0 q0 _ _. apply ok_pending_any. intros. hnf. intros. exact Logic.I.
Qed.

(** [yields m w view]: from [w], [m] returns, and the stage view of the
    events it adds is [view]. *)
Definition yields (m : M unit) (w : World) (view : list Event) : Prop :=
  exists w' d, m w = (Ret tt, w') /\ env w' = env w /\
               trace w' = trace w ++ d /\ stage_view d = view.

Lemma yields_ret w : yields (ret tt) w [].
Proof. exists w, []. rewrite app_nil_r. auto. Qed.

Lemma yields_bind m k w v1 v2 :
  yields m w v1 ->
  (forall w1, env w1 = env w -> yields k w1 v2) ->
  yields (m >> k) w (v1 ++ v2).
Proof.
  intros (w1 & d1 & Hm & He1 & Ht1 & Hv1) Hk.
  destruct (Hk w1 He1) as (w2 & d2 & Hk2 & He2 & Ht2 & Hv2).
  exists w2, (d1 ++ d2). split; [|split; [|split]].
  - rewrite (bind_Ret _ _ _ _ _ Hm). exact Hk2.
  - congruence.
  - rewrite Ht2, Ht1, app_assoc. reflexivity.
  - unfold stage_view in *. rewrite List.filter_app. congruence.
Qed.

Lemma yields_sleep ms w : 0 <= ms -> yields (sleep ms) w (stage_view [EvSleep ms]).
Proof.
  intros Hms. unfold yields. rewrite (sleep_unfold _ _ Hms).
  set (w1 := with_clock (clock w + ms) (with_trace (trace w ++ [EvSleep ms]) w)).
  assert (H1 : quiet_since (env w) (trace w ++ [EvSleep ms]) w1).
  { split; [reflexivity|]. exists []. rewrite app_nil_r. auto. }
  apply (background_preserves _ _ (quiet_since_background _ _)) in H1.
  destruct H1 as [He [d [Ht Hd]]].
  exists (snd (background w1)), ([EvSleep ms] ++ d). split; [reflexivity|].
  split; [exact He|]. split.
  - rewrite Ht, <- app_assoc. reflexivity.
  - unfold stage_view in *. rewrite List.filter_app, Hd, app_nil_r. reflexivity.
Qed.

Lemma yields_call c w :
  sdk_raises (env w) (length (trace w)) c = false ->
  yields (sdk_call c) w (stage_view [EvCall c]).
Proof.
  intros Hc. unfold yields, sdk_call. rewrite Hc.
  eexists _, [EvCall c]. split; [reflexivity|].
  repeat split; destruct c; reflexivity.
Qed.

(** The calls of the registration and of the first two stages. *)
Definition is_staging_call (c : SdkCall) : bool :=
  match c with
  | SetItemSubscribedCallback _ | SetItemUnsubscribedCallback _
  | SubscribeItem _ | UnsubscribeItem _ => true
  | _ => false
  end.

Definition resubscribe_sequence (ids : list Z) : list Event :=
  map (fun p => EvCall (UnsubscribeItem p)) ids ++ [EvSleep RESUBSCRIBE_STAGE_WAIT] ++
  map (fun p => EvCall (SubscribeItem p)) ids ++ [EvSleep RESUBSCRIBE_STAGE_WAIT] ++
  map (fun p => EvCall (DownloadItem p true cb_download true)) ids.

(** The text of the exception of a forced download that raises has no
    replacement field: the line that reports it can be formatted. *)
Definition download_errors_plain (e : Env) : Prop :=
  forall n p, sdk_raises e n (DownloadItem p true cb_download true) = true ->
              format_raises e (S n) SteamException = None.

Section Staging.
Context (e : Env).
Hypothesis staging_calls_return :
  forall n c, is_staging_call c = true -> sdk_raises e n c = false.
Hypothesis download_errors_logged : download_errors_plain e.

Lemma yields_queue operation call total :
  operation_map operation = Some call ->
  (forall p, is_staging_call (call p) = true) ->
  (forall p, is_stage_event (EvCall (call p)) = true) ->
  forall ids idx w, env w = e ->
    yields (for_enumerate idx ids (queue_one operation total)) w
           (map (fun p => EvCall (call p)) ids).
Proof.
  intros Hop Hcall Hev. induction ids as [|p ids IH]; intros idx w Hw; cbn [for_enumerate map].
  - apply yields_ret.
  - change (EvCall (call p) :: map (fun p0 => EvCall (call p0)) ids)
      with (([EvCall (call p)] ++ []) ++ map (fun p0 => EvCall (call p0)) ids).
    apply yields_bind; [|intros w1 Hw1; apply IH; congruence].
    unfold queue_one. rewrite Hop. apply yields_bind.
    + replace [EvCall (call p)] with (stage_view [EvCall (call p)])
        by (unfold stage_view; cbn [List.filter]; rewrite Hev; reflexivity).
      apply yields_call. rewrite Hw. apply staging_calls_return, Hcall.
    + intros w1 Hw1. destruct (_ <? _)%nat; [|apply yields_ret].
      apply (yields_sleep OPERATION_INTERVAL). unfold OPERATION_INTERVAL. lia.
Qed.

Lemma yields_register actions w :
  env w = e -> yields (_register_callbacks actions) w [].
Proof.
  intros Hw. unfold _register_callbacks.
  change (@nil Event) with (@nil Event ++ []). apply yields_bind.
  - destruct (existsb _ _); [|apply yields_ret].
    apply (yields_call (SetItemUnsubscribedCallback _)).
    rewrite Hw. apply staging_calls_return. reflexivity.
  - intros w1 Hw1. destruct (existsb _ _); [|apply yields_ret].
    apply (yields_call (SetItemSubscribedCallback _)).
    rewrite Hw1, Hw. apply staging_calls_return. reflexivity.
Qed.

Lemma yields_download_one p w :
  env w = e ->
  yields (download_one p) w [EvCall (DownloadItem p true cb_download true)].
Proof.
  intros Hw. unfold yields, download_one, try_except, sdk_call.
  destruct (sdk_raises _ _ _) eqn:Er; cbn.
  - rewrite Hw in Er. unfold log_exc_info. cbn. rewrite length_app, Nat.add_1_r, Hw.
    rewrite (download_errors_logged _ _ Er). cbn.
    eexists _, [EvCall (DownloadItem p true cb_download true)]; repeat split.
    cbn. exact Hw.
  - eexists _, [EvCall (DownloadItem p true cb_download true)]; repeat split.
Qed.

Lemma yields_downloads ids w :
  env w = e ->
  yields (for_each ids download_one) w
         (map (fun p => EvCall (DownloadItem p true cb_download true)) ids).
Proof.
  revert w. induction ids as [|p ids IH]; intros w Hw; cbn [for_each map].
  - apply yields_ret.
  - change (?x :: ?l) with ([x] ++ l). apply yields_bind; [apply yields_download_one, Hw|].
    intros w1 Hw1. apply IH. congruence.
Qed.

Lemma yields_resubscribe self w :
  env w = e ->
  yields (_handle_resubscribe self) w (resubscribe_sequence (pfid_or_pfids self)).
Proof.
  intros Hw. unfold _handle_resubscribe, resubscribe_sequence.
  change (map (fun p => EvCall (UnsubscribeItem p)) (pfid_or_pfids self) ++ ?rest)
    with ([] ++ map (fun p => EvCall (UnsubscribeItem p)) (pfid_or_pfids self) ++ rest).
  apply yields_bind; [apply yields_register, Hw|]. intros w1 Hw1.
  apply yields_bind.
  { apply (yields_queue "unsubscribe" UnsubscribeItem); auto. congruence. }
  intros w2 Hw2. apply yields_bind.
  { apply (yields_sleep RESUBSCRIBE_STAGE_WAIT). unfold RESUBSCRIBE_STAGE_WAIT. lia. }
  intros w3 Hw3. apply yields_bind.
  { apply (yields_queue "subscribe" SubscribeItem); auto. congruence. }
  intros w4 Hw4. apply yields_bind.
  { apply (yields_sleep RESUBSCRIBE_STAGE_WAIT). unfold RESUBSCRIBE_STAGE_WAIT. lia. }
  intros w5 Hw5. apply yields_downloads. congruence.
Qed.
End Staging.

(** C1, as amended.  When no registration, unsubscribe or subscribe call
    raises, and a download call that raises does so with a text that the
    line reporting it can be formatted with, [_handle_resubscribe] returns
    and the item operations and stage delays it issues are exactly: the
    unsubscribes in input order, a one second delay, the subscribes in
    input order, a one second delay, the forced downloads in input order
    (a download call that raises is logged and the next one is still
    issued).  Whatever the polling thread does in between adds no such
    event. *)
Theorem C1_resubscribe_stage_order :
  forall (self : SteamworksSubscriptionHandler) (w : World),
    (forall n c, is_staging_call c = true -> sdk_raises (env w) n c = false) ->
    download_errors_plain (env w) ->
    exists w' d,
      _handle_resubscribe self w = (Ret tt, w') /\
      trace w' = trace w ++ d /\
      stage_view d = resubscribe_sequence (pfid_or_pfids self).
Proof.
  intros self w H Hd.
  destruct (yields_resubscribe (env w) H Hd self w eq_refl) as (w' & d & H1 & _ & H2 & H3).
  exists w', d. auto.
Qed.

Definition handler_123 : SteamworksSubscriptionHandler :=
  {| action := "resubscribe"; pfid_or_pfids := [1; 2; 3]; handler_libs := None |}.

(** An SDK whose [DownloadItem(2, ...)] raises, with a plain text. *)
Definition env_download_2_fails : Env :=
  {| sdk_raises := fun _ c => match c with DownloadItem 2 _ _ _ => true | _ => false end;
     sdk_loaded0 := true;
     sdk_missing := fun _ => false; format_raises := fun _ _ => None;
     reading_short := fun _ _ => false |}.

Lemma C1_resubscribe_stage_order_witness :
  exists w' d,
    _handle_resubscribe handler_123 (init_world env_download_2_fails script_stall)
      = (Ret tt, w') /\
    trace w' = trace (init_world env_download_2_fails script_stall) ++ d /\
    stage_view d = resubscribe_sequence (pfid_or_pfids handler_123).
Proof.
  apply (C1_resubscribe_stage_order handler_123
           (init_world env_download_2_fails script_stall)).
  - intros n c Hc. destruct c; try discriminate Hc; reflexivity.
  - intros n p _. reflexivity.
Defined.

(** An SDK whose [UnsubscribeItem(2)] raises. *)
Definition env_unsubscribe_2_fails : Env :=
  {| sdk_raises := fun _ c => match c with UnsubscribeItem 2 => true | _ => false end;
     sdk_loaded0 := true;
     sdk_missing := fun _ => false; format_raises := fun _ _ => None;
     reading_short := fun _ _ => false |}.

(** An SDK whose [DownloadItem(1, ...)] raises with a text that holds a
    replacement field, such as [{item}]: formatting the line that reports
    it raises [KeyError]. *)
Definition env_download_1_braces : Env :=
  {| sdk_raises := fun _ c => match c with DownloadItem 1 _ _ _ => true | _ => false end;
     sdk_loaded0 := true;
     sdk_missing := fun _ => false;
     format_raises := fun _ x => match x with SteamException => Some KeyError | _ => None end;
     reading_short := fun _ _ => false |}.

(** C1 as stated fails in two ways.  When a call of the first stages
    raises, the exception leaves [_queue_operations] and the rest of the
    sequence is never issued.  When a download call raises with a text
    that holds a replacement field, the [except] clause of the download
    loop raises in its turn, while it formats the line it logs, and the
    remaining downloads are never issued. *)
Lemma C1_counterexample :
  let w1 := snd (SubscriptionHandler_run handler_123
                   (init_world env_unsubscribe_2_fails [])) in
  let r2 := _handle_resubscribe handler_123 (init_world env_download_1_braces []) in
  (stage_view (trace w1) = [EvCall (UnsubscribeItem 1); EvCall (UnsubscribeItem 2)] /\
   stage_view (trace w1) <> resubscribe_sequence (pfid_or_pfids handler_123) /\
   In (LogRunError SteamException) (logs w1)) /\
  (fst r2 = Raise KeyError /\
   item_calls (trace (snd r2)) =
     [EvCall (UnsubscribeItem 1); EvCall (UnsubscribeItem 2); EvCall (UnsubscribeItem 3);
      EvCall (SubscribeItem 1); EvCall (SubscribeItem 2); EvCall (SubscribeItem 3);
      EvCall (DownloadItem 1 true cb_download true)] /\
   stage_view (trace (snd r2)) <> resubscribe_sequence (pfid_or_pfids handler_123) /\
   logs (snd r2) = []).
Proof. vm_compute. repeat split; try discriminate; auto. Qed.


(** ** The completion waiter *)

(** What the waiter needs and relies on: the session has a stop flag and
    a thread, and the clock has reached [c]. *)
Definition wait_inv (c : Z) (w : World) : Prop :=
  c <= clock w /\ end_callbacks (iface w) <> None /\ steamworks_thread w <> NoThread.

Lemma wait_inv_frame c w w' :
  clock w <= clock w' ->
  (end_callbacks (iface w') = end_callbacks (iface w) \/
   exists b, end_callbacks (iface w') = Some b) ->
  (steamworks_thread w' = steamworks_thread w \/ steamworks_thread w' <> NoThread) ->
  wait_inv c w -> wait_inv c w'.
Proof.
  intros Hc Hf Ht (H1 & H2 & H3). split; [lia|]. split.
  - destruct Hf as [->|[b ->]]; [exact H2 | discriminate].
  - destruct Ht as [->|Ht]; auto.
Qed.

Lemma wait_inv_background c : background_ok (wait_inv c) (ok_payload (fun _ => True)).
Proof.
  split.
  - intros w n H. eapply wait_inv_frame; [| | |exact H]; cbn; auto; lia.
  - intros w d Hd H. eapply wait_inv_frame; [| | |exact H]; cbn; auto; lia.
  - intros w b H. eapply wait_inv_frame; [| | |exact H]; cbn; auto; lia.
  - intros w t H [Ht _]. eapply wait_inv_frame; [| | |exact H]; cbn; auto; lia.
  - intros w tk rest H _. split.
    + eapply wait_inv_frame; [| | |exact H]; cbn; auto; lia.
    + apply ok_tick_any. intros. hnf. intros. exact Logic.I.
  - intros w H. eapply wait_inv_frame; [| | |exact H]; cbn; auto; lia.
  - apply pump_by_deliver;
      [intros w H; eapply wait_inv_frame; [| | |exact H]; cbn; auto; lia|].
    apply deliver_preserves.
    + intros l _ w H. eapply wait_inv_frame; [| | |exact H]; cbn; auto; lia.
    + intros w H. eapply wait_inv_frame; [| | |exact H]; cbn; auto; lia.
    + intros h w H. eapply wait_inv_frame; [| | |exact H]; cbn; auto; lia.
    + intros pfid deps _ w H. eapply wait_inv_frame; [| | |exact H]; cbn; auto; lia.
    + intros w H. eapply wait_inv_frame; [| | |exact H]; cbn; eauto; lia.
  - intros w0 q0 _ _. apply ok_pending_any. intros. hnf. intros. exact Logic.I.
Qed.

(** The world after one, and after [k], of the waiter's 100 ms sleeps. *)
Definition after_sleep (w : World) : World := snd (sleep OPERATION_INTERVAL w).

Fixpoint after_sleeps (k : nat) (w : World) : World :=
  match k with
  | O => w
  | S k' => after_sleeps k' (after_sleep w)
  end.

(** The test of the waiter's loop fails: the stop flag is set, or the
    polling thread is not alive. *)
Definition stopped_or_dead (w : World) : bool :=
  match end_callbacks (iface w) with
  | Some true => true
  | _ => negb (is_alive (steamworks_thread w))
  end.

(** The waiter's reading of the elapsed time has reached the timeout. *)
Definition timed_out (timeout start_time : Z) (w : World) : bool :=
  reached (env w) timeout start_time (clock w).

Lemma reached_elapsed e timeout start t :
  reached e timeout start t = true -> seconds timeout <= t - start.
Proof.
  unfold reached. destruct (Z.eqb_spec (t - start) (seconds timeout)); [lia|].
  intros H. apply Z.ltb_lt in H. lia.
Qed.

Lemma not_reached_elapsed e timeout start t :
  reached e timeout start t = false -> t - start <= seconds timeout.
Proof.
  unfold reached. destruct (Z.eqb_spec (t - start) (seconds timeout)); [lia|].
  intros H. apply Z.ltb_ge in H. lia.
Qed.

(** What the waiter does when its timeout fires. *)
Definition force_stop (timeout : Z) (w : World) : World :=
  snd ((log (LogCallbackTimeout timeout) >> assign_end_callbacks true) w).

Lemma after_sleep_inv c w :
  wait_inv c w -> wait_inv (clock w + OPERATION_INTERVAL) (after_sleep w).
Proof.
  intros (H1 & H2 & H3). unfold after_sleep.
  rewrite sleep_unfold by (unfold OPERATION_INTERVAL; lia). cbn [snd].
  apply (background_preserves _ _ (wait_inv_background _)).
  split; [cbn; lia|]. split; assumption.
Qed.

Lemma sleep_after_sleep w :
  sleep OPERATION_INTERVAL w = (Ret tt, after_sleep w).
Proof.
  unfold after_sleep. rewrite sleep_unfold by (unfold OPERATION_INTERVAL; lia). reflexivity.
Qed.

(** One turn of the waiter's loop. *)
Lemma wait_loop_step fuel timeout start w :
  end_callbacks (iface w) <> None -> steamworks_thread w <> NoThread ->
  wait_loop (S fuel) timeout start w =
    if stopped_or_dead w then (Ret true, w)
    else if timed_out timeout start w then (Ret false, force_stop timeout w)
    else wait_loop fuel timeout start (after_sleep w).
Proof.
  intros Hf Ht. unfold stopped_or_dead, timed_out, force_stop. cbn [wait_loop].
  unfold thread_is_alive, time, get, attr, bind, ret, raise.
  destruct (end_callbacks (iface w)) as [[|]|]; [reflexivity| |congruence].
  destruct (steamworks_thread w); try congruence; cbn [is_alive negb]; try reflexivity;
    destruct (reached (env w) timeout start (clock w)); try reflexivity;
    rewrite sleep_after_sleep; reflexivity.
Qed.

(** The loop stops at the first test at which the flag is set, the thread
    is dead, or the elapsed time has reached the timeout; it answers
    [true] in the first two cases. *)
Lemma wait_loop_spec fuel : forall timeout start w,
  wait_inv (clock w) w ->
  seconds timeout < clock w - start + OPERATION_INTERVAL * Z.of_nat fuel ->
  exists k,
    (forall j, (j < k)%nat ->
       stopped_or_dead (after_sleeps j w) = false /\
       timed_out timeout start (after_sleeps j w) = false) /\
    ((stopped_or_dead (after_sleeps k w) = true /\
      wait_loop (S fuel) timeout start w = (Ret true, after_sleeps k w)) \/
     (stopped_or_dead (after_sleeps k w) = false /\
      timed_out timeout start (after_sleeps k w) = true /\
      wait_loop (S fuel) timeout start w = (Ret false, force_stop timeout (after_sleeps k w)))).
Proof.
  induction fuel as [|fuel IH]; intros timeout start w Hinv Hfuel;
    pose proof Hinv as (_ & Hf & Ht);
    rewrite (wait_loop_step _ _ _ _ Hf Ht);
    destruct (stopped_or_dead w) eqn:Esd;
    try (exists O; split; [intros j Hj; lia|]; left; cbn [after_sleeps]; auto; fail);
    destruct (timed_out timeout start w) eqn:Eto;
    try (exists O; split; [intros j Hj; lia|]; right; cbn [after_sleeps]; auto; fail).
  - exfalso. apply not_reached_elapsed in Eto. lia.
  - pose proof (after_sleep_inv _ _ Hinv) as Hinv1.
    assert (Hc : clock w + OPERATION_INTERVAL <= clock (after_sleep w)) by apply Hinv1.
    destruct (IH timeout start (after_sleep w)) as (k & Hk & Hres).
    { destruct Hinv1 as (_ & Hf1 & Ht1). split; [lia|]. split; assumption. }
    { unfold OPERATION_INTERVAL in *. lia. }
    exists (S k). split.
    + intros [|j] Hj; cbn [after_sleeps]; [auto|]. apply Hk. lia.
    + cbn [after_sleeps]. exact Hres.
Qed.

Lemma after_sleeps_inv k : forall w,
  wait_inv (clock w) w -> wait_inv (clock w) (after_sleeps k w).
Proof.
  induction k as [|k IH]; intros w H; cbn [after_sleeps]; [exact H|].
  pose proof (after_sleep_inv _ _ H) as H1.
  assert (H2 : wait_inv (clock (after_sleep w)) (after_sleep w)).
  { destruct H1 as (_ & Hf & Ht). split; [lia|]. split; assumption. }
  destruct (IH _ H2) as (Hc & Hf & Ht). destruct H1 as (Hc1 & _).
  split; [|split; assumption]. unfold OPERATION_INTERVAL in *. lia.
Qed.

(** Once the loop test fails, a call of the waiter returns [True] at once
    and changes nothing. *)
Lemma wait_for_callbacks_idle timeout w :
  end_callbacks (iface w) <> None -> steamworks_thread w <> NoThread ->
  stopped_or_dead w = true ->
  _wait_for_callbacks timeout w = (Ret true, w).
Proof.
  intros Hf Ht Hsd. unfold _wait_for_callbacks, time, wait_fuel.
  rewrite (bind_Ret _ _ w (clock w) w) by reflexivity.
  rewrite (wait_loop_step _ _ _ _ Hf Ht), Hsd. reflexivity.
Qed.

(** C2, as amended.  On a session that has a stop flag and a polling
    thread, [_wait_for_callbacks] returns.  It returns [True] exactly when,
    at one of its loop tests, the stop flag is set or the polling thread
    is no longer alive, no earlier reading of the elapsed time having
    reached the timeout.  Otherwise it returns [False] after setting the
    stop flag itself.  After either outcome the loop test fails (flag set
    or thread dead), and any further call returns [True] at once and
    leaves the world as it is. *)
Theorem C2_wait_for_callbacks_outcome :
  forall (timeout : Z) (w : World),
    end_callbacks (iface w) <> None ->
    steamworks_thread w <> NoThread ->
    exists (b : bool) (w' : World),
      _wait_for_callbacks timeout w = (Ret b, w') /\
      (b = true <->
       exists k, stopped_or_dead (after_sleeps k w) = true /\
                 forall j, (j < k)%nat ->
                   timed_out timeout (clock w) (after_sleeps j w) = false) /\
      (b = false ->
       end_callbacks (iface w') = Some true /\
       exists tr, trace w' = tr ++ [EvSetStop true]) /\
      stopped_or_dead w' = true /\
      (forall timeout', _wait_for_callbacks timeout' w' = (Ret true, w')).
Proof.
  intros timeout w Hf Ht.
  assert (Hinv : wait_inv (clock w) w) by (split; [lia|split; assumption]).
  destruct (wait_loop_spec (S (Z.to_nat (timeout * 10))) timeout (clock w) w Hinv)
    as (k & Hk & Hres).
  { unfold seconds, OPERATION_INTERVAL. lia. }
  pose proof (after_sleeps_inv k w Hinv) as (_ & Hfk & Htk).
  assert (Hrun : forall b w', wait_loop (wait_fuel timeout) timeout (clock w) w = (Ret b, w') ->
                 _wait_for_callbacks timeout w = (Ret b, w')).
  { intros b w' H. unfold _wait_for_callbacks, time.
    rewrite (bind_Ret _ _ w (clock w) w) by reflexivity. exact H. }
  destruct Hres as [[Hsd Hloop]|(Hsd & Hto & Hloop)].
  - exists true, (after_sleeps k w). split; [apply Hrun, Hloop|].
    split; [|split; [|split]].
    + split; [|reflexivity]. intros _. exists k. split; [exact Hsd|].
      intros j Hj. apply Hk, Hj.
    + discriminate.
    + exact Hsd.
    + intros t'. apply wait_for_callbacks_idle; assumption.
  - exists false, (force_stop timeout (after_sleeps k w)). split; [apply Hrun, Hloop|].
    split; [|split; [|split]].
    + split; [discriminate|]. intros (k' & Hsd' & Hto'). exfalso.
      destruct (Nat.lt_trichotomy k' k) as [Hlt|[->|Hgt]].
      * destruct (Hk k' Hlt) as [H1 _]. congruence.
      * congruence.
      * specialize (Hto' k Hgt). congruence.
    + intros _. split; [reflexivity|]. eexists. reflexivity.
    + reflexivity.
    + intros t'. apply wait_for_callbacks_idle; [discriminate | exact Htk | reflexivity].
Qed.

(** A session opened with callbacks on a running platform. *)
Definition session_open : World := opened true None (init_world env_quiet script_stall).

Lemma C2_wait_for_callbacks_outcome_witness :
  exists (b : bool) (w' : World),
    _wait_for_callbacks 30 session_open = (Ret b, w') /\
    (b = true <->
     exists k, stopped_or_dead (after_sleeps k session_open) = true /\
               forall j, (j < k)%nat ->
                 timed_out 30 (clock session_open) (after_sleeps j session_open) = false) /\
    (b = false ->
     end_callbacks (iface w') = Some true /\
     exists tr, trace w' = tr ++ [EvSetStop true]) /\
    stopped_or_dead w' = true /\
    (forall timeout', _wait_for_callbacks timeout' w' = (Ret true, w')).
Proof.
  apply (C2_wait_for_callbacks_outcome 30 session_open); vm_compute; discriminate.
Defined.

(** An SDK whose [run_callbacks()] raises: the polling thread ends on its
    first pump, and the stop flag is still unset. *)
Definition env_pump_fails : Env :=
  {| sdk_raises := fun _ c => match c with RunCallbacks => true | _ => false end;
     sdk_loaded0 := true;
     sdk_missing := fun _ => false; format_raises := fun _ _ => None;
     reading_short := fun _ _ => false |}.

Definition script_two_turns : list Tick :=
  [ {| jitter := 0; load_done := false; quanta := [[]; []]; preempted := None |} ].

Definition session_thread_dead : World :=
  snd ((SteamworksInterface_init true None None >> sleep OPERATION_INTERVAL)
         (init_world env_pump_fails script_two_turns)).

(** C2 as stated fails: the waiter returns [True] although the stop flag
    is not set, neither before nor after the call, because the polling
    thread is dead. *)
Lemma C2_counterexample :
  steamworks_thread session_thread_dead = Crashed /\
  end_callbacks (iface session_thread_dead) = Some false /\
  _wait_for_callbacks 30 session_thread_dead = (Ret true, session_thread_dead) /\
  end_callbacks (iface (snd (_wait_for_callbacks 30 session_thread_dead))) <> Some true.
Proof. vm_compute. repeat split. discriminate. Qed.

(** ** Load timeout *)

Definition is_teardown (e : Event) : bool :=
  match e with
  | EvCall Unload | EvJoin _ => true
  | _ => false
  end.

(** The SDK is initialized but not loaded, and the script never loads it;
    so far no item operation and no teardown has been issued, and the
    polling thread waits in its first loop. *)
Definition loading (w : World) : Prop :=
  loaded_flag w = false /\ steamworks_thread w = WaitingForLoad /\
  item_calls (trace w) = [] /\ List.filter is_teardown (trace w) = [] /\
  Forall (fun tk => load_done tk = false) (script w).

Lemma loading_emit w ev :
  is_item_call ev = false -> is_teardown ev = false ->
  loading w -> loading (with_trace (trace w ++ [ev]) w).
Proof.
  intros H1 H2 (L1 & L2 & L3 & L4 & L5). repeat split; try assumption; cbn.
  - unfold item_calls in *. rewrite List.filter_app, L3. cbn. rewrite H1. reflexivity.
  - rewrite List.filter_app, L4. cbn. rewrite H2. reflexivity.
Qed.

Lemma loading_turn pending w :
  loading w -> loading (_callbacks_turn pending w).
Proof.
  intros H. pose proof H as (L1 & L2 & _). unfold _callbacks_turn. rewrite L2.
  unfold loaded, emit, modify, get, bind. cbn. rewrite L1.
  apply loading_emit; auto.
Qed.

Lemma loading_background w : loading w -> loading (snd (background w)).
Proof.
  intros H. unfold background. destruct (script w) as [|tk rest] eqn:Es; [exact H|].
  cbn [snd]. destruct H as (L1 & L2 & L3 & L4 & L5). rewrite Es in L5.
  inversion L5 as [|? ? Htk Hrest]; subst.
  assert (H1 : loading (with_script rest
                 (with_clock (clock w + Z.of_N (jitter tk))
                    (with_loaded (loaded_flag w || load_done tk) w)))).
  { repeat split; try assumption. cbn. rewrite L1, Htk. reflexivity. }
  assert (H2 : forall w2, loading w2 ->
            loading match preempted tk with
                    | Some pending => _callbacks_suspend pending w2
                    | None => w2
                    end).
  { intros w2 H2. destruct (preempted tk); [|exact H2].
    unfold _callbacks_suspend. destruct H2 as (A1 & A2 & A3). rewrite A2.
    split; [exact A1|]. split; [exact A2 | exact A3]. }
  apply H2. revert H1. generalize (with_script rest
                 (with_clock (clock w + Z.of_N (jitter tk))
                    (with_loaded (loaded_flag w || load_done tk) w))).
  induction (quanta tk) as [|q qs IH]; intros w1 H1; cbn [fold_left]; [exact H1|].
  apply IH, loading_turn, H1.
Qed.

Lemma loading_after_sleep w : loading w -> loading (after_sleep w).
Proof.
  intros H. unfold after_sleep.
  rewrite sleep_unfold by (unfold OPERATION_INTERVAL; lia). cbn [snd].
  apply loading_background.
  destruct (loading_emit w (EvSleep OPERATION_INTERVAL) eq_refl eq_refl H)
    as (L1 & L2 & L3 & L4 & L5).
  repeat split; assumption.
Qed.

(** One turn of the loop of [run] while the SDK is not loaded. *)
Lemma wait_loaded_step fuel start w :
  loaded_flag w = false ->
  wait_loaded (S fuel) start w =
    let w1 := with_trace (trace w ++ [EvCall Loaded]) w in
    if seconds STEAMWORKS_TIMEOUT <? clock w - start
    then (Ret false, with_logs (logs w1 ++ [LogLoadTimeout]) w1)
    else wait_loaded fuel start (after_sleep w1).
Proof.
  intros L1. cbn [wait_loaded]. unfold loaded, emit, modify, get, time.
  unfold bind at 1 2 3. cbn. rewrite L1. unfold bind at 1. cbn.
  destruct (seconds STEAMWORKS_TIMEOUT <? clock w - start); [reflexivity|].
  rewrite (bind_Ret _ _ _ _ _ (sleep_after_sleep _)). reflexivity.
Qed.

(** While the SDK does not load, the loop of [run] gives up: it returns
    [false] once more than 30 s have elapsed. *)
Lemma wait_loaded_times_out fuel : forall start w,
  loading w -> wait_inv (clock w) w ->
  seconds STEAMWORKS_TIMEOUT < clock w - start + OPERATION_INTERVAL * Z.of_nat fuel ->
  exists w', wait_loaded (S fuel) start w = (Ret false, w') /\
             loading w' /\ In LogLoadTimeout (logs w').
Proof.
  induction fuel as [|fuel IH]; intros start w Hl Hinv Hfuel;
    pose proof Hl as (L1 & _);
    rewrite (wait_loaded_step _ _ _ L1); cbv zeta;
    pose proof (loading_emit w (EvCall Loaded) eq_refl eq_refl Hl) as Hl1;
    destruct (Z.ltb_spec (seconds STEAMWORKS_TIMEOUT) (clock w - start)) as [Hto|Hto];
    try (eexists; split; [reflexivity|]; split;
         [destruct Hl1 as (A1 & A2 & A3 & A4 & A5); repeat split; assumption
         |cbn; apply in_or_app; right; left; reflexivity]).
  - exfalso. unfold OPERATION_INTERVAL in *. lia.
  - set (w1 := with_trace (trace w ++ [EvCall Loaded]) w) in *.
    assert (Hinv1 : wait_inv (clock w1) w1).
    { destruct Hinv as (_ & Hf & Ht). split; [lia|]. split; assumption. }
    pose proof (after_sleep_inv _ _ Hinv1) as (Hc & Hf & Ht).
    apply IH.
    + apply loading_after_sleep, Hl1.
    + split; [lia|]. split; assumption.
    + change (clock w1) with (clock w) in Hc. unfold OPERATION_INTERVAL in *. lia.
Qed.

(** C7.  The claim fails on the code whenever the SDK object is built,
    the SDK initializes and then never reports loaded: [run] returns from
    inside the waiting loop, before its [try ... finally]; no stage was
    issued, but the SDK is not unloaded and the polling thread, still
    alive, is not joined. *)
Theorem C7_load_timeout_returns_without_teardown :
  forall (self : SteamworksSubscriptionHandler) (e : Env) (s : list Tick),
    sdk_missing e (handler_libs self) = false ->
    steam_not_running
      (iface (snd (SteamworksInterface_init true None (handler_libs self)
                     (init_world e s)))) = false ->
    sdk_loaded0 e = false ->
    Forall (fun tk => load_done tk = false) s ->
    exists w',
      SubscriptionHandler_run self (init_world e s) = (Ret tt, w') /\
      In LogLoadTimeout (logs w') /\
      item_calls (trace w') = [] /\
      List.filter is_teardown (trace w') = [] /\
      steamworks_thread w' = WaitingForLoad.
Proof.
  intros self e s Hm Hinit Hl0 Hs. unfold SubscriptionHandler_run.
  rewrite (interface_init_opened true None _ (init_world e s) Hm) in Hinit.
  cbn [snd iface opened steam_not_running] in Hinit.
  rewrite (bind_Ret _ _ _ _ _ (interface_init_opened true None _ (init_world e s) Hm)).
  set (w0 := opened true None (init_world e s)).
  assert (Hf : init_failed true (init_world e s) = false) by exact Hinit.
  assert (H0 : loading w0).
  { unfold w0, opened. rewrite Hf. repeat split; cbn; auto. }
  assert (Hinv : wait_inv (clock w0) w0).
  { unfold w0, opened. rewrite Hf. split; [lia|]. split; cbn; discriminate. }
  destruct (wait_loaded_times_out 301 (clock w0) w0 H0 Hinv) as (w' & Hw & Hl' & Hlog).
  { unfold seconds, STEAMWORKS_TIMEOUT, OPERATION_INTERVAL. lia. }
  exists w'. split.
  - unfold bind at 1. cbn [get]. change (steam_not_running (iface w0)) with
      (init_failed true (init_world e s)). rewrite Hf.
    unfold time. unfold bind at 1. cbn [get].
    change load_fuel with (S 301). rewrite (bind_Ret _ _ _ _ _ Hw). reflexivity.
  - split; [exact Hlog|]. destruct Hl' as (_ & L2 & L3 & L4 & _). auto.
Qed.

Definition env_never_loaded : Env :=
  {| sdk_raises := fun _ _ => false; sdk_loaded0 := false;
     sdk_missing := fun _ => false; format_raises := fun _ _ => None;
     reading_short := fun _ _ => false |}.

Lemma C7_load_timeout_returns_without_teardown_witness :
  exists w',
    SubscriptionHandler_run handler_7 (init_world env_never_loaded []) = (Ret tt, w') /\
    In LogLoadTimeout (logs w') /\
    item_calls (trace w') = [] /\
    List.filter is_teardown (trace w') = [] /\
    steamworks_thread w' = WaitingForLoad.
Proof.
  apply (C7_load_timeout_returns_without_teardown handler_7 env_never_loaded []).
  - reflexivity.
  - reflexivity.
  - reflexivity.
  - constructor.
Defined.

(** ** Completion in the subscription orchestrator *)

Definition transforms {A} (I J : World -> Prop) (m : M A) : Prop :=
  forall w, I w -> J (snd (m w)).

Lemma transforms_bind {A B} (I J K : World -> Prop) (m : M A) (f : A -> M B) :
  transforms I J m -> (forall w, J w -> K w) -> (forall a, transforms J K (f a)) ->
  transforms I K (bind m f).
Proof.
  intros Hm HJK Hf w H. unfold bind. specialize (Hm w H).
  destruct (m w) as [[a|e| |] w1]; cbn in *; auto. apply Hf, Hm.
Qed.

Lemma transforms_try_except {A} (I J : World -> Prop) (body : M A) catches handler :
  transforms I J body -> (forall e, preserves J (handler e)) ->
  transforms I J (try_except body catches handler).
Proof.
  intros Hb Hh w H. unfold try_except. specialize (Hb w H).
  destruct (body w) as [[a|e| |] w1]; cbn in *; auto.
  destruct (catches e); cbn; auto. apply Hh, Hb.
Qed.

Lemma transforms_try_finally {A} (I J : World -> Prop) (body : M A) final :
  transforms I J body -> preserves J final ->
  transforms I J (try_finally body final).
Proof.
  intros Hb Hf w H. unfold try_finally. specialize (Hb w H).
  destruct (body w) as [[a|e| |] w1]; cbn in *; auto.
  - apply preserves_bind; auto. intros _. apply preserves_ret.
  - apply preserves_bind; auto. intros _. apply preserves_raise.
Qed.

(** Only the orchestrator's own handlers are registered. *)
Definition registry_ok (r : Registry) : Prop :=
  forall ch h, registered ch r = Some h -> orchestrator_handler h = true.

Lemma registry_ok_register ch h r :
  orchestrator_handler h = true -> registry_ok r -> registry_ok (register ch h r).
Proof.
  intros Hh Hr ch' h' H. destruct ch, ch'; cbn in H;
    try (injection H as <-; exact Hh);
    first [apply (Hr ItemSubscribed), H | apply (Hr ItemUnsubscribed), H
          | apply (Hr AppDependenciesResult), H | apply (Hr DownloadItemResult), H].
Qed.

(** The run has not reported completion. *)
Definition no_completed (w : World) : Prop := ~ In LogCompleted (logs w).

(** The stop flag has never been set, and nothing registered can set it. *)
Definition unstopped (w : World) : Prop :=
  registry_ok (registry w) /\ steamworks_thread w <> NoThread /\
  end_callbacks (iface w) = Some false /\
  ~ In (EvSetStop true) (trace w) /\ no_completed w.

Lemma not_in_snoc {A} (x y : A) l : ~ In x l -> y <> x -> ~ In x (l ++ [y]).
Proof. intros H1 H2 H. apply in_app_or in H as [H|[H|[]]]; auto. Qed.

Lemma no_completed_frame w w' :
  (logs w' = logs w \/ exists l, l <> LogCompleted /\ logs w' = logs w ++ [l]) ->
  no_completed w -> no_completed w'.
Proof.
  unfold no_completed. intros [->|(l & Hl & ->)] H; [exact H|].
  apply not_in_snoc; auto.
Qed.

Lemma unstopped_frame w w' :
  registry w' = registry w ->
  steamworks_thread w' <> NoThread ->
  end_callbacks (iface w') = end_callbacks (iface w) ->
  (trace w' = trace w \/ exists e, e <> EvSetStop true /\ trace w' = trace w ++ [e]) ->
  (logs w' = logs w \/ exists l, l <> LogCompleted /\ logs w' = logs w ++ [l]) ->
  unstopped w -> unstopped w'.
Proof.
  intros Hr Ht Hf Htr Hl (H1 & H2 & H3 & H4 & H5).
  split; [rewrite Hr; exact H1|]. split; [exact Ht|]. split; [congruence|].
  split; [|eapply no_completed_frame; eauto].
  destruct Htr as [->|(e & He & ->)]; [exact H4|]. apply not_in_snoc; auto.
Qed.

Ltac frame_by L H :=
  eapply L; [..|exact H]; cbn; eauto;
  try (right; eexists; split; [|reflexivity]; discriminate).

Lemma unstopped_background : background_ok unstopped (fun _ => True).
Proof.
  split.
  - intros w n H. assert (Hl : LogThreadEnd n <> LogCompleted) by discriminate. eapply unstopped_frame; [..|exact H]; cbn; eauto. apply H.
  - intros w d _ H. frame_by unstopped_frame H. apply H.
  - intros w b H. frame_by unstopped_frame H. apply H.
  - intros w t H [Ht _]. frame_by unstopped_frame H.
  - intros w tk rest H _. split.
    + frame_by unstopped_frame H. apply H.
    + apply ok_tick_any. intros. hnf. intros. exact Logic.I.
  - intros w H. frame_by unstopped_frame H. apply H.
  - apply pump_by_deliver; [intros w H; frame_by unstopped_frame H; apply H|].
    intros d _. unfold deliver.
    apply (preserves_bind_val unstopped registry_ok); [apply preserves_get| |].
    { intros w r H Hr. cbn in Hr. injection Hr as <-. apply H. }
    intros r Hr. destruct (registered d.1 r) as [h|] eqn:Eh; [|apply preserves_ret].
    apply preserves_bind.
    { apply preserves_modify. intros w H. frame_by unstopped_frame H. apply H. }
    intros _. apply invoke_orchestrator_preserves; [| |exact (Hr _ _ Eh)].
    + intros l Hl w H. eapply unstopped_frame; [..|exact H]; cbn; eauto. apply H.
    + intros w H. frame_by unstopped_frame H. apply H.
  - intros w0 q0 _ _. apply ok_pending_any. intros. hnf. intros. exact Logic.I.
Qed.

Lemma unstopped_block w e :
  ((exists ms, e = EvSleep ms) \/ exists t, e = EvJoin t) ->
  unstopped w -> unstopped (with_trace (trace w ++ [e]) w).
Proof.
  intros He H. eapply unstopped_frame; [..|exact H]; cbn; eauto; [apply H|].
  right. exists e. split; [|reflexivity]. destruct He as [[ms ->]|[t ->]]; discriminate.
Qed.

Lemma unstopped_sleep ms : preserves unstopped (sleep ms).
Proof. exact (sleep_preserves _ _ unstopped_background unstopped_block ms). Qed.

Lemma unstopped_log l : l <> LogCompleted -> preserves unstopped (log l).
Proof. intros Hl w H. eapply unstopped_frame; [..|exact H]; cbn; eauto. apply H. Qed.

Lemma unstopped_loaded : preserves unstopped loaded.
Proof.
  unfold loaded. apply preserves_bind; [|intros _; apply preserves_get].
  apply preserves_modify. intros w H. frame_by unstopped_frame H. apply H.
Qed.

Lemma unstopped_call c : is_orchestrator_call c = true -> preserves unstopped (sdk_call c).
Proof.
  intros Hc w H. unfold sdk_call.
  assert (H1 : unstopped (with_trace (trace w ++ [EvCall c]) w)).
  { frame_by unstopped_frame H. apply H. }
  destruct (sdk_raises _ _ _); cbn [snd]; [exact H1|].
  destruct H1 as (R & T & F & S & L).
  destruct c as [| | | |h|h|h| | |p hp h o|]; try discriminate Hc; cbn [sdk_effect];
    try (destruct h; try discriminate Hc);
    (split; [|split; [exact T|split; [exact F|split; [exact S|exact L]]]]);
    cbn [registry with_registry with_loaded];
    first [exact R | apply registry_ok_register; [reflexivity | exact R]].
Qed.

Lemma wait_for_callbacks_cases timeout w :
  end_callbacks (iface w) <> None -> steamworks_thread w <> NoThread ->
  exists k,
    (stopped_or_dead (after_sleeps k w) = true /\
     _wait_for_callbacks timeout w = (Ret true, after_sleeps k w)) \/
    (stopped_or_dead (after_sleeps k w) = false /\
     _wait_for_callbacks timeout w = (Ret false, force_stop timeout (after_sleeps k w))).
Proof.
  intros Hf Ht.
  assert (Hinv : wait_inv (clock w) w) by (split; [lia|split; assumption]).
  destruct (wait_loop_spec (S (Z.to_nat (timeout * 10))) timeout (clock w) w Hinv)
    as (k & _ & Hres).
  { unfold seconds, OPERATION_INTERVAL. lia. }
  exists k. unfold _wait_for_callbacks, time.
  rewrite (bind_Ret _ _ w (clock w) w) by reflexivity.
  destruct Hres as [[Hsd Hloop]|(Hsd & _ & Hloop)]; [left|right]; auto.
Qed.

Lemma after_sleeps_unstopped k : forall w, unstopped w -> unstopped (after_sleeps k w).
Proof.
  induction k as [|k IH]; intros w H; cbn [after_sleeps]; [exact H|].
  apply IH. apply unstopped_sleep, H.
Qed.

(** While nothing has set the stop flag, the waiter answers [True] only
    on finding the polling thread dead. *)
Lemma wait_unstopped timeout w :
  unstopped w ->
  (exists w', _wait_for_callbacks timeout w = (Ret true, w') /\ unstopped w' /\
              is_alive (steamworks_thread w') = false) \/
  (exists w', _wait_for_callbacks timeout w = (Ret false, w') /\ no_completed w').
Proof.
  intros H. pose proof H as (_ & Ht & Hf & _).
  destruct (wait_for_callbacks_cases timeout w) as (k & [[Hsd Hw]|[Hsd Hw]]);
    [congruence | exact Ht | |];
    pose proof (after_sleeps_unstopped k w H) as Hk.
  - left. exists (after_sleeps k w). split; [exact Hw|]. split; [exact Hk|].
    destruct Hk as (_ & _ & Hfk & _). unfold stopped_or_dead in Hsd. rewrite Hfk in Hsd.
    destruct (is_alive _); [discriminate|reflexivity].
  - right. eexists. split; [exact Hw|]. unfold force_stop, no_completed. cbn.
    apply not_in_snoc; [apply Hk | discriminate].
Qed.

Lemma no_completed_background : background_ok no_completed (ok_payload (fun _ => True)).
Proof.
  split.
  - intros w n H. assert (Hl : LogThreadEnd n <> LogCompleted) by discriminate. eapply no_completed_frame; [|exact H]; cbn; eauto.
  - intros w d _ H. frame_by no_completed_frame H.
  - intros w b H. frame_by no_completed_frame H.
  - intros w t H [Ht _]. frame_by no_completed_frame H.
  - intros w tk rest H _. split.
    + frame_by no_completed_frame H.
    + apply ok_tick_any. intros. hnf. intros. exact Logic.I.
  - intros w H. frame_by no_completed_frame H.
  - apply pump_by_deliver; [intros w H; frame_by no_completed_frame H|].
    apply deliver_preserves.
    + intros l Hl w H. eapply no_completed_frame; [|exact H]; cbn; eauto.
    + intros w H. frame_by no_completed_frame H.
    + intros h w H. frame_by no_completed_frame H.
    + intros pfid deps _ w H. frame_by no_completed_frame H.
    + intros w H. frame_by no_completed_frame H.
  - intros w0 q0 _ _. apply ok_pending_any. intros. hnf. intros. exact Logic.I.
Qed.

Lemma no_completed_cleanup : preserves no_completed run_cleanup.
Proof.
  apply run_cleanup_preserves.
  - intros c _ w H. unfold sdk_call.
    destruct (sdk_raises _ _ _); [frame_by no_completed_frame H|].
    destruct c; frame_by no_completed_frame H.
  - intros ms Hms. apply (join_timeout_preserves _ _ no_completed_background); [|exact Hms].
    intros w e _ H. frame_by no_completed_frame H.
Qed.

(** Where a run may stand after its wait: it has not reported completion,
    or the stop flag was never set and the polling thread is dead. *)
Definition settled (w : World) : Prop :=
  no_completed w \/
  (~ In (EvSetStop true) (trace w) /\ is_alive (steamworks_thread w) = false).

Lemma settled_cleanup : preserves settled run_cleanup.
Proof.
  intros w [H|[H1 H2]]; [left; apply no_completed_cleanup, H|]. right.
  unfold run_cleanup, bind, get, sdk_call.
  destruct (steamworks_thread w) eqn:Et; try discriminate H2; cbn;
    destruct (sdk_raises _ _ _); cbn; rewrite Et;
    (split; [apply not_in_snoc; [exact H1 | discriminate] | reflexivity]).
Qed.

Lemma settled_log l : l <> LogCompleted -> preserves settled (log l).
Proof.
  intros Hl w [H|H]; [left|right; exact H].
  eapply no_completed_frame; [|exact H]; cbn; eauto.
Qed.

Lemma run_body_settles self : transforms unstopped settled (run_body self).
Proof.
  unfold run_body. apply (transforms_bind unstopped unstopped settled).
  - apply handle_action_preserves.
    + apply unstopped_sleep.
    + apply unstopped_log.
    + apply unstopped_call.
  - intros w H. left. apply H.
  - intros _ w H. destruct (wait_unstopped STEAMWORKS_TIMEOUT w H)
      as [(w' & Hw & Hu & Hd)|(w' & Hw & Hn)]; rewrite (bind_Ret _ _ _ _ _ Hw).
    + right. cbn. split; [apply Hu | exact Hd].
    + left. eapply no_completed_frame; [|exact Hn]. cbn. right. eexists. split; [|reflexivity].
      discriminate.
Qed.

Lemma run_settles self e s :
  settled (snd (SubscriptionHandler_run self (init_world e s))).
Proof.
  destruct (sdk_missing e (handler_libs self)) eqn:Em.
  { rewrite (run_missing self e s Em). left. unfold no_completed. cbn. intros []. }
  unfold SubscriptionHandler_run.
  rewrite (bind_Ret _ _ _ _ _ (interface_init_opened true None _ (init_world e s) Em)).
  unfold bind at 1. cbn [get iface opened steam_not_running].
  destruct (init_failed true (init_world e s)) eqn:Ef.
  { left. unfold bind, log, modify, sdk_call, no_completed. cbn. rewrite Ef.
    destruct (sdk_raises _ _ _); cbn; intuition discriminate. }
  assert (H0 : unstopped (opened true None (init_world e s))).
  { unfold opened. rewrite Ef. split; [|split; [|split; [|split]]]; cbn.
    - intros ch h H. destruct ch; discriminate.
    - discriminate.
    - reflexivity.
    - intuition discriminate.
    - unfold no_completed. cbn. auto. }
  revert H0. generalize (opened true None (init_world e s)). intros w H0.
  revert w H0. apply (transforms_bind unstopped unstopped settled).
  - apply preserves_get.
  - intros w H. left. apply H.
  - intros t0. apply (transforms_bind unstopped unstopped settled).
    + apply wait_loaded_preserves;
        [apply unstopped_sleep | apply unstopped_log | apply unstopped_loaded].
    + intros w H. left. apply H.
    + intros ready. destruct ready; cbn [negb]; [|intros w H; left; apply H].
      apply transforms_try_finally; [|apply settled_cleanup].
      apply transforms_try_except; [apply run_body_settles|].
      intros x. apply preserves_log_exc_info, settled_log. discriminate.
Qed.

(** The handlers the orchestrator registers never touch the stop flag. *)
Lemma orchestrator_handlers_keep_stop_flag h args w :
  orchestrator_handler h = true ->
  end_callbacks (iface (snd (invoke h args w))) = end_callbacks (iface w).
Proof.
  intros Hh. destruct h as [operation| |]; [| |discriminate]; cbn [invoke].
  - destruct (create_callback_never_raises operation args w) as (w' & -> & _ & H & _).
    exact H.
  - destruct (create_download_callback_never_raises args w) as (w' & -> & H & _).
    cbn. rewrite H. reflexivity.
Qed.

(** C10, as amended.  In a subscribe, unsubscribe or resubscribe run the
    stop flag is never set by a callback: a run that reports completion
    (its wait returned [True]) has no assignment of the stop flag at all;
    its wait ended because the polling thread was no longer alive. *)
Theorem C10_completion_without_stop_flag :
  forall (self : SteamworksSubscriptionHandler) (e : Env) (s : list Tick),
    In LogCompleted (logs (snd (SubscriptionHandler_run self (init_world e s)))) ->
    ~ In (EvSetStop true) (trace (snd (SubscriptionHandler_run self (init_world e s)))) /\
    is_alive (steamworks_thread (snd (SubscriptionHandler_run self (init_world e s)))) = false.
Proof.
  intros self e s Hc. destruct (run_settles self e s) as [H|H]; [|exact H].
  destruct (H Hc).
Qed.

Lemma C10_completion_without_stop_flag_witness :
  ~ In (EvSetStop true)
      (trace (snd (SubscriptionHandler_run handler_7 (init_world env_pump_fails script_two_turns)))) /\
  is_alive (steamworks_thread
      (snd (SubscriptionHandler_run handler_7 (init_world env_pump_fails script_two_turns)))) = false.
Proof.
  apply (C10_completion_without_stop_flag handler_7 env_pump_fails script_two_turns).
  vm_compute. auto.
Defined.

(** C10 as stated fails: no run of the orchestrator, whatever the SDK
    delivers, reports completion with the stop flag set. *)
Lemma C10_counterexample :
  ~ exists (self : SteamworksSubscriptionHandler) (e : Env) (s : list Tick),
      In LogCompleted (logs (snd (SubscriptionHandler_run self (init_world e s)))) /\
      In (EvSetStop true) (trace (snd (SubscriptionHandler_run self (init_world e s)))).
Proof.
  intros (self & e & s & Hc & Hs).
  destruct (run_settles self e s) as [H|[H _]]; [exact (H Hc) | exact (H Hs)].
Qed.

(** ** The dependency query *)





(** The SDK calls of the query. *)
Definition is_query_call (c : SdkCall) : bool :=
  match c with
  | Unload | GetAppDependencies _ | SetGetAppDependenciesResultCallback _ => true
  | _ => false
  end.











(** *** The thread once the stop flag is set *)

(** The stop flag is set and the SDK is loaded: nothing in the background
    changes that. *)
Definition stopping (w : World) : Prop :=
  end_callbacks (iface w) = Some true /\ loaded_flag w = true.

Lemma stopping_frame w w' :
  end_callbacks (iface w') = end_callbacks (iface w) \/ end_callbacks (iface w') = Some true ->
  loaded_flag w' = loaded_flag w \/ loaded_flag w' = true ->
  stopping w -> stopping w'.
Proof.
  intros Hf Hl [H1 H2]. split.
  - destruct Hf as [->| ->]; auto.
  - destruct Hl as [->| ->]; auto.
Qed.

Ltac stop_frame H := eapply stopping_frame; [..|exact H]; cbn; auto.

Lemma stopping_background : background_ok stopping (fun _ => True).
Proof.
  split.
  - intros w n H. stop_frame H.
  - intros w d _ H. stop_frame H.
  - intros w b H. stop_frame H. destruct H as [_ ->]. auto.
  - intros w t H _. stop_frame H.
  - intros w tk rest H _. split; [stop_frame H|].
    apply ok_tick_any. intros. hnf. intros. exact Logic.I.
  - intros w H. stop_frame H.
  - apply pump_by_deliver; [intros w H; stop_frame H|].
    intros d _. apply (deliver_preserves stopping (fun _ => True)).
    + intros l _ w H. stop_frame H.
    + intros w H. stop_frame H.
    + intros h w H. stop_frame H.
    + intros pfid deps _ w H. stop_frame H.
    + intros w H. stop_frame H.
    + intros a rest q _ _. exact Logic.I.
  - intros w0 q0 _ _. apply ok_pending_any. intros. hnf. intros. exact Logic.I.
Qed.

(** The thread has left its loop or was ended by an exception. *)
Definition ended (t : ThreadState) : Prop := t = Finished \/ t = Crashed.

Lemma ended_not_alive t : ended t -> is_alive t = false.
Proof. intros [->| ->]; reflexivity. Qed.

Lemma callbacks_pump_thread pending w :
  steamworks_thread (_callbacks_pump pending w) = Polling \/
  steamworks_thread (_callbacks_pump pending w) = Crashed.
Proof.
  unfold _callbacks_pump. destruct (run_callbacks pending w) as [[u|x| |] w1]; cbn; auto.
Qed.

Lemma callbacks_pump_stopping pending w :
  stopping w -> stopping (_callbacks_pump pending w).
Proof.
  intros H. unfold _callbacks_pump.
  assert (H1 : stopping (snd (run_callbacks pending w))).
  { apply (bg_pump _ _ stopping_background); [|exact H].
    apply ok_pending_any. intros. exact Logic.I. }
  destruct (run_callbacks pending w) as [[u|x| |] w1]; cbn in *; stop_frame H1.
Qed.

(** One turn of the thread with the stop flag set: from its loop test it
    ends; from the call it was suspended in, it comes back to the loop
    test or is ended by an exception. *)
Lemma turn_when_stopping pending w :
  stopping w ->
  stopping (_callbacks_turn pending w) /\
  match steamworks_thread w with
  | WaitingForLoad => steamworks_thread (_callbacks_turn pending w) = Polling
  | Polling => steamworks_thread (_callbacks_turn pending w) = Finished
  | Pumping p =>
      _callbacks_turn pending w = _callbacks_pump p w
  | _ => _callbacks_turn pending w = w
  end.
Proof.
  intros H. pose proof H as [Hf Hl]. unfold _callbacks_turn.
  destruct (steamworks_thread w) as [| | |p| |] eqn:Et; auto.
  - unfold loaded, emit, modify, get, bind. cbn. rewrite Hl. cbn.
    split; [stop_frame H | reflexivity].
  - unfold _callbacks_test. rewrite Hf. cbn. split; [stop_frame H | reflexivity].
  - split; [apply callbacks_pump_stopping, H | reflexivity].
Qed.

(** With the stop flag set and the SDK loaded, a live polling thread has
    ended when it has been given the time to reach its next loop test. *)
Lemma settle_ends w :
  stopping w -> is_alive (steamworks_thread w) = true ->
  settle w = (Ret tt, snd (settle w)) /\
  stopping (snd (settle w)) /\ ended (steamworks_thread (snd (settle w))).
Proof.
  intros H Ha. split; [reflexivity|]. unfold settle, modify. cbn [snd].
  destruct (turn_when_stopping [] w H) as [H1 T1].
  destruct (turn_when_stopping [] (_callbacks_turn [] w) H1) as [H2 T2].
  split; [exact H2|].
  destruct (steamworks_thread w) as [| | |p| |] eqn:Et; try discriminate Ha.
  - rewrite T1 in T2. left. exact T2.
  - rewrite T1 in T2. rewrite T2, T1. left. reflexivity.
  - rewrite T1 in T2 |- *.
    destruct (callbacks_pump_thread p w) as [Hp|Hp]; rewrite Hp in T2.
    + left. exact T2.
    + right. rewrite T2. exact Hp.
Qed.

(** With the thread started, the SDK loaded and the loop test of the
    waiter failing, [join()] returns. *)
Lemma join_returns w :
  steamworks_thread w <> NoThread -> loaded_flag w = true ->
  stopped_or_dead w = true ->
  fst (join w) = Ret tt.
Proof.
  intros Ht Hl Hs. unfold join. unfold bind at 1, emit at 1, modify at 1.
  set (w0 := with_trace (trace w ++ [EvJoin None]) w).
  unfold thread_is_alive. unfold bind at 1 2, get at 1.
  change (steamworks_thread w0) with (steamworks_thread w).
  destruct (is_alive (steamworks_thread w)) eqn:Ea.
  2:{ destruct (steamworks_thread w); try congruence; try discriminate Ea; reflexivity. }
  assert (Hst : stopping w0).
  { unfold stopped_or_dead in Hs. rewrite Ea in Hs. split; [|exact Hl].
    cbn. destruct (end_callbacks (iface w)) as [[|]|]; try discriminate Hs. reflexivity. }
  assert (Ha0 : is_alive (steamworks_thread w0) = true) by exact Ea.
  destruct (settle_ends w0 Hst Ha0) as (E1 & _ & He).
  apply ended_not_alive in He as Hd.
  assert (Hj : forall ticks, fst (join_rec ticks w0) = Ret tt).
  { intros ticks. destruct ticks; cbn [join_rec];
      rewrite (bind_Ret _ _ _ _ _ E1); unfold thread_is_alive, bind, get;
      destruct He as [He|He]; rewrite He; reflexivity. }
  destruct (steamworks_thread w); try congruence; try discriminate Ea;
    cbn [is_alive negb ret]; unfold bind, get; apply Hj.
Qed.

Section Query.
Context (e : Env) (ids : list Z).
Hypothesis query_calls_return :
  forall n c, is_query_call c = true -> sdk_raises e n c = false.














End Query.



(** A query for two items to which the SDK answers twice, both times for
    the first item. *)
Definition query_10_20 : SteamworksAppDependenciesQuery :=
  DependenciesQuery_init (PyList [10; 20]) None None.

Definition dependencies_payload (pfid : Z) (deps : list Z) : CallbackObj :=
  {| publishedFileId := Some pfid; result := Some 1; app_dependencies_list := Some deps |}.

Definition script_answers_10 : list Tick :=
  [ {| jitter := 0; load_done := false;
       quanta := [[]; [(AppDependenciesResult, [dependencies_payload 10 [294100]])]];
       preempted := None |};
    {| jitter := 0; load_done := false;
       quanta := [[(AppDependenciesResult, [dependencies_payload 10 [294100]])]];
       preempted := None |} ].


(** The count-based stop counts callbacks, not items: two answers for
    item 10 end the wait at once, and the map has no entry for item 20. *)
Example query_two_answers_for_one_item :
  let r := DependenciesQuery_run query_10_20 (init_world env_quiet script_answers_10) in
  (exists m, fst r = Ret (Some m) /\ m !! 10 = Some [294100] /\ m !! 20 = None) /\
  callbacks_count (iface (snd r)) = 2 /\
  end_callbacks (iface (snd r)) = Some true /\
  clock (snd r) = 2000.
Proof. vm_compute. repeat split. eexists. repeat split. Qed.



(** A query with a negative interval, and one with a library path. *)
Definition query_in_haste : SteamworksAppDependenciesQuery :=
  DependenciesQuery_init (PyList [10; 20]) (Some (-1)) None.



(** A malformed answer ends the polling thread: the handler raises out of
    [run_callbacks()], the waiter then finds the thread dead, and the
    query returns an empty map without the stop flag ever being set. *)
Definition script_malformed_answer : list Tick :=
  [ {| jitter := 0; load_done := false;
       quanta := [[]; [(AppDependenciesResult, [payload_without_result])]]; preempted := None |} ].

Example query_malformed_answer :
  let r := DependenciesQuery_run query_10_20 (init_world env_quiet script_malformed_answer) in
  (exists m, fst r = Ret (Some m) /\ m = ∅) /\
  steamworks_thread (snd r) = Crashed /\
  callbacks_count (iface (snd r)) = 1 /\
  end_callbacks (iface (snd r)) = Some false.
Proof. vm_compute. repeat split. eexists. repeat split. Qed.

(** ** The loop bounds of the model are never reached *)

(** The computation ended by itself: it returned or raised. *)
Definition ends {A} (o : outcome A) : Prop :=
  match o with
  | Ret _ | Raise _ => True
  | Blocked | NoFuel => False
  end.

(** The session has its stop flag and its thread. *)
Definition attached (w : World) : Prop :=
  end_callbacks (iface w) <> None /\ steamworks_thread w <> NoThread.

(** [finishes m]: on such a session [m] ends by itself, and leaves such a
    session. *)
Definition finishes {A} (m : M A) : Prop :=
  forall w, attached w -> ends (fst (m w)) /\ attached (snd (m w)).

Lemma attached_wait_inv w : attached w <-> wait_inv (clock w) w.
Proof.
  split; [intros [H1 H2]; split; [lia|split; assumption] | intros (_ & H1 & H2); split; assumption].
Qed.

Lemma finishes_ret {A} (a : A) : finishes (ret a).
Proof. intros w H. split; [exact I | exact H]. Qed.

Lemma finishes_raise {A} (e : exn) : finishes (@raise A e).
Proof. intros w H. split; [exact I | exact H]. Qed.

Lemma finishes_get {A} (f : World -> A) : finishes (get f).
Proof. intros w H. split; [exact I | exact H]. Qed.

Lemma finishes_bind {A B} (m : M A) (f : A -> M B) :
  finishes m -> (forall a, finishes (f a)) -> finishes (bind m f).
Proof.
  intros Hm Hf w H. unfold bind. destruct (Hm w H) as [H1 H2].
  destruct (m w) as [[a|e| |] w1]; cbn in *; auto. apply Hf, H2.
Qed.

Lemma finishes_try_except {A} (body : M A) catches handler :
  finishes body -> (forall e, finishes (handler e)) ->
  finishes (try_except body catches handler).
Proof.
  intros Hb Hh w H. unfold try_except. destruct (Hb w H) as [H1 H2].
  destruct (body w) as [[a|e| |] w1]; cbn in *; auto.
  destruct (catches e); cbn; auto. apply Hh, H2.
Qed.

Lemma finishes_try_finally {A} (body : M A) final :
  finishes body -> finishes final -> finishes (try_finally body final).
Proof.
  intros Hb Hf w H. unfold try_finally. destruct (Hb w H) as [H1 H2].
  destruct (body w) as [[a|e| |] w1]; cbn in *; auto.
  - apply finishes_bind; auto. intros _. apply finishes_ret.
  - apply finishes_bind; auto. intros _. apply finishes_raise.
Qed.

Lemma finishes_for_each {A} (xs : list A) body :
  (forall x, finishes (body x)) -> finishes (for_each xs body).
Proof.
  intros Hb. induction xs as [|x xs IH]; cbn [for_each]; [apply finishes_ret|].
  apply finishes_bind; auto.
Qed.

Lemma finishes_for_enumerate (xs : list Z) body :
  (forall i x, finishes (body i x)) -> forall start, finishes (for_enumerate start xs body).
Proof.
  intros Hb. induction xs as [|x xs IH]; intros start; cbn [for_enumerate];
    [apply finishes_ret|].
  apply finishes_bind; auto.
Qed.

Lemma finishes_log l : finishes (log l).
Proof. intros w H. split; [exact I | exact H]. Qed.

Lemma finishes_log_exc_info l e : finishes (log_exc_info l e).
Proof.
  intros w H. unfold log_exc_info.
  destruct (format_raises _ _ _); split; solve [exact I | exact H].
Qed.

Lemma finishes_call c : finishes (sdk_call c).
Proof.
  intros w [H1 H2]. unfold sdk_call. destruct (sdk_raises _ _ _); cbn; [split; [|split]; auto|].
  split; [exact I|]. destruct c; split; assumption.
Qed.

Lemma finishes_loaded : finishes loaded.
Proof. intros w H. split; [exact I | exact H]. Qed.

Lemma finishes_assign b : finishes (assign_end_callbacks b).
Proof. intros w [H1 H2]. split; [exact I|]. split; [discriminate | exact H2]. Qed.

Lemma wait_inv_block c w e :
  ((exists ms, e = EvSleep ms) \/ exists t, e = EvJoin t) ->
  wait_inv c w -> wait_inv c (with_trace (trace w ++ [e]) w).
Proof. intros _ H. exact H. Qed.

Lemma finishes_sleep ms : finishes (sleep ms).
Proof.
  intros w H. split.
  - destruct (Z_lt_dec ms 0) as [Hms|Hms].
    + unfold sleep. destruct (Z.ltb_spec ms 0); [exact I | lia].
    + rewrite sleep_unfold by lia. exact I.
  - apply attached_wait_inv in H.
    apply (sleep_preserves _ _ (wait_inv_background _) (wait_inv_block _) ms) in H.
    destruct H as (_ & H1 & H2). split; assumption.
Qed.

Lemma finishes_join_timeout ms : 0 <= ms -> finishes (join_timeout ms).
Proof.
  intros Hms w H. split.
  - unfold join_timeout, emit, settle, modify, thread_is_alive, get, bind, ret, raise.
    cbn. destruct (steamworks_thread _); cbn; try exact I;
      match goal with |- context [background ?x] =>
        pose proof (background_Ret x) as Hb; destruct (background x) as [o w1]
      end; cbn in Hb; subst o; exact I.
  - apply attached_wait_inv in H.
    apply (join_timeout_preserves _ _ (wait_inv_background _) (wait_inv_block _) ms Hms) in H.
    destruct H as (_ & H1 & H2). split; assumption.
Qed.

(** The loop of [run] that waits for the SDK: 302 turns are enough. *)
Lemma wait_loaded_returns fuel : forall start w,
  attached w ->
  seconds STEAMWORKS_TIMEOUT < clock w - start + OPERATION_INTERVAL * Z.of_nat fuel ->
  ends (fst (wait_loaded (S fuel) start w)) /\ attached (snd (wait_loaded (S fuel) start w)).
Proof.
  induction fuel as [|fuel IH]; intros start w Ha Hfuel;
    (destruct (loaded_flag w) eqn:El;
     [ cbn [wait_loaded]; unfold loaded, emit, modify, get, bind; cbn; rewrite El; cbn;
       split; [exact I | exact Ha]
     | rewrite (wait_loaded_step _ _ _ El); cbv zeta;
       destruct (Z.ltb_spec (seconds STEAMWORKS_TIMEOUT) (clock w - start)) as [Hto|Hto];
       [split; [exact I | exact Ha]|] ]).
  - exfalso. unfold OPERATION_INTERVAL in *. lia.
  - set (w1 := with_trace (trace w ++ [EvCall Loaded]) w) in *.
    assert (Hinv1 : wait_inv (clock w1) w1) by (apply attached_wait_inv; exact Ha).
    pose proof (after_sleep_inv _ _ Hinv1) as (Hc & Hf & Ht).
    apply IH; [split; assumption|].
    change (clock w1) with (clock w) in Hc. unfold OPERATION_INTERVAL in *. lia.
Qed.

Lemma finishes_wait_for_callbacks timeout : finishes (_wait_for_callbacks timeout).
Proof.
  intros w [Hf Ht].
  destruct (wait_for_callbacks_cases timeout w Hf Ht) as (k & [[Hsd Hw]|[Hsd Hw]]);
    rewrite Hw; (split; [exact I|]);
    pose proof (after_sleeps_inv k w (proj1 (attached_wait_inv w) (conj Hf Ht)))
      as (_ & Hfk & Htk).
  - split; assumption.
  - split; [discriminate | exact Htk].
Qed.

Lemma finishes_queue_operations operation pfids :
  finishes (_queue_operations operation pfids).
Proof.
  unfold _queue_operations. apply finishes_for_enumerate.
  intros i x. unfold queue_one. apply finishes_bind.
  - destruct (operation_map operation); [apply finishes_call | apply finishes_ret].
  - intros _. destruct (_ <? _)%nat; [apply finishes_sleep | apply finishes_ret].
Qed.

Lemma finishes_register_callbacks actions : finishes (_register_callbacks actions).
Proof.
  unfold _register_callbacks. apply finishes_bind.
  - destruct (existsb _ _); [apply finishes_call | apply finishes_ret].
  - intros _. destruct (existsb _ _); [apply finishes_call | apply finishes_ret].
Qed.

Lemma finishes_handle_action self :
  finishes
    (if String.eqb (action self) "resubscribe" then _handle_resubscribe self
     else if String.eqb (action self) "subscribe" then _handle_subscribe self
     else if String.eqb (action self) "unsubscribe" then _handle_unsubscribe self
     else ret tt).
Proof.
  destruct (String.eqb _ _).
  { unfold _handle_resubscribe.
    apply finishes_bind; [apply finishes_register_callbacks|]. intros _.
    apply finishes_bind; [apply finishes_queue_operations|]. intros _.
    apply finishes_bind; [apply finishes_sleep|]. intros _.
    apply finishes_bind; [apply finishes_queue_operations|]. intros _.
    apply finishes_bind; [apply finishes_sleep|]. intros _.
    apply finishes_for_each. intros x. unfold download_one.
    apply finishes_try_except; [apply finishes_call|]. intros x0.
    apply finishes_log_exc_info. }
  destruct (String.eqb _ _).
  { unfold _handle_subscribe. apply finishes_bind; [apply finishes_register_callbacks|].
    intros _. apply finishes_queue_operations. }
  destruct (String.eqb _ _).
  { unfold _handle_unsubscribe. apply finishes_bind; [apply finishes_register_callbacks|].
    intros _. apply finishes_queue_operations. }
  apply finishes_ret.
Qed.

Lemma finishes_run_body self : finishes (run_body self).
Proof.
  unfold run_body. apply finishes_bind; [apply finishes_handle_action|].
  intros _. apply finishes_bind; [apply finishes_wait_for_callbacks|].
  intros b. destruct b; apply finishes_log.
Qed.

Lemma finishes_run_cleanup : finishes run_cleanup.
Proof.
  unfold run_cleanup. apply finishes_bind; [apply finishes_get|]. intros t.
  apply finishes_bind; [|intros _; apply finishes_call].
  destruct t; cbn; solve [apply finishes_ret
                         | apply finishes_join_timeout; unfold seconds; lia].
Qed.

(** Every run of the orchestrator ends by itself: neither loop of the
    model runs out of turns, and nothing blocks for ever. *)
Lemma run_ends self e s :
  ends (fst (SubscriptionHandler_run self (init_world e s))).
Proof.
  destruct (sdk_missing e (handler_libs self)) eqn:Em.
  { rewrite (run_missing self e s Em). exact I. }
  unfold SubscriptionHandler_run.
  rewrite (bind_Ret _ _ _ _ _ (interface_init_opened true None _ (init_world e s) Em)).
  unfold bind at 1. cbn [get iface opened steam_not_running].
  destruct (init_failed true (init_world e s)) eqn:Ef.
  { unfold bind, log, modify, sdk_call. cbn. destruct (sdk_raises _ _ _); exact I. }
  assert (H0 : attached (opened true None (init_world e s))).
  { unfold opened. rewrite Ef. split; cbn; discriminate. }
  revert H0. generalize (opened true None (init_world e s)). intros w H0.
  unfold time. unfold bind at 1. cbn [get].
  destruct (wait_loaded_returns 301 (clock w) w H0) as [H1 H2].
  { unfold seconds, STEAMWORKS_TIMEOUT, OPERATION_INTERVAL. lia. }
  change load_fuel with (S 301). unfold bind at 1.
  destruct (wait_loaded (S 301) (clock w) w) as [[[|]|x| |] w1]; cbn in *; auto.
  apply finishes_try_finally; [| |exact H2].
  - apply finishes_try_except;
      [apply finishes_run_body|intros x; apply finishes_log_exc_info].
  - apply finishes_run_cleanup.
Qed.

(** * Staging, teardown and the handlers in more detail *)

(** ** What the main flow issues while it stages its operations *)

(** The events that, during staging, come from the polling thread only:
    its polls of [loaded()], its [run_callbacks()], the handlers it enters
    and what a handler assigns to the stop flag. *)
Definition is_thread_event (ev : Event) : bool :=
  match ev with
  | EvCall Loaded | EvCall RunCallbacks | EvCallback _ | EvSetStop _ => true
  | _ => false
  end.

Definition is_main_event (ev : Event) : bool := negb (is_thread_event ev).

(** The events of the main flow: registrations, item operations, sleeps. *)
Definition main_view (tr : list Event) : list Event := List.filter is_main_event tr.

(** The time the main flow asks to sleep in a list of events. *)
Fixpoint slept (tr : list Event) : Z :=
  match tr with
  | [] => 0
  | EvSleep ms :: rest => ms + slept rest
  | _ :: rest => slept rest
  end.

Lemma slept_app tr1 tr2 : slept (tr1 ++ tr2) = slept tr1 + slept tr2.
Proof.
  induction tr1 as [|ev tr1 IH]; cbn [app slept]; [lia|].
  destruct ev; rewrite IH; lia.
Qed.

Section View.
Context (p : Event -> bool).
Hypothesis p_thread : forall ev, is_thread_event ev = true -> p ev = false.

(** Since the events [tr0], nothing that [p] selects has been issued and
    the main flow has not slept; the clock has reached [c]. *)
Definition unseen_since (e : Env) (tr0 : list Event) (c : Z) (w : World) : Prop :=
  env w = e /\ c <= clock w /\
  exists d, trace w = tr0 ++ d /\ List.filter p d = [] /\ slept d = 0.

Lemma unseen_frame e tr0 c w w' :
  env w' = env w -> clock w <= clock w' -> trace w' = trace w ->
  unseen_since e tr0 c w -> unseen_since e tr0 c w'.
Proof.
  intros He Hc Ht (H1 & H2 & H3). unfold unseen_since. rewrite He, Ht.
  split; [exact H1|]. split; [lia | exact H3].
Qed.

Lemma unseen_emit e tr0 c w ev :
  is_thread_event ev = true ->
  unseen_since e tr0 c w -> unseen_since e tr0 c (with_trace (trace w ++ [ev]) w).
Proof.
  intros Hev (H1 & Hc & d & H2 & H3 & H4). split; [exact H1|]. split; [exact Hc|].
  exists (d ++ [ev]). cbn. split; [|split].
  - rewrite H2, app_assoc. reflexivity.
  - rewrite List.filter_app, H3. cbn. rewrite (p_thread _ Hev). reflexivity.
  - rewrite slept_app, H4. destruct ev; try discriminate Hev; reflexivity.
Qed.

Lemma unseen_background e tr0 c : background_ok (unseen_since e tr0 c) (fun _ => True).
Proof.
  split.
  - intros w n H. eapply unseen_frame; [| | |exact H]; cbn; auto; lia.
  - intros w x Hx H. eapply unseen_frame; [| | |exact H]; cbn; auto; lia.
  - intros w b H. eapply unseen_frame; [| | |exact H]; cbn; auto; lia.
  - intros w t H _. eapply unseen_frame; [| | |exact H]; cbn; auto; lia.
  - intros w tk rest H _. split.
    + eapply unseen_frame; [| | |exact H]; cbn; auto; lia.
    + apply ok_tick_any. intros. hnf. intros. exact Logic.I.
  - intros w H. apply unseen_emit; auto.
  - apply pump_by_deliver; [intros w H; apply unseen_emit; auto|].
    intros d _. apply (deliver_preserves (unseen_since e tr0 c) (fun _ => True)).
    + intros l _ w H. eapply unseen_frame; [| | |exact H]; cbn; auto; lia.
    + intros w H. eapply unseen_frame; [| | |exact H]; cbn; auto; lia.
    + intros h w H. apply unseen_emit; auto.
    + intros pfid deps _ w H. eapply unseen_frame; [| | |exact H]; cbn; auto; lia.
    + unfold assign_end_callbacks. apply preserves_bind.
      * apply preserves_modify. intros w H. apply unseen_emit; auto.
      * intros _ w H. eapply unseen_frame; [| | |exact H]; cbn; auto; lia.
    + intros a rest q _ _. exact I.
  - intros w0 q0 _ _. apply ok_pending_any. intros. hnf. intros. exact Logic.I.
Qed.

(** [shows m w view]: from [w], [m] returns; what [p] selects of the
    events it adds is [view], and the clock has advanced by the time it
    asked to sleep, at least. *)
Definition shows (m : M unit) (w : World) (view : list Event) : Prop :=
  exists w' d, m w = (Ret tt, w') /\ env w' = env w /\
               trace w' = trace w ++ d /\ List.filter p d = view /\
               clock w + slept d <= clock w'.

Lemma shows_ret w : shows (ret tt) w [].
Proof. exists w, []. rewrite app_nil_r. cbn. repeat split; auto; lia. Qed.

Lemma shows_bind m k w v1 v2 :
  shows m w v1 ->
  (forall w1, env w1 = env w -> shows k w1 v2) ->
  shows (m >> k) w (v1 ++ v2).
Proof.
  intros (w1 & d1 & Hm & He1 & Ht1 & Hv1 & Hc1) Hk.
  destruct (Hk w1 He1) as (w2 & d2 & Hk2 & He2 & Ht2 & Hv2 & Hc2).
  exists w2, (d1 ++ d2). split; [|split; [|split; [|split]]].
  - rewrite (bind_Ret _ _ _ _ _ Hm). exact Hk2.
  - congruence.
  - rewrite Ht2, Ht1, app_assoc. reflexivity.
  - rewrite List.filter_app. congruence.
  - rewrite slept_app. lia.
Qed.

Lemma shows_sleep ms w : 0 <= ms -> shows (sleep ms) w (List.filter p [EvSleep ms]).
Proof.
  intros Hms. unfold shows. rewrite (sleep_unfold _ _ Hms).
  set (w1 := with_clock (clock w + ms) (with_trace (trace w ++ [EvSleep ms]) w)).
  assert (H1 : unseen_since (env w) (trace w ++ [EvSleep ms]) (clock w + ms) w1).
  { split; [reflexivity|]. split; [cbn; lia|]. exists []. rewrite app_nil_r. auto. }
  apply (background_preserves _ _ (unseen_background _ _ _)) in H1.
  destruct H1 as (He & Hc & d & Ht & Hd & Hs).
  exists (snd (background w1)), ([EvSleep ms] ++ d). split; [reflexivity|].
  split; [exact He|]. split; [|split].
  - rewrite Ht, <- app_assoc. reflexivity.
  - rewrite List.filter_app, Hd, app_nil_r. reflexivity.
  - rewrite slept_app, Hs. cbn [slept]. lia.
Qed.

Lemma shows_call c w :
  sdk_raises (env w) (length (trace w)) c = false ->
  shows (sdk_call c) w (List.filter p [EvCall c]).
Proof.
  intros Hc. unfold shows, sdk_call. rewrite Hc.
  eexists _, [EvCall c]. split; [reflexivity|].
  split; [|split; [|split]]; destruct c; cbn; first [reflexivity | lia].
Qed.

Lemma shows_download_one pfid w :
  download_errors_plain (env w) ->
  shows (download_one pfid) w (List.filter p [EvCall (DownloadItem pfid true cb_download true)]).
Proof.
  intros Hd. unfold shows, download_one, try_except, sdk_call.
  destruct (sdk_raises _ _ _) eqn:Er; cbn [Exception].
  - unfold log_exc_info. cbn [env trace with_trace].
    rewrite length_app, Nat.add_1_r, (Hd _ _ Er). cbn [log modify].
    eexists _, [EvCall (DownloadItem pfid true cb_download true)];
    (split; [reflexivity|]); (split; [|split; [|split]]); cbn; first [reflexivity | lia].
  - eexists _, [EvCall (DownloadItem pfid true cb_download true)];
    (split; [reflexivity|]); (split; [|split; [|split]]); cbn; first [reflexivity | lia].
Qed.
End View.

Lemma main_thread_event ev : is_thread_event ev = true -> is_main_event ev = false.
Proof. unfold is_main_event. intros ->. reflexivity. Qed.

(** Calls that follow one another with one [OPERATION_INTERVAL] sleep
    between two of them, and none after the last. *)
Fixpoint spaced (calls : list Event) : list Event :=
  match calls with
  | [] => []
  | c :: rest =>
      c :: match rest with
           | [] => []
           | _ :: _ => EvSleep OPERATION_INTERVAL :: spaced rest
           end
  end.

(** What [_queue_operations] issues for an operation that is not in its
    [operation_map]: the sleeps alone. *)
Definition gaps (n : nat) : list Event := repeat (EvSleep OPERATION_INTERVAL) (Nat.pred n).

Section StagingView.
Context (e : Env).
Hypothesis staging_calls_return :
  forall n c, is_staging_call c = true -> sdk_raises e n c = false.
Hypothesis download_errors_logged : download_errors_plain e.

Lemma main_queue operation call total :
  operation_map operation = Some call ->
  (forall q, is_staging_call (call q) = true) ->
  (forall q, is_main_event (EvCall (call q)) = true) ->
  forall ids idx w, env w = e -> (idx + length ids = total + 1)%nat ->
    shows is_main_event (for_enumerate idx ids (queue_one operation total)) w
          (spaced (map (fun q => EvCall (call q)) ids)).
Proof.
  intros Hop Hcall Hev. induction ids as [|q ids IH]; intros idx w Hw Hlen;
    cbn [for_enumerate map spaced].
  - apply shows_ret.
  - match goal with |- shows _ _ _ (?c :: ?rest) =>
      change (c :: rest) with ([c] ++ rest) end.
    assert (Hq : forall w1, env w1 = e ->
              shows is_main_event (sdk_call (call q)) w1 [EvCall (call q)]).
    { intros w1 Hw1.
      replace [EvCall (call q)] with (List.filter is_main_event [EvCall (call q)])
        by (cbn [List.filter]; rewrite Hev; reflexivity).
      apply shows_call. rewrite Hw1. apply staging_calls_return, Hcall. }
    unfold queue_one at 1. rewrite Hop.
    destruct ids as [|q' ids'].
    + cbn [length] in Hlen. replace (idx <? total)%nat with false
        by (symmetry; apply Nat.ltb_ge; lia).
      cbn [for_enumerate map]. change [EvCall (call q)] with ([EvCall (call q)] ++ []).
      apply shows_bind; [|intros w1 _; apply shows_ret].
      change [EvCall (call q)] with ([EvCall (call q)] ++ []).
      apply shows_bind; [apply Hq, Hw | intros w1 _; apply shows_ret].
    + cbn [length] in Hlen. replace (idx <? total)%nat with true
        by (symmetry; apply Nat.ltb_lt; lia).
      change (shows is_main_event
                ((sdk_call (call q) >> sleep OPERATION_INTERVAL) >>
                 for_enumerate (S idx) (q' :: ids') (queue_one operation total)) w
                (([EvCall (call q)] ++ [EvSleep OPERATION_INTERVAL]) ++
                 spaced (map (fun q0 => EvCall (call q0)) (q' :: ids')))).
      apply shows_bind.
      * apply shows_bind; [apply Hq, Hw|]. intros w1 _.
        apply (shows_sleep is_main_event main_thread_event OPERATION_INTERVAL).
        unfold OPERATION_INTERVAL. lia.
      * intros w1 Hw1. apply IH; [congruence | cbn [length]; lia].
Qed.

Lemma main_queue_operations operation call :
  operation_map operation = Some call ->
  (forall q, is_staging_call (call q) = true) ->
  (forall q, is_main_event (EvCall (call q)) = true) ->
  forall ids w, env w = e ->
    shows is_main_event (_queue_operations operation ids) w
          (spaced (map (fun q => EvCall (call q)) ids)).
Proof.
  intros Hop Hcall Hev ids w Hw. unfold _queue_operations.
  apply (main_queue operation call (length ids) Hop Hcall Hev); [exact Hw | lia].
Qed.

(** The registrations of [_register_callbacks]. *)
Definition registrations (actions : list string) : list Event :=
  (if existsb (String.eqb "unsubscribe") actions
   then [EvCall (SetItemUnsubscribedCallback (cb_operation "unsubscribe"))] else []) ++
  (if existsb (String.eqb "subscribe") actions
   then [EvCall (SetItemSubscribedCallback (cb_operation "subscribe"))] else []).

Lemma main_register actions w :
  env w = e -> shows is_main_event (_register_callbacks actions) w (registrations actions).
Proof.
  intros Hw. unfold _register_callbacks, registrations. apply shows_bind.
  - destruct (existsb _ _); [|apply shows_ret].
    apply (shows_call is_main_event (SetItemUnsubscribedCallback _)).
    rewrite Hw. apply staging_calls_return. reflexivity.
  - intros w1 Hw1. destruct (existsb _ _); [|apply shows_ret].
    apply (shows_call is_main_event (SetItemSubscribedCallback _)).
    rewrite Hw1, Hw. apply staging_calls_return. reflexivity.
Qed.

Lemma main_downloads ids w :
  env w = e ->
  shows is_main_event (for_each ids download_one) w
        (map (fun q => EvCall (DownloadItem q true cb_download true)) ids).
Proof.
  revert w. induction ids as [|q ids IH]; intros w Hw; cbn [for_each map].
  - apply shows_ret.
  - change (?x :: ?l) with ([x] ++ l).
    apply shows_bind;
      [apply (shows_download_one is_main_event); rewrite Hw; exact download_errors_logged|].
    intros w1 Hw1. apply IH. congruence.
Qed.
End StagingView.

Lemma main_queue_unknown operation total :
  operation_map operation = None ->
  forall ids idx w, (idx + length ids = total + 1)%nat ->
    shows is_main_event (for_enumerate idx ids (queue_one operation total)) w
          (gaps (length ids)).
Proof.
  intros Hop. induction ids as [|q ids IH]; intros idx w Hlen; cbn [for_enumerate].
  - apply shows_ret.
  - unfold queue_one at 1. rewrite Hop. destruct ids as [|q' ids'].
    + cbn [length] in Hlen. replace (idx <? total)%nat with false
        by (symmetry; apply Nat.ltb_ge; lia).
      cbn [for_enumerate]. change (gaps (length [q])) with (@nil Event ++ []).
      apply shows_bind; [|intros w1 _; apply shows_ret].
      change (@nil Event) with (@nil Event ++ []).
      apply shows_bind; [apply shows_ret | intros w1 _; apply shows_ret].
    + cbn [length] in Hlen. replace (idx <? total)%nat with true
        by (symmetry; apply Nat.ltb_lt; lia).
      change (gaps (length (q :: q' :: ids')))
        with (([] ++ [EvSleep OPERATION_INTERVAL]) ++ gaps (length (q' :: ids'))).
      apply shows_bind.
      * apply shows_bind; [apply shows_ret|]. intros w1 _.
        apply (shows_sleep is_main_event main_thread_event OPERATION_INTERVAL).
        unfold OPERATION_INTERVAL. lia.
      * intros w1 _. apply IH. cbn [length]. lia.
Qed.

Lemma slept_main_view d : slept (main_view d) = slept d.
Proof.
  induction d as [|ev d IH]; [reflexivity|].
  unfold main_view in *. cbn [List.filter].
  destruct ev as [c|ms| | |b|h]; try destruct c; cbn in *; rewrite ?IH; reflexivity.
Qed.

Lemma slept_calls (f : Z -> SdkCall) ids : slept (map (fun q => EvCall (f q)) ids) = 0.
Proof. induction ids as [|q ids IH]; cbn; auto. Qed.

Lemma slept_spaced_calls (f : Z -> SdkCall) ids :
  slept (spaced (map (fun q => EvCall (f q)) ids))
  = OPERATION_INTERVAL * Z.of_nat (length ids - 1).
Proof.
  induction ids as [|q ids IH]; [reflexivity|].
  destruct ids as [|q' ids']; [reflexivity|].
  change (slept (spaced (map (fun q0 => EvCall (f q0)) (q :: q' :: ids'))))
    with (OPERATION_INTERVAL + slept (spaced (map (fun q0 => EvCall (f q0)) (q' :: ids')))).
  rewrite IH. cbn [length]. unfold OPERATION_INTERVAL. lia.
Qed.

Lemma slept_gaps n : slept (gaps n) = OPERATION_INTERVAL * Z.of_nat (n - 1).
Proof.
  unfold gaps. rewrite Nat.sub_1_r. induction (Nat.pred n) as [|k IH]; [reflexivity|].
  cbn [repeat slept]. rewrite IH. lia.
Qed.

(** The registry is the SDK's own: neither the polling thread nor a
    handler changes which handler a channel has. *)
Lemma registry_background r : background_ok (fun w => registry w = r) (fun _ => True).
Proof.
  split.
  - intros w n H. exact H.
  - intros w d _ H. exact H.
  - intros w b H. exact H.
  - intros w t H _. exact H.
  - intros w tk rest H _. split; [exact H|].
    apply ok_tick_any. intros. hnf. intros. exact Logic.I.
  - intros w H. exact H.
  - apply pump_by_deliver; [intros w H; exact H|].
    intros d _. apply (deliver_preserves (fun w => registry w = r) (fun _ => True)).
    + intros l _ w H. exact H.
    + intros w H. exact H.
    + intros h w H. exact H.
    + intros pfid deps _ w H. exact H.
    + intros w H. exact H.
    + intros a rest q _ _. exact I.
  - intros w0 q0 _ _. apply ok_pending_any. intros. hnf. intros. exact Logic.I.
Qed.

Lemma queue_operations_keeps_registry r operation pfids :
  preserves (fun w => registry w = r) (_queue_operations operation pfids).
Proof.
  unfold _queue_operations. apply preserves_for_enumerate.
  intros i x. unfold queue_one. apply preserves_bind.
  - unfold operation_map.
    destruct (String.eqb operation "subscribe");
      [|destruct (String.eqb operation "unsubscribe"); [|apply preserves_ret]];
      intros w H; unfold sdk_call; destruct (sdk_raises _ _ _); exact H.
  - intros _. destruct (_ <? _)%nat; [|apply preserves_ret].
    apply (sleep_preserves _ _ (registry_background r)). intros w ev _ H. exact H.
Qed.

(** X1.  [_queue_operations] with an operation that its [operation_map] does
    not have issues no SDK call; it still sleeps between the identifiers. *)
Theorem queue_operations_unknown_operation :
  forall (operation : string) (pfids : list Z) (w : World),
    operation <> "subscribe" -> operation <> "unsubscribe" ->
    exists w' d,
      _queue_operations operation pfids w = (Ret tt, w') /\
      trace w' = trace w ++ d /\
      main_view d = repeat (EvSleep OPERATION_INTERVAL) (length pfids - 1) /\
      registry w' = registry w.
Proof.
  intros operation pfids w N1 N2.
  assert (Hop : operation_map operation = None).
  { unfold operation_map. apply String.eqb_neq in N1, N2. rewrite N1, N2. reflexivity. }
  destruct (main_queue_unknown operation (length pfids) Hop pfids 1%nat w)
    as (w' & d & H1 & _ & H2 & H3 & _); [lia|].
  exists w', d. split; [exact H1|]. split; [exact H2|].
  split; [rewrite Nat.sub_1_r; exact H3|].
  pose proof (queue_operations_keeps_registry (registry w) operation pfids w eq_refl) as Hr.
  unfold _queue_operations in Hr at 1. unfold _queue_operations in H1.
  rewrite H1 in Hr. exact Hr.
Qed.

Lemma queue_operations_unknown_operation_witness :
  exists w' d,
    _queue_operations "resubscribe" [1; 2; 3] (init_world env_quiet script_stall) = (Ret tt, w') /\
    trace w' = trace (init_world env_quiet script_stall) ++ d /\
    main_view d = repeat (EvSleep OPERATION_INTERVAL) (length [1; 2; 3] - 1) /\
    registry w' = registry (init_world env_quiet script_stall).
Proof.
  apply (queue_operations_unknown_operation "resubscribe" [1; 2; 3]
           (init_world env_quiet script_stall)); discriminate.
Defined.

(** X2.  [_handle_subscribe], when its SDK calls return: it registers the
    subscribe handler, then issues one [SubscribeItem] per identifier, in
    input order, with one 0.1 s sleep between two calls and none after the
    last; when it returns the subscribe handler is the one registered, and
    at least the time slept has elapsed. *)
Theorem handle_subscribe_sequence :
  forall (self : SteamworksSubscriptionHandler) (w : World),
    (forall n c, is_staging_call c = true -> sdk_raises (env w) n c = false) ->
    exists w' d,
      _handle_subscribe self w = (Ret tt, w') /\
      trace w' = trace w ++ d /\
      main_view d =
        EvCall (SetItemSubscribedCallback (cb_operation "subscribe"))
        :: spaced (map (fun q => EvCall (SubscribeItem q)) (pfid_or_pfids self)) /\
      registry w' = register ItemSubscribed (cb_operation "subscribe") (registry w) /\
      clock w + OPERATION_INTERVAL * Z.of_nat (length (pfid_or_pfids self) - 1) <= clock w'.
Proof.
  intros self w H.
  assert (Hs : shows is_main_event (_handle_subscribe self) w
                 (registrations ["subscribe"] ++
                  spaced (map (fun q => EvCall (SubscribeItem q)) (pfid_or_pfids self)))).
  { unfold _handle_subscribe. apply shows_bind; [apply (main_register (env w) H); reflexivity|].
    intros w1 Hw1. apply (main_queue_operations (env w) H "subscribe" SubscribeItem); auto. }
  destruct Hs as (w' & d & H1 & _ & H2 & H3 & H4).
  exists w', d. split; [exact H1|]. split; [exact H2|]. split; [exact H3|]. split.
  - assert (Hreg : _register_callbacks ["subscribe"] w =
                   (Ret tt, sdk_effect (SetItemSubscribedCallback (cb_operation "subscribe"))
                              (with_trace (trace w ++
                                 [EvCall (SetItemSubscribedCallback (cb_operation "subscribe"))]) w))).
    { unfold _register_callbacks, bind, sdk_call. cbn [existsb String.eqb Ascii.eqb Bool.eqb orb ret].
      rewrite (H _ (SetItemSubscribedCallback (cb_operation "subscribe")) eq_refl).
      reflexivity. }
    unfold _handle_subscribe in H1. rewrite (bind_Ret _ _ _ _ _ Hreg) in H1.
    match type of H1 with _ ?w1 = _ =>
      pose proof (queue_operations_keeps_registry (registry w1) "subscribe"
                    (pfid_or_pfids self) w1 eq_refl) as Hr end.
    rewrite H1 in Hr. exact Hr.
  - rewrite <- (slept_main_view d) in H4. unfold main_view in H4. rewrite H3 in H4.
    rewrite slept_app, (slept_spaced_calls SubscribeItem) in H4.
    change (slept (registrations ["subscribe"])) with 0 in H4. lia.
Qed.

Lemma handle_subscribe_sequence_witness :
  exists w' d,
    _handle_subscribe handler_123 (init_world env_quiet script_stall) = (Ret tt, w') /\
    trace w' = trace (init_world env_quiet script_stall) ++ d /\
    main_view d =
      EvCall (SetItemSubscribedCallback (cb_operation "subscribe"))
      :: spaced (map (fun q => EvCall (SubscribeItem q)) (pfid_or_pfids handler_123)) /\
    registry w' = register ItemSubscribed (cb_operation "subscribe")
                    (registry (init_world env_quiet script_stall)) /\
    clock (init_world env_quiet script_stall)
      + OPERATION_INTERVAL * Z.of_nat (length (pfid_or_pfids handler_123) - 1) <= clock w'.
Proof.
  apply (handle_subscribe_sequence handler_123 (init_world env_quiet script_stall)).
  intros n c _. reflexivity.
Defined.

(** X3.  [_handle_unsubscribe], when its SDK calls return: the same with the
    unsubscribe handler and one [UnsubscribeItem] per identifier. *)
Theorem handle_unsubscribe_sequence :
  forall (self : SteamworksSubscriptionHandler) (w : World),
    (forall n c, is_staging_call c = true -> sdk_raises (env w) n c = false) ->
    exists w' d,
      _handle_unsubscribe self w = (Ret tt, w') /\
      trace w' = trace w ++ d /\
      main_view d =
        EvCall (SetItemUnsubscribedCallback (cb_operation "unsubscribe"))
        :: spaced (map (fun q => EvCall (UnsubscribeItem q)) (pfid_or_pfids self)) /\
      registry w' = register ItemUnsubscribed (cb_operation "unsubscribe") (registry w) /\
      clock w + OPERATION_INTERVAL * Z.of_nat (length (pfid_or_pfids self) - 1) <= clock w'.
Proof.
  intros self w H.
  assert (Hs : shows is_main_event (_handle_unsubscribe self) w
                 (registrations ["unsubscribe"] ++
                  spaced (map (fun q => EvCall (UnsubscribeItem q)) (pfid_or_pfids self)))).
  { unfold _handle_unsubscribe.
    apply shows_bind; [apply (main_register (env w) H); reflexivity|].
    intros w1 Hw1. apply (main_queue_operations (env w) H "unsubscribe" UnsubscribeItem); auto. }
  destruct Hs as (w' & d & H1 & _ & H2 & H3 & H4).
  exists w', d. split; [exact H1|]. split; [exact H2|]. split; [exact H3|]. split.
  - assert (Hreg : _register_callbacks ["unsubscribe"] w =
                   (Ret tt, sdk_effect (SetItemUnsubscribedCallback (cb_operation "unsubscribe"))
                              (with_trace (trace w ++
                                 [EvCall (SetItemUnsubscribedCallback (cb_operation "unsubscribe"))]) w))).
    { unfold _register_callbacks, bind, sdk_call. cbn [existsb String.eqb Ascii.eqb Bool.eqb orb ret].
      rewrite (H _ (SetItemUnsubscribedCallback (cb_operation "unsubscribe")) eq_refl).
      reflexivity. }
    unfold _handle_unsubscribe in H1. rewrite (bind_Ret _ _ _ _ _ Hreg) in H1.
    match type of H1 with _ ?w1 = _ =>
      pose proof (queue_operations_keeps_registry (registry w1) "unsubscribe"
                    (pfid_or_pfids self) w1 eq_refl) as Hr end.
    rewrite H1 in Hr. exact Hr.
  - rewrite <- (slept_main_view d) in H4. unfold main_view in H4. rewrite H3 in H4.
    rewrite slept_app, (slept_spaced_calls UnsubscribeItem) in H4.
    change (slept (registrations ["unsubscribe"])) with 0 in H4. lia.
Qed.

Lemma handle_unsubscribe_sequence_witness :
  exists w' d,
    _handle_unsubscribe handler_123 (init_world env_quiet script_stall) = (Ret tt, w') /\
    trace w' = trace (init_world env_quiet script_stall) ++ d /\
    main_view d =
      EvCall (SetItemUnsubscribedCallback (cb_operation "unsubscribe"))
      :: spaced (map (fun q => EvCall (UnsubscribeItem q)) (pfid_or_pfids handler_123)) /\
    registry w' = register ItemUnsubscribed (cb_operation "unsubscribe")
                    (registry (init_world env_quiet script_stall)) /\
    clock (init_world env_quiet script_stall)
      + OPERATION_INTERVAL * Z.of_nat (length (pfid_or_pfids handler_123) - 1) <= clock w'.
Proof.
  apply (handle_unsubscribe_sequence handler_123 (init_world env_quiet script_stall)).
  intros n c _. reflexivity.
Defined.

(** Everything the main flow issues in a resubscribe. *)
Definition resubscribe_events (ids : list Z) : list Event :=
  [EvCall (SetItemUnsubscribedCallback (cb_operation "unsubscribe"));
   EvCall (SetItemSubscribedCallback (cb_operation "subscribe"))] ++
  spaced (map (fun q => EvCall (UnsubscribeItem q)) ids) ++
  [EvSleep RESUBSCRIBE_STAGE_WAIT] ++
  spaced (map (fun q => EvCall (SubscribeItem q)) ids) ++
  [EvSleep RESUBSCRIBE_STAGE_WAIT] ++
  map (fun q => EvCall (DownloadItem q true cb_download true)) ids.

(** X4.  [_handle_resubscribe], when its registration, unsubscribe and
    subscribe calls return and a download call that raises does so with a
    text that the line reporting it can be formatted with: the main flow
    registers both handlers, then issues the unsubscribes, a one second
    sleep, the subscribes, a one second sleep and the downloads; inside
    the first two stages two calls are 0.1 s apart, the downloads follow
    one another without a sleep.  The time it asks to sleep is 2 s plus
    0.2 s for each identifier after the first, and at least that much has
    elapsed when it returns. *)
Theorem handle_resubscribe_events :
  forall (self : SteamworksSubscriptionHandler) (w : World),
    (forall n c, is_staging_call c = true -> sdk_raises (env w) n c = false) ->
    download_errors_plain (env w) ->
    exists w' d,
      _handle_resubscribe self w = (Ret tt, w') /\
      trace w' = trace w ++ d /\
      main_view d = resubscribe_events (pfid_or_pfids self) /\
      slept d = 2 * RESUBSCRIBE_STAGE_WAIT
                + 2 * OPERATION_INTERVAL * Z.of_nat (length (pfid_or_pfids self) - 1) /\
      clock w + slept d <= clock w'.
Proof.
  intros self w H Hd.
  assert (Hs : shows is_main_event (_handle_resubscribe self) w
                 (resubscribe_events (pfid_or_pfids self))).
  { unfold _handle_resubscribe, resubscribe_events.
    apply shows_bind; [apply (main_register (env w) H ["unsubscribe"; "subscribe"]); reflexivity|].
    intros w1 Hw1. apply shows_bind.
    { apply (main_queue_operations (env w) H "unsubscribe" UnsubscribeItem); auto. }
    intros w2 Hw2. apply shows_bind.
    { apply (shows_sleep is_main_event main_thread_event RESUBSCRIBE_STAGE_WAIT).
      unfold RESUBSCRIBE_STAGE_WAIT. lia. }
    intros w3 Hw3. apply shows_bind.
    { apply (main_queue_operations (env w) H "subscribe" SubscribeItem); auto. congruence. }
    intros w4 Hw4. apply shows_bind.
    { apply (shows_sleep is_main_event main_thread_event RESUBSCRIBE_STAGE_WAIT).
      unfold RESUBSCRIBE_STAGE_WAIT. lia. }
    intros w5 Hw5. apply (main_downloads (env w) Hd). congruence. }
  destruct Hs as (w' & d & H1 & _ & H2 & H3 & H4).
  exists w', d. split; [exact H1|]. split; [exact H2|]. split; [exact H3|].
  split; [|exact H4].
  rewrite <- (slept_main_view d). unfold main_view. rewrite H3. unfold resubscribe_events.
  rewrite !slept_app, (slept_spaced_calls UnsubscribeItem), (slept_spaced_calls SubscribeItem),
    (slept_calls (fun q => DownloadItem q true cb_download true)).
  cbn [slept]. lia.
Qed.

Lemma handle_resubscribe_events_witness :
  exists w' d,
    _handle_resubscribe handler_123 (init_world env_download_2_fails script_stall)
      = (Ret tt, w') /\
    trace w' = trace (init_world env_download_2_fails script_stall) ++ d /\
    main_view d = resubscribe_events (pfid_or_pfids handler_123) /\
    slept d = 2 * RESUBSCRIBE_STAGE_WAIT
              + 2 * OPERATION_INTERVAL * Z.of_nat (length (pfid_or_pfids handler_123) - 1) /\
    clock (init_world env_download_2_fails script_stall) + slept d <= clock w'.
Proof.
  apply (handle_resubscribe_events handler_123
           (init_world env_download_2_fails script_stall)).
  - intros n c Hc. destruct c; try discriminate Hc; reflexivity.
  - intros n q _. reflexivity.
Defined.

(** ** Sessions without a polling thread *)

(** X5.  The waiter reads [end_callbacks] and [steamworks_thread], which
    [__init__] creates only with callbacks enabled and, for the thread,
    only when the SDK initialized: on a session opened without callbacks,
    or on one whose platform was unavailable, it raises [AttributeError]
    at its first loop test and changes nothing. *)
Theorem wait_for_callbacks_without_thread :
  forall (cbs : bool) (total : option Z) (libs : option string)
         (e : Env) (s : list Tick) (timeout : Z),
    let w0 := snd (SteamworksInterface_init cbs total libs (init_world e s)) in
    cbs = false \/ steam_not_running (iface w0) = true ->
    _wait_for_callbacks timeout w0 = (Raise AttributeError, w0).
Proof.
  intros cbs total libs e s timeout w0 H. subst w0.
  destruct (sdk_missing e libs) eqn:Em.
  { rewrite (interface_init_missing cbs total libs (init_world e s) Em) in *.
    cbn [snd] in *. destruct H as [->|H]; [reflexivity | discriminate H]. }
  rewrite (interface_init_opened cbs total libs (init_world e s) Em) in *. cbn [snd] in *.
  unfold _wait_for_callbacks, wait_fuel, time. cbn [wait_loop].
  unfold thread_is_alive, get, attr, bind, ret, raise.
  cbn [iface opened end_callbacks steam_not_running steamworks_thread init_world] in *.
  destruct cbs; cbn [negb andb] in *; [|reflexivity].
  destruct H as [H|H]; [discriminate|].
  assert (Ht : steamworks_thread (opened true total (init_world e s)) = NoThread).
  { unfold opened. cbn. rewrite H. reflexivity. }
  rewrite Ht. reflexivity.
Qed.

Lemma wait_for_callbacks_without_thread_witness :
  _wait_for_callbacks 30
    (snd (SteamworksInterface_init true None None (init_world env_no_steam [])))
  = (Raise AttributeError,
     snd (SteamworksInterface_init true None None (init_world env_no_steam []))).
Proof.
  apply (wait_for_callbacks_without_thread true None None env_no_steam [] 30).
  right. reflexivity.
Defined.

(** ** The dependency query when the SDK is not ready *)

(** X6.  With the platform unavailable at open, the query only unloads: its
    events are the creation of the stop flag, [initialize()] and
    [unload()]; no thread exists, and it returns [None] unless [unload()]
    itself raises, in which case that exception leaves [run]. *)
Theorem query_unavailable_platform_unloads :
  forall (self : SteamworksAppDependenciesQuery) (e : Env) (s : list Tick),
    let total := Some (Z.of_nat (length (as_list (query_pfids self)))) in
    let r := DependenciesQuery_run self (init_world e s) in
    steam_not_running
      (iface (snd (SteamworksInterface_init true total (query_libs self)
                     (init_world e s)))) = true ->
    trace (snd r) = [EvSetStop false; EvCall Initialize; EvCall Unload] /\
    steamworks_thread (snd r) = NoThread /\
    ((fst r = Ret None /\ sdk_raises e 2 Unload = false) \/
     (fst r = Raise SteamException /\ sdk_raises e 2 Unload = true)).
Proof.
  intros self e s total r. subst total r.
  destruct (sdk_missing e (query_libs self)) eqn:Em.
  { rewrite (interface_init_missing true _ _ (init_world e s) Em). discriminate. }
  unfold DependenciesQuery_run. cbv zeta.
  rewrite (interface_init_opened true _ _ (init_world e s) Em).
  rewrite (bind_Ret _ _ _ _ _ (interface_init_opened true _ _ (init_world e s) Em)).
  cbn [snd iface opened steam_not_running]. intros Hf.
  unfold bind at 1. cbn [get iface opened steam_not_running]. rewrite Hf. cbn [negb].
  unfold bind, sdk_call, ret, opened. cbn. rewrite Hf. cbn.
  destruct (sdk_raises e 2 Unload); cbn; auto.
Qed.

Lemma query_unavailable_platform_unloads_witness :
  let r := DependenciesQuery_run query_10_20 (init_world env_no_steam []) in
  trace (snd r) = [EvSetStop false; EvCall Initialize; EvCall Unload] /\
  steamworks_thread (snd r) = NoThread /\
  ((fst r = Ret None /\ sdk_raises env_no_steam 2 Unload = false) \/
   (fst r = Raise SteamException /\ sdk_raises env_no_steam 2 Unload = true)).
Proof.
  apply (query_unavailable_platform_unloads query_10_20 env_no_steam []).
  reflexivity.
Defined.

(** X7.  With the SDK object built and the SDK initialized but not loaded
    at the query's single check, [run] returns [None] at once: it has
    issued no query, and it leaves the session as it is, the SDK not
    unloaded and the polling thread started and not joined. *)
Theorem query_not_loaded_leaves_session_open :
  forall (self : SteamworksAppDependenciesQuery) (e : Env) (s : list Tick),
    let total := Some (Z.of_nat (length (as_list (query_pfids self)))) in
    sdk_missing e (query_libs self) = false ->
    steam_not_running
      (iface (snd (SteamworksInterface_init true total (query_libs self)
                     (init_world e s)))) = false ->
    sdk_loaded0 e = false ->
    exists w',
      DependenciesQuery_run self (init_world e s) = (Ret None, w') /\
      trace w' = [EvSetStop false; EvCall Initialize; EvThreadStart; EvCall Loaded] /\
      steamworks_thread w' = WaitingForLoad /\
      script w' = s /\ clock w' = 0.
Proof.
  intros self e s total Em. subst total. unfold DependenciesQuery_run. cbv zeta.
  rewrite (interface_init_opened true _ _ (init_world e s) Em).
  rewrite (bind_Ret _ _ _ _ _ (interface_init_opened true _ _ (init_world e s) Em)).
  cbn [snd iface opened steam_not_running]. intros Hf Hl.
  unfold bind at 1. cbn [get iface opened steam_not_running]. rewrite Hf. cbn [negb].
  unfold loaded, emit, modify, get, bind, ret. cbn. rewrite Hf, Hl. cbn.
  eexists. split; [reflexivity|]. cbn. rewrite Hf. cbn. auto.
Qed.

Lemma query_not_loaded_leaves_session_open_witness :
  exists w',
    DependenciesQuery_run query_10_20 (init_world env_never_loaded script_answers_10)
      = (Ret None, w') /\
    trace w' = [EvSetStop false; EvCall Initialize; EvThreadStart; EvCall Loaded] /\
    steamworks_thread w' = WaitingForLoad /\
    script w' = script_answers_10 /\ clock w' = 0.
Proof.
  apply (query_not_loaded_leaves_session_open query_10_20 env_never_loaded script_answers_10);
    reflexivity.
Defined.

(** ** [SteamworksGameLaunch] *)

Record SteamworksGameLaunch := {
  game_install_path : string;
  args : list string;
  launch_libs : option string
}.

(** [SteamworksGameLaunch.__init__(game_install_path, args, _libs)] *)
Definition GameLaunch_init (path : string) (arguments : list string)
    (_libs : option string) : SteamworksGameLaunch :=
  {| game_install_path := path; args := arguments; launch_libs := _libs |}.

(** The launch succeeded. *)
Definition returned {A} (o : outcome A) : bool :=
  match o with
  | Ret _ => true
  | _ => false
  end.

Section GameLaunch.
(** [app.utils.generic.launch_game_process(game_install_path, args)],
    which starts the game's executable. *)
Variable launch_game_process : string -> list string -> M unit.

(** [SteamworksGameLaunch.run] *)
Definition GameLaunch_run (self : SteamworksGameLaunch) : M unit :=
  SteamworksInterface_init false None (launch_libs self) >>
  launch_game_process (game_install_path self) (args self) >>
  let* s := get iface in
  if negb (steam_not_running s)
  then sdk_call Unload
  else ret tt.
End GameLaunch.

(** The launcher is given neither the session nor the SDK: whatever it
    does, it issues no SDK call and leaves the session object as it
    is. *)
Definition launch_apart (launch : string -> list string -> M unit) : Prop :=
  forall path arguments w,
    env (snd (launch path arguments w)) = env w /\
    iface (snd (launch path arguments w)) = iface w /\
    trace (snd (launch path arguments w)) = trace w /\
    steamworks_thread (snd (launch path arguments w)) = steamworks_thread w.

(** X8.  Once the SDK object is built, the game is launched whether or not
    the SDK initialized, on a session opened without callbacks: there is
    no stop flag and no polling thread.  The only SDK calls of the run
    are [initialize()] and, when it succeeded and the launch returned,
    [unload()].  An exception of the launch leaves [run] as it is, before
    any [unload()]. *)
Theorem game_launch_run :
  forall (launch_game_process : string -> list string -> M unit)
         (self : SteamworksGameLaunch) (e : Env) (s : list Tick),
    launch_apart launch_game_process ->
    sdk_missing e (launch_libs self) = false ->
    let initialized := negb (sdk_raises e 0 Initialize) in
    let launch := launch_game_process (game_install_path self) (args self)
                    (snd (SteamworksInterface_init false None (launch_libs self)
                            (init_world e s))) in
    let r := GameLaunch_run launch_game_process self (init_world e s) in
    trace (snd r) =
      EvCall Initialize
      :: (if returned (fst launch) && initialized then [EvCall Unload] else []) /\
    steamworks_thread (snd r) = NoThread /\
    end_callbacks (iface (snd r)) = None /\
    (returned (fst launch) = false -> r = launch) /\
    (returned (fst launch) = true -> initialized = false -> r = launch).
Proof.
  intros launch_game_process self e s launch_apart0 Em.
  cbv zeta. unfold GameLaunch_run.
  rewrite (interface_init_opened false None _ (init_world e s) Em).
  rewrite (bind_Ret _ _ _ _ _ (interface_init_opened false None _ (init_world e s) Em)).
  cbn [snd]. set (w0 := opened false None (init_world e s)).
  destruct (launch_apart0 (game_install_path self) (args self) w0) as (He & Hi & Ht & Hth).
  assert (Hf : init_failed false (init_world e s) = sdk_raises e 0 Initialize) by reflexivity.
  assert (Htr : trace w0 = [EvCall Initialize]).
  { unfold w0, opened. cbn. rewrite andb_false_r. reflexivity. }
  assert (Hthr : steamworks_thread w0 = NoThread).
  { unfold w0, opened. cbn. rewrite andb_false_r. reflexivity. }
  assert (Hec : end_callbacks (iface w0) = None) by reflexivity.
  destruct (launch_game_process (game_install_path self) (args self) w0) as [o w1] eqn:El.
  cbn [fst snd] in *.
  assert (Hr : forall k : M unit,
            (launch_game_process (game_install_path self) (args self) >> k) w0 =
            match o with
            | Ret _ => k w1
            | Raise x => (Raise x, w1)
            | Blocked => (Blocked, w1)
            | NoFuel => (NoFuel, w1)
            end).
  { intros k. unfold bind. rewrite El. destruct o; reflexivity. }
  rewrite Hr. clear Hr.
  destruct o as [[]|x| |]; cbn [returned andb].
  2-4: (cbn [snd]; rewrite Ht, Hth, Hi, Htr, Hthr, Hec;
        repeat split; try reflexivity; discriminate).
  unfold bind, get. rewrite Hi. change (steam_not_running (iface w0))
    with (init_failed false (init_world e s)). rewrite Hf.
  destruct (sdk_raises e 0 Initialize) eqn:Ei; cbn [negb].
  - cbn [ret fst snd]. rewrite Ht, Hth, Hi, Htr, Hthr, Hec.
    repeat split; try reflexivity; discriminate.
  - unfold sdk_call. destruct (sdk_raises (env w1) _ Unload);
      cbn [snd trace with_trace sdk_effect with_loaded steamworks_thread iface];
      rewrite Ht, Hth, Hi, Htr, Hthr, Hec; repeat split; try reflexivity; discriminate.
Qed.

(** A launcher that only takes time. *)
Definition launch_takes_time (path : string) (arguments : list string) : M unit :=
  modify (fun w => with_clock (clock w + 1500) w).

Definition launch_rimworld : SteamworksGameLaunch :=
  GameLaunch_init "/games/RimWorld" ["-logfile"] None.

Lemma game_launch_run_witness :
  let initialized := negb (sdk_raises env_quiet 0 Initialize) in
  let launch := launch_takes_time (game_install_path launch_rimworld) (args launch_rimworld)
                  (snd (SteamworksInterface_init false None (launch_libs launch_rimworld)
                          (init_world env_quiet []))) in
  let r := GameLaunch_run launch_takes_time launch_rimworld (init_world env_quiet []) in
  trace (snd r) =
    EvCall Initialize
    :: (if returned (fst launch) && initialized then [EvCall Unload] else []) /\
  steamworks_thread (snd r) = NoThread /\
  end_callbacks (iface (snd r)) = None /\
  (returned (fst launch) = false -> r = launch) /\
  (returned (fst launch) = true -> initialized = false -> r = launch).
Proof.
  apply (game_launch_run launch_takes_time launch_rimworld env_quiet []).
  - intros path arguments w. repeat split.
  - reflexivity.
Defined.

(** ** How a run of the orchestrator ends *)

(** The session of a run: its platform, its stop flag and its thread. *)
Definition live (e : Env) (w : World) : Prop := env w = e /\ attached w.

Lemma live_frame e w w' :
  env w' = env w ->
  (end_callbacks (iface w') = end_callbacks (iface w) \/
   exists b, end_callbacks (iface w') = Some b) ->
  (steamworks_thread w' = steamworks_thread w \/ steamworks_thread w' <> NoThread) ->
  live e w -> live e w'.
Proof.
  intros He Hf Ht (H1 & H2 & H3). split; [congruence|]. split.
  - destruct Hf as [->|[b ->]]; [exact H2 | discriminate].
  - destruct Ht as [->|Ht]; auto.
Qed.

Ltac live_frame H := eapply live_frame; [| | |exact H]; cbn; eauto.

Lemma live_background e : background_ok (live e) (fun _ => True).
Proof.
  split.
  - intros w n H. live_frame H.
  - intros w d _ H. live_frame H.
  - intros w b H. live_frame H.
  - intros w t H [Ht _]. live_frame H.
  - intros w tk rest H _. split; [live_frame H|].
    apply ok_tick_any. intros. hnf. intros. exact Logic.I.
  - intros w H. live_frame H.
  - apply pump_by_deliver; [intros w H; live_frame H|].
    intros d _. apply (deliver_preserves (live e) (fun _ => True)).
    + intros l _ w H. live_frame H.
    + intros w H. live_frame H.
    + intros h w H. live_frame H.
    + intros pfid deps _ w H. live_frame H.
    + intros w H. live_frame H.
    + intros a rest q _ _. exact I.
  - intros w0 q0 _ _. apply ok_pending_any. intros. hnf. intros. exact Logic.I.
Qed.

Lemma live_block e w ev :
  ((exists ms, ev = EvSleep ms) \/ exists t, ev = EvJoin t) ->
  live e w -> live e (with_trace (trace w ++ [ev]) w).
Proof. intros _ H. live_frame H. Qed.

Lemma live_sleep e ms : preserves (live e) (sleep ms).
Proof. exact (sleep_preserves _ _ (live_background e) (live_block e) ms). Qed.

Lemma live_log e l : preserves (live e) (log l).
Proof. intros w H. live_frame H. Qed.

Lemma live_loaded e : preserves (live e) loaded.
Proof. intros w H. live_frame H. Qed.

Lemma live_call e c : preserves (live e) (sdk_call c).
Proof.
  intros w H. unfold sdk_call. destruct (sdk_raises _ _ _); [live_frame H|].
  destruct c; live_frame H.
Qed.

Lemma live_assign e : preserves (live e) (assign_end_callbacks true).
Proof. intros w H. live_frame H. Qed.

Lemma live_join_timeout e ms : 0 <= ms -> preserves (live e) (join_timeout ms).
Proof. exact (join_timeout_preserves _ _ (live_background e) (live_block e) ms). Qed.

(** The teardown events issued so far, [unload()] and [join], are [L]. *)
Definition teardown_is (L : list Event) (w : World) : Prop :=
  List.filter is_teardown (trace w) = L.

Lemma teardown_frame L w w' :
  (trace w' = trace w \/ exists ev, is_teardown ev = false /\ trace w' = trace w ++ [ev]) ->
  teardown_is L w -> teardown_is L w'.
Proof.
  unfold teardown_is. intros [->|(ev & Hev & ->)] H; [exact H|].
  rewrite List.filter_app, H. cbn. rewrite Hev. apply app_nil_r.
Qed.

Ltac untorn H :=
  eapply teardown_frame; [|exact H]; cbn;
  first [left; reflexivity | right; eexists; split; [|reflexivity]; reflexivity].

Lemma teardown_background L : background_ok (teardown_is L) (fun _ => True).
Proof.
  split.
  - intros w n H. untorn H.
  - intros w d _ H. untorn H.
  - intros w b H. untorn H.
  - intros w t H [Ht _]. untorn H.
  - intros w tk rest H _. split; [untorn H|].
    apply ok_tick_any. intros. hnf. intros. exact Logic.I.
  - intros w H. untorn H.
  - apply pump_by_deliver; [intros w H; untorn H|].
    intros d _. apply (deliver_preserves (teardown_is L) (fun _ => True)).
    + intros l _ w H. untorn H.
    + intros w H. untorn H.
    + intros h w H. untorn H.
    + intros pfid deps _ w H. untorn H.
    + unfold assign_end_callbacks. apply preserves_bind.
      * apply preserves_modify. intros w H. untorn H.
      * intros _ w H. untorn H.
    + intros a rest q _ _. exact I.
  - intros w0 q0 _ _. apply ok_pending_any. intros. hnf. intros. exact Logic.I.
Qed.

Lemma teardown_sleep L ms : preserves (teardown_is L) (sleep ms).
Proof.
  unfold sleep. destruct (ms <? 0); [apply preserves_raise|].
  apply preserves_bind; [apply preserves_modify; intros w H; untorn H|]. intros _.
  apply preserves_bind; [apply preserves_modify; intros w H; untorn H|]. intros _.
  apply (background_preserves _ _ (teardown_background L)).
Qed.

Lemma teardown_log L l : preserves (teardown_is L) (log l).
Proof. intros w H. untorn H. Qed.

Lemma teardown_loaded L : preserves (teardown_is L) loaded.
Proof. intros w H. untorn H. Qed.

Lemma teardown_assign L b : preserves (teardown_is L) (assign_end_callbacks b).
Proof. intros w H. untorn H. Qed.

(** The SDK calls of staging: registrations, item operations, downloads. *)
Definition is_stage_call (c : SdkCall) : bool :=
  match c with
  | SubscribeItem _ | UnsubscribeItem _
  | SetItemSubscribedCallback (cb_operation _)
  | SetItemUnsubscribedCallback (cb_operation _)
  | DownloadItem _ _ cb_download _ => true
  | _ => false
  end.

Lemma stage_call_orchestrator c : is_stage_call c = true -> is_orchestrator_call c = true.
Proof. destruct c as [| | | |h|h|h| | |p hp h o|]; try destruct h; auto. Qed.

Lemma teardown_stage_call L c :
  is_stage_call c = true -> preserves (teardown_is L) (sdk_call c).
Proof.
  intros Hc w H. unfold sdk_call.
  destruct (sdk_raises _ _ _); destruct c; try discriminate Hc; untorn H.
Qed.

(** *** The guarded part of [run], for an invariant that [unload()] may
    break *)

Section Stages.
Context (I : World -> Prop).

Hypothesis H_sleep : forall ms, preserves I (sleep ms).
Hypothesis H_log : forall l, l <> LogCompleted -> preserves I (log l).
Hypothesis H_call : forall c, is_stage_call c = true -> preserves I (sdk_call c).

Lemma stage_queue_operations operation pfids :
  preserves I (_queue_operations operation pfids).
Proof.
  unfold _queue_operations. apply preserves_for_enumerate.
  intros i x. unfold queue_one. apply preserves_bind.
  - unfold operation_map.
    destruct (String.eqb operation "subscribe"); [apply H_call; reflexivity|].
    destruct (String.eqb operation "unsubscribe"); [apply H_call; reflexivity|].
    apply preserves_ret.
  - intros _. destruct (_ <? _)%nat; [apply H_sleep | apply preserves_ret].
Qed.

Lemma stage_register_callbacks actions : preserves I (_register_callbacks actions).
Proof.
  unfold _register_callbacks. apply preserves_bind.
  - destruct (existsb _ _); [apply H_call; reflexivity | apply preserves_ret].
  - intros _. destruct (existsb _ _); [apply H_call; reflexivity | apply preserves_ret].
Qed.

Lemma stage_handle_action self :
  preserves I
    (if String.eqb (action self) "resubscribe" then _handle_resubscribe self
     else if String.eqb (action self) "subscribe" then _handle_subscribe self
     else if String.eqb (action self) "unsubscribe" then _handle_unsubscribe self
     else ret tt).
Proof.
  destruct (String.eqb _ _).
  { unfold _handle_resubscribe.
    apply preserves_bind; [apply stage_register_callbacks|]. intros _.
    apply preserves_bind; [apply stage_queue_operations|]. intros _.
    apply preserves_bind; [apply H_sleep|]. intros _.
    apply preserves_bind; [apply stage_queue_operations|]. intros _.
    apply preserves_bind; [apply H_sleep|]. intros _.
    apply (preserves_for_each I (fun _ => True)); [|apply Forall_forall; auto].
    intros x _. unfold download_one. apply preserves_try_except.
    - apply H_call; reflexivity.
    - intros x0. apply preserves_log_exc_info, H_log. discriminate. }
  destruct (String.eqb _ _).
  { unfold _handle_subscribe.
    apply preserves_bind; [apply stage_register_callbacks|]. intros _.
    apply stage_queue_operations. }
  destruct (String.eqb _ _).
  { unfold _handle_unsubscribe.
    apply preserves_bind; [apply stage_register_callbacks|]. intros _.
    apply stage_queue_operations. }
  apply preserves_ret.
Qed.

Hypothesis H_stop : preserves I (assign_end_callbacks true).
Hypothesis H_completed : preserves I (log LogCompleted).

Lemma stage_run_guarded self :
  preserves I
    (try_except (run_body self) Exception (fun x => log_exc_info (LogRunError x) x)).
Proof.
  apply preserves_try_except;
    [|intros x; apply preserves_log_exc_info, H_log; discriminate].
  unfold run_body. apply preserves_bind; [apply stage_handle_action|]. intros _.
  apply preserves_bind.
  { apply wait_for_callbacks_preserves; [exact H_sleep | exact H_log | exact H_stop]. }
  intros b. destruct b; [exact H_completed | apply H_log; discriminate].
Qed.
End Stages.

(** The loop of [run] that waits for the SDK returns: [True] having seen
    the SDK loaded, [False] having logged the timeout. *)
Lemma wait_loaded_result fuel : forall start w,
  attached w ->
  seconds STEAMWORKS_TIMEOUT < clock w - start + OPERATION_INTERVAL * Z.of_nat fuel ->
  exists b,
    fst (wait_loaded (S fuel) start w) = Ret b /\
    (b = true -> loaded_flag (snd (wait_loaded (S fuel) start w)) = true) /\
    (b = false -> In LogLoadTimeout (logs (snd (wait_loaded (S fuel) start w)))).
Proof.
  induction fuel as [|fuel IH]; intros start w Ha Hfuel;
    (destruct (loaded_flag w) eqn:El;
     [ exists true; cbn [wait_loaded]; unfold loaded, emit, modify, get, bind; cbn;
       rewrite El; cbn; repeat split; [intros _; exact El | discriminate]
     | rewrite (wait_loaded_step _ _ _ El); cbv zeta;
       destruct (Z.ltb_spec (seconds STEAMWORKS_TIMEOUT) (clock w - start)) as [Hto|Hto];
       [exists false; cbn; repeat split;
        [discriminate | intros _; apply in_or_app; right; left; reflexivity]|] ]).
  - exfalso. unfold OPERATION_INTERVAL in *. lia.
  - set (w1 := with_trace (trace w ++ [EvCall Loaded]) w) in *.
    assert (Hinv1 : wait_inv (clock w1) w1) by (apply attached_wait_inv; exact Ha).
    pose proof (after_sleep_inv _ _ Hinv1) as (Hc & Hf & Ht).
    apply IH; [split; assumption|].
    change (clock w1) with (clock w) in Hc. unfold OPERATION_INTERVAL in *. lia.
Qed.

(** The guarded part of [run] ends: it returns, what staging raised
    having been logged, or the [except] clause raises in its turn, while
    it formats the line it logs. *)
Lemma run_guarded_outcome self w :
  attached w ->
  fst (try_except (run_body self) Exception
         (fun x => log_exc_info (LogRunError x) x) w) = Ret tt \/
  exists y x w1,
    run_body self w = (Raise y, w1) /\
    format_raises (env w1) (length (trace w1)) y = Some x /\
    try_except (run_body self) Exception
      (fun x => log_exc_info (LogRunError x) x) w = (Raise x, w1).
Proof.
  intros Ha. destruct (finishes_run_body self w Ha) as [He _]. unfold try_except.
  destruct (run_body self w) as [[[]|y| |] w1]; cbn in *; try solve [left; reflexivity | destruct He].
  unfold log_exc_info.
  destruct (format_raises (env w1) (length (trace w1)) y) as [x|] eqn:Ef.
  - right. exists y, x, w1. auto.
  - left. reflexivity.
Qed.

Lemma join_timeout_returns ms w : attached w -> fst (join_timeout ms w) = Ret tt.
Proof.
  intros Ha. unfold join_timeout.
  assert (H1 : live (env w) (with_trace (trace w ++ [EvJoin (Some ms)]) w)).
  { apply live_block; [eauto | split; [reflexivity | exact Ha]]. }
  apply (settle_preserves _ _ (live_background (env w))) in H1.
  unfold bind at 1. cbn [emit modify]. unfold bind at 1.
  unfold settle at 1, modify at 1. cbn [fst snd] in *.
  destruct H1 as (_ & _ & Ht).
  unfold thread_is_alive, get, bind, ret, raise.
  destruct (steamworks_thread _) eqn:Et; [congruence| | | | |]; cbn; try reflexivity;
    match goal with |- context [background ?x] =>
      pose proof (background_Ret x) as Hb; destruct (background x) as [o w1]
    end; cbn in Hb; subst o; reflexivity.
Qed.

(** A [join(timeout)] is one teardown event. *)
Lemma join_timeout_teardown L ms w :
  teardown_is L w -> teardown_is (L ++ [EvJoin (Some ms)]) (snd (join_timeout ms w)).
Proof.
  intros H.
  assert (H1 : teardown_is (L ++ [EvJoin (Some ms)])
                 (with_trace (trace w ++ [EvJoin (Some ms)]) w)).
  { unfold teardown_is in *. cbn. rewrite List.filter_app, H. reflexivity. }
  revert H1. unfold join_timeout. unfold bind at 1. cbn [emit modify].
  generalize (with_trace (trace w ++ [EvJoin (Some ms)]) w).
  apply preserves_bind; [apply (settle_preserves _ _ (teardown_background _))|]. intros _.
  apply preserves_bind; [apply thread_is_alive_preserves|]. intros alive.
  destruct (negb alive); [apply preserves_ret|].
  apply preserves_bind; [|intros _; apply (background_preserves _ _ (teardown_background _))].
  apply preserves_modify. intros w0 H0. untorn H0.
Qed.

(** The [finally] block of [run] comes down to its [unload()], made on
    the same platform, after a [join(timeout=5)] when the thread is
    alive. *)
Lemma run_cleanup_unloads w :
  attached w ->
  exists w1, run_cleanup w = sdk_call Unload w1 /\ env w1 = env w /\
    (teardown_is [] w ->
     teardown_is (if is_alive (steamworks_thread w)
                  then [EvJoin (Some (seconds 5))] else []) w1).
Proof.
  intros Ha. unfold run_cleanup. unfold bind at 1, get at 1.
  destruct (steamworks_thread w) eqn:Et; cbn [is_alive].
  1,5,6: (exists w; split; [reflexivity|split; [reflexivity|auto]]).
  all: pose proof (join_timeout_returns (seconds 5) w Ha) as Hj;
    pose proof (live_join_timeout (env w) (seconds 5) ltac:(unfold seconds; lia) w
                  (conj eq_refl Ha)) as [He _];
    pose proof (join_timeout_teardown [] (seconds 5) w) as Htd;
    unfold bind;
    destruct (join_timeout (seconds 5) w) as [o w1]; cbn in Hj, He, Htd; subst o;
    exists w1; split; [reflexivity | split; [exact He | exact Htd]].
Qed.

(** The exception is one that formatting a log line raised. *)
Definition formatting_error (e : Env) (x : exn) : Prop :=
  exists n y, format_raises e n y = Some x.

(** The ways a run ends: in the constructor of the SDK object; without
    teardown after the load timeout; or with [unload()] as its last
    event, preceded by at most one [join]. *)
Definition run_end (e : Env) (libs : option string) (r : outcome unit * World) : Prop :=
  (sdk_missing e libs = true /\ fst r = Raise SteamException /\
   trace (snd r) = [EvSetStop false]) \/
  (fst r = Ret tt /\ In LogLoadTimeout (logs (snd r)) /\
   List.filter is_teardown (trace (snd r)) = []) \/
  (exists pre,
     trace (snd r) = pre ++ [EvCall Unload] /\
     (List.filter is_teardown (trace (snd r)) = [EvCall Unload] \/
      List.filter is_teardown (trace (snd r)) = [EvJoin (Some 5000); EvCall Unload]) /\
     ((sdk_raises e (length pre) Unload = true /\ fst r = Raise SteamException) \/
      (sdk_raises e (length pre) Unload = false /\
       (fst r = Ret tt \/ exists x, formatting_error e x /\ fst r = Raise x)))).

Lemma unload_run_end e libs w J (k : M unit) (o : outcome unit) :
  env w = e -> teardown_is J w -> J = [] \/ J = [EvJoin (Some 5000)] ->
  (forall w', k w' = (o, w')) ->
  o = Ret tt \/ (exists x, formatting_error e x /\ o = Raise x) ->
  run_end e libs ((sdk_call Unload >> k) w).
Proof.
  intros He HJ HJ' Hk Ho. right. right. exists (trace w). unfold teardown_is in HJ.
  assert (Htd : forall w', trace w' = trace w ++ [EvCall Unload] ->
            List.filter is_teardown (trace w') = [EvCall Unload] \/
            List.filter is_teardown (trace w') = [EvJoin (Some 5000); EvCall Unload]).
  { intros w' ->. rewrite List.filter_app, HJ. destruct HJ' as [->| ->]; cbn; auto. }
  unfold bind, sdk_call. rewrite He.
  destruct (sdk_raises e (length (trace w)) Unload); [|rewrite Hk]; cbn [fst snd];
    (split; [reflexivity|]); (split; [apply Htd; reflexivity|]); auto.
Qed.

Lemma run_run_end self e s :
  run_end e (handler_libs self) (SubscriptionHandler_run self (init_world e s)).
Proof.
  destruct (sdk_missing e (handler_libs self)) eqn:Em.
  { rewrite (run_missing self e s Em). left. auto. }
  unfold SubscriptionHandler_run.
  rewrite (bind_Ret _ _ _ _ _ (interface_init_opened true None _ (init_world e s) Em)).
  unfold bind at 1. cbn [get iface opened steam_not_running].
  destruct (init_failed true (init_world e s)) eqn:Ef.
  { rewrite (bind_Ret _ _ _ tt
               (with_logs (logs (opened true None (init_world e s)) ++ [LogNotRunning])
                  (opened true None (init_world e s)))) by reflexivity.
    assert (Hu : run_end e (handler_libs self)
              ((sdk_call Unload >> ret tt)
                 (with_logs (logs (opened true None (init_world e s)) ++ [LogNotRunning])
                    (opened true None (init_world e s))))).
    { apply (unload_run_end e _ _ [] (ret tt) (Ret tt)); auto.
      unfold teardown_is, opened. rewrite Ef. reflexivity. }
    revert Hu. unfold bind, sdk_call. destruct (sdk_raises _ _ _); auto. }
  assert (H0 : live e (opened true None (init_world e s))).
  { unfold opened. rewrite Ef. split; [reflexivity|]. split; cbn; discriminate. }
  assert (N0 : teardown_is [] (opened true None (init_world e s))).
  { unfold teardown_is, opened. rewrite Ef. reflexivity. }
  revert H0 N0. generalize (opened true None (init_world e s)). intros w H0 N0.
  unfold time. unfold bind at 1. cbn [get]. change load_fuel with (S 301).
  destruct (wait_loaded_result 301 (clock w) w (proj2 H0)) as (b & Hb & Hl & Hlog).
  { unfold seconds, STEAMWORKS_TIMEOUT, OPERATION_INTERVAL. lia. }
  assert (H1 : live e (snd (wait_loaded (S 301) (clock w) w))).
  { apply wait_loaded_preserves; auto using live_sleep, live_loaded.
    intros l _. apply live_log. }
  assert (N1 : teardown_is [] (snd (wait_loaded (S 301) (clock w) w))).
  { apply wait_loaded_preserves; auto using teardown_sleep, teardown_loaded.
    intros l _. apply teardown_log. }
  unfold bind at 1. destruct (wait_loaded (S 301) (clock w) w) as [o w1].
  cbn [fst snd] in *. subst o. destruct b; cbn [negb].
  2:{ right. left. cbn. auto. }
  unfold try_finally.
  pose proof (run_guarded_outcome self w1 (proj2 H1)) as Hg.
  assert (H2 : live e (snd (try_except (run_body self) Exception
                              (fun x => log_exc_info (LogRunError x) x) w1))).
  { apply stage_run_guarded; auto using live_sleep, live_call, live_assign, live_log. }
  assert (N2 : teardown_is [] (snd (try_except (run_body self) Exception
                                      (fun x => log_exc_info (LogRunError x) x) w1))).
  { apply stage_run_guarded;
      auto using teardown_sleep, teardown_stage_call, teardown_assign, teardown_log. }
  destruct (try_except (run_body self) Exception
              (fun x => log_exc_info (LogRunError x) x) w1) as [o w2].
  cbn [fst snd] in *.
  destruct (run_cleanup_unloads w2 (proj2 H2)) as (w3 & Hc & He3 & Htd).
  assert (He : env w3 = e) by (destruct H2; congruence).
  assert (HJ : (if is_alive (steamworks_thread w2)
                then [EvJoin (Some (seconds 5))] else [])
               = [] \/
               (if is_alive (steamworks_thread w2)
                then [EvJoin (Some (seconds 5))] else [])
               = [EvJoin (Some 5000)]).
  { destruct (is_alive _); auto. }
  destruct Hg as [->|(y & x & w1' & Hb' & Hf & Hg)].
  - assert (Hu : run_end e (handler_libs self) ((sdk_call Unload >> ret tt) w3)).
    { apply (unload_run_end e _ w3 _ (ret tt) (Ret tt) He (Htd N2) HJ); auto. }
    unfold bind at 1. rewrite Hc. exact Hu.
  - injection Hg as -> ->.
    assert (Hu : run_end e (handler_libs self) ((sdk_call Unload >> raise x) w3)).
    { apply (unload_run_end e _ w3 _ (raise x) (Raise x) He (Htd N2) HJ); [reflexivity|].
      right. exists x. split; [|reflexivity].
      exists (length (trace w1')), y. destruct H2 as [<- _]. exact Hf. }
    unfold bind at 1. rewrite Hc. exact Hu.
Qed.

(** An SDK whose [SubscribeItem(7)] raises with a text that holds a
    replacement field without a name, such as [{}]: formatting the line
    that reports it raises [IndexError]. *)
Definition env_subscribe_7_braces : Env :=
  {| sdk_raises := fun _ c => match c with SubscribeItem 7 => true | _ => false end;
     sdk_loaded0 := true;
     sdk_missing := fun _ => false;
     format_raises := fun _ x => match x with SteamException => Some IndexError | _ => None end;
     reading_short := fun _ _ => false |}.

(** X9.  How any run of the orchestrator ends.  It ends in the constructor
    of the SDK object, which raises before [initialize()].  Or it gives up
    waiting for the SDK to load: it then returns with the timeout logged
    and without any teardown, no [unload()] and no [join].  Or the last
    thing it does is [unload()], its only one, preceded by at most a
    [join(timeout=5)] of the polling thread; the exception of an
    [unload()] that raises leaves [run]; when [unload()] returns, the run
    returns normally, what staging raised having been logged, unless the
    [except] clause itself raised while it formatted that line: that
    exception leaves [run] after the cleanup. *)
Theorem run_ends_with_unload_or_load_timeout :
  forall (self : SteamworksSubscriptionHandler) (e : Env) (s : list Tick),
    let r := SubscriptionHandler_run self (init_world e s) in
    (sdk_missing e (handler_libs self) = true /\ fst r = Raise SteamException /\
     trace (snd r) = [EvSetStop false]) \/
    (fst r = Ret tt /\ In LogLoadTimeout (logs (snd r)) /\
     List.filter is_teardown (trace (snd r)) = []) \/
    (exists pre,
       trace (snd r) = pre ++ [EvCall Unload] /\
       (List.filter is_teardown (trace (snd r)) = [EvCall Unload] \/
        List.filter is_teardown (trace (snd r)) = [EvJoin (Some 5000); EvCall Unload]) /\
       ((sdk_raises e (length pre) Unload = true /\ fst r = Raise SteamException) \/
        (sdk_raises e (length pre) Unload = false /\
         (fst r = Ret tt \/ exists x, formatting_error e x /\ fst r = Raise x)))).
Proof. intros self e s. exact (run_run_end self e s). Qed.

(** The run of the last case: [SubscribeItem(7)] raises, the [except]
    clause raises [IndexError] while it formats its line, the cleanup
    joins and unloads, and [IndexError] leaves [run], nothing having been
    logged of the failure. *)
Example run_raises_after_cleanup :
  let r := SubscriptionHandler_run handler_7 (init_world env_subscribe_7_braces script_stall) in
  fst r = Raise IndexError /\
  List.filter is_teardown (trace (snd r)) = [EvJoin (Some 5000); EvCall Unload] /\
  (forall x, ~ In (LogRunError x) (logs (snd r))).
Proof.
  vm_compute. repeat split. intros x H.
  repeat (destruct H as [H|H]; [discriminate H|]). exact H.
Qed.

(** ** The callback counter *)

(** The handler invocations that [callbacks_count] counts: all but those
    of the download callback, which does not touch the counter. *)
Definition is_counted (ev : Event) : bool :=
  match ev with
  | EvCallback (cb_operation _) | EvCallback cb_app_dependencies => true
  | _ => false
  end.

Definition counted (w : World) : Prop :=
  callbacks_count (iface w) = Z.of_nat (length (List.filter is_counted (trace w))).

Lemma counted_frame w w' :
  callbacks_count (iface w') = callbacks_count (iface w) ->
  (trace w' = trace w \/ exists ev, is_counted ev = false /\ trace w' = trace w ++ [ev]) ->
  counted w -> counted w'.
Proof.
  unfold counted. intros Hc [->|(ev & Hev & ->)] H; [congruence|].
  rewrite List.filter_app. cbn. rewrite Hev, app_nil_r. congruence.
Qed.

Ltac count_frame H :=
  eapply counted_frame; [| |exact H]; cbn;
  first [reflexivity | left; reflexivity | right; eexists; split; [|reflexivity]; reflexivity].

(** Whatever its payload, and whether it returns or raises, the
    dependency handler has counted itself once. *)
Lemma dependency_callback_counts args w :
  callbacks_count (iface (snd (_cb_app_dependencies_result_callback args w)))
    = callbacks_count (iface w) + 1 /\
  List.filter is_counted (trace (snd (_cb_app_dependencies_result_callback args w)))
    = List.filter is_counted (trace w).
Proof.
  unfold _cb_app_dependencies_result_callback, first_arg, attr, assign_end_callbacks,
    modify_iface, emit, log, modify, get, bind, ret, raise.
  destruct args as [|a rest]; cbn; [auto|].
  destruct (result a); cbn; [|auto].
  destruct (publishedFileId a); cbn; [|auto].
  destruct (app_dependencies_list a) as [deps|]; cbn; [|auto].
  destruct (0 <? Z.of_nat (length deps)); cbn;
    (destruct (multiple_queries (iface w)) as [[|]|]; cbn; [| |auto]);
    try (destruct (count_is_total _ _); cbn);
    rewrite ?List.filter_app; cbn; rewrite ?app_nil_r; auto.
Qed.

Lemma counted_deliver d : preserves counted (deliver d).
Proof.
  intros w H. unfold deliver, bind, get. cbn [fst snd].
  destruct (registered d.1 (registry w)) as [h|]; [|exact H].
  cbn [emit modify].
  set (w1 := with_trace (trace w ++ [EvCallback h]) w).
  destruct h as [operation| |]; cbn [invoke].
  - destruct (create_callback_never_raises operation d.2 w1) as (w' & -> & Hc & _ & Ht).
    unfold counted in *. cbn [snd]. rewrite Hc, Ht. cbn.
    rewrite List.filter_app, length_app. cbn. lia.
  - destruct (create_download_callback_never_raises d.2 w1) as (w' & -> & Hi & Ht).
    unfold counted in *. cbn [snd]. rewrite Hi, Ht. cbn.
    rewrite List.filter_app. cbn. rewrite app_nil_r. exact H.
  - destruct (dependency_callback_counts d.2 w1) as [Hc Ht].
    unfold counted in *. rewrite Hc, Ht. cbn.
    rewrite List.filter_app, length_app. cbn. lia.
Qed.

Lemma counted_background : background_ok counted (fun _ => True).
Proof.
  split.
  - intros w n H. count_frame H.
  - intros w d _ H. count_frame H.
  - intros w b H. count_frame H.
  - intros w t H [Ht _]. count_frame H.
  - intros w tk rest H _. split; [count_frame H|].
    apply ok_tick_any. intros. hnf. intros. exact Logic.I.
  - intros w H. count_frame H.
  - apply pump_by_deliver; [intros w H; count_frame H|].
    intros d _. apply counted_deliver.
  - intros w0 q0 _ _. apply ok_pending_any. intros. hnf. intros. exact Logic.I.
Qed.

Lemma counted_block w ev :
  ((exists ms, ev = EvSleep ms) \/ exists t, ev = EvJoin t) ->
  counted w -> counted (with_trace (trace w ++ [ev]) w).
Proof.
  intros He H. eapply counted_frame; [| |exact H]; [reflexivity|].
  right. exists ev. split; [|reflexivity]. destruct He as [[ms ->]|[t ->]]; reflexivity.
Qed.

Lemma counted_sleep ms : preserves counted (sleep ms).
Proof. exact (sleep_preserves _ _ counted_background counted_block ms). Qed.

Lemma counted_log l : preserves counted (log l).
Proof. intros w H. count_frame H. Qed.

Lemma counted_loaded : preserves counted loaded.
Proof. intros w H. count_frame H. Qed.

Lemma counted_call c : preserves counted (sdk_call c).
Proof.
  intros w H. unfold sdk_call. destruct (sdk_raises _ _ _); [count_frame H|].
  destruct c; count_frame H.
Qed.

Lemma counted_assign b : preserves counted (assign_end_callbacks b).
Proof. intros w H. count_frame H. Qed.

Lemma counted_opened total e s : counted (opened true total (init_world e s)).
Proof.
  unfold counted, opened. cbn. destruct (negb _ && true); reflexivity.
Qed.

(** X10.  In a run of the orchestrator and in a dependency query alike, the
    session's [callbacks_count] is, when the run ends, the number of
    times the polling thread entered a subscribe, unsubscribe or
    dependency handler: every such invocation is counted once, whatever
    its payload and whether or not the handler raised, and the download
    callback is not counted. *)
Theorem callbacks_count_is_number_of_invocations :
  forall (e : Env) (s : list Tick),
    (forall self : SteamworksSubscriptionHandler,
       let w' := snd (SubscriptionHandler_run self (init_world e s)) in
       callbacks_count (iface w') = Z.of_nat (length (List.filter is_counted (trace w')))) /\
    (forall self : SteamworksAppDependenciesQuery,
       let w' := snd (DependenciesQuery_run self (init_world e s)) in
       callbacks_count (iface w') = Z.of_nat (length (List.filter is_counted (trace w')))).
Proof.
  intros e s. split; intros self; cbv zeta.
  - change (counted (snd (SubscriptionHandler_run self (init_world e s)))).
    destruct (sdk_missing e (handler_libs self)) eqn:Em.
    { rewrite (run_missing self e s Em). reflexivity. }
    unfold SubscriptionHandler_run.
    rewrite (bind_Ret _ _ _ _ _ (interface_init_opened true None _ (init_world e s) Em)).
    generalize (counted_opened None e s).
    generalize (opened true None (init_world e s)). intros w H0.
    revert w H0. apply preserves_bind; [apply preserves_get|]. intros st.
    destruct (steam_not_running st).
    { apply preserves_bind; [apply counted_log|]. intros _. apply counted_call. }
    apply preserves_bind; [apply preserves_get|]. intros t0.
    apply preserves_bind.
    { apply wait_loaded_preserves;
        [apply counted_sleep | intros l _; apply counted_log | apply counted_loaded]. }
    intros ready. destruct ready; cbn [negb]; [|apply preserves_ret].
    apply run_guarded_preserves.
    + apply counted_sleep.
    + intros l _. apply counted_log.
    + intros c _. apply counted_call.
    + exact (join_timeout_preserves _ _ counted_background counted_block).
    + apply counted_assign.
    + apply counted_log.
  - change (counted (snd (DependenciesQuery_run self (init_world e s)))).
    destruct (sdk_missing e (query_libs self)) eqn:Em.
    { rewrite (query_run_missing self e s Em). reflexivity. }
    unfold DependenciesQuery_run. cbv zeta.
    rewrite (bind_Ret _ _ _ _ _ (interface_init_opened true _ _ (init_world e s) Em)).
    generalize (counted_opened (Some (Z.of_nat (length (as_list (query_pfids self))))) e s).
    generalize (opened true (Some (Z.of_nat (length (as_list (query_pfids self)))))
                  (init_world e s)). intros w H0.
    revert w H0. apply preserves_bind; [apply preserves_get|]. intros st.
    destruct (negb (steam_not_running st)).
    2:{ apply preserves_bind; [apply counted_call|]. intros _. apply preserves_ret. }
    apply preserves_bind; [apply counted_loaded|]. intros l.
    destruct (negb l); [apply preserves_ret|].
    apply preserves_bind.
    { apply (preserves_for_each counted (fun _ => True)); [|apply Forall_forall; auto].
      intros x _. unfold query_one.
      apply preserves_bind; [apply counted_call|]. intros _.
      apply preserves_bind; [apply counted_call|]. intros _.
      destruct (_ <? _)%nat; [apply counted_sleep | apply preserves_ret]. }
    intros _. apply preserves_bind.
    { apply wait_for_callbacks_preserves;
        [apply counted_sleep | intros l0 _; apply counted_log | apply counted_assign]. }
    intros _. apply preserves_bind.
    { exact (join_preserves _ _ counted_background counted_block). }
    intros _. apply preserves_bind; [apply preserves_get|]. intros s'. apply preserves_ret.
Qed.

(** ** The waiter is bounded *)

Definition is_sleep_event (ev : Event) : bool :=
  match ev with
  | EvSleep _ => true
  | _ => false
  end.





(** A platform on which the readings at 2.3 s and at 32.3 s differ by less
    than 30, as the floats [32.3 - 2.3] do. *)
Definition env_rounding : Env :=
  {| sdk_raises := fun _ _ => false; sdk_loaded0 := true;
     sdk_missing := fun _ => false; format_raises := fun _ _ => None;
     reading_short := fun start now => (start =? 2300) && (now =? 32300) |}.

(** The bound is reached: called at 2.3 s with a timeout of 30 s, with
    sleeps of exactly 0.1 s and no notification, the waiter sleeps 301
    times and answers [False] at 32.4 s. *)
Example wait_for_callbacks_sleeps_301 :
  let w := with_clock 2300 (opened true None (init_world env_rounding [])) in
  let r := _wait_for_callbacks 30 w in
  fst r = Ret false /\
  List.filter is_sleep_event (trace (snd r)) = repeat (EvSleep OPERATION_INTERVAL) 301 /\
  clock (snd r) = 32400.
Proof. vm_compute. repeat split. Qed.

(** ** What the dependency handler records *)

(** X12.  On a well-formed answer the dependency handler returns, and the
    result map then holds the answer's list under its identifier, in
    place of any earlier list, unless the list is empty: an empty list
    records nothing and leaves an earlier entry in place.  Other
    identifiers keep what they had.  On a session that expects a single
    callback, the handler sets the stop flag whatever the count. *)
Theorem dependency_answer_is_recorded :
  forall (w : World) (a : CallbackObj) (rest : list CallbackObj)
         (r p : Z) (deps : list Z) (multiple : bool),
    multiple_queries (iface w) = Some multiple ->
    result a = Some r -> publishedFileId a = Some p ->
    app_dependencies_list a = Some deps ->
    let w' := snd (_cb_app_dependencies_result_callback (a :: rest) w) in
    let before := get_app_deps_query_result (iface w) in
    let after := get_app_deps_query_result (iface w') in
    fst (_cb_app_dependencies_result_callback (a :: rest) w) = Ret tt /\
    after !! p = (match deps with [] => before !! p | _ :: _ => Some deps end) /\
    (forall q, q <> p -> after !! q = before !! q) /\
    (multiple = false -> end_callbacks (iface w') = Some true).
Proof.
  intros w a rest r p deps multiple Hm Hr Hp Hd. cbv zeta.
  unfold _cb_app_dependencies_result_callback, first_arg, assign_end_callbacks,
    modify_iface, emit, log, modify, get, bind, ret.
  rewrite Hr, Hp, Hd. cbn [attr ret bind fst snd].
  destruct deps as [|x deps].
  - change (0 <? Z.of_nat (length (@nil Z))) with false. cbn. rewrite Hm. cbn.
    destruct multiple; cbn; [destruct (count_is_total _ _); cbn|];
      repeat split; auto; discriminate.
  - replace (0 <? Z.of_nat (length (x :: deps))) with true
      by (symmetry; apply Z.ltb_lt; cbn [length]; lia).
    cbn. rewrite Hm. cbn.
    destruct multiple; cbn; [destruct (count_is_total _ _); cbn|];
      repeat split; auto; try discriminate;
      try (apply lookup_insert_eq);
      try (intros q Hq; apply lookup_insert_ne; congruence).
Qed.

Lemma dependency_answer_is_recorded_witness :
  let w := snd (SteamworksInterface_init true (Some 2) None (init_world env_quiet [])) in
  let a := dependencies_payload 10 [294100] in
  let w' := snd (_cb_app_dependencies_result_callback [a] w) in
  let before := get_app_deps_query_result (iface w) in
  let after := get_app_deps_query_result (iface w') in
  fst (_cb_app_dependencies_result_callback [a] w) = Ret tt /\
  after !! 10 = Some [294100] /\
  (forall q, q <> 10 -> after !! q = before !! q) /\
  (true = false -> end_callbacks (iface w') = Some true).
Proof.
  apply (dependency_answer_is_recorded
           (snd (SteamworksInterface_init true (Some 2) None (init_world env_quiet [])))
           (dependencies_payload 10 [294100]) [] 1 10 [294100] true); reflexivity.
Defined.

(** ** A query for no identifier *)

(** The requests for items: the per-item operations and the dependency
    queries with their registration. *)
Definition is_request (ev : Event) : bool :=
  match ev with
  | EvCall (GetAppDependencies _) | EvCall (SetGetAppDependenciesResultCallback _) => true
  | _ => is_item_call ev
  end.

(** A loaded session on which nothing was requested and no handler is
    registered: its result map is empty. *)
Definition idle (e : Env) (c : Z) (w : World) : Prop :=
  env w = e /\ c <= clock w /\ loaded_flag w = true /\ attached w /\
  registry w = no_handlers /\ get_app_deps_query_result (iface w) = ∅ /\
  List.filter is_request (trace w) = [].

Lemma idle_frame e c w w' :
  env w' = env w -> clock w <= clock w' -> loaded_flag w' = true ->
  (end_callbacks (iface w') = end_callbacks (iface w) \/
   exists b, end_callbacks (iface w') = Some b) ->
  (steamworks_thread w' = steamworks_thread w \/ steamworks_thread w' <> NoThread) ->
  registry w' = registry w ->
  get_app_deps_query_result (iface w') = get_app_deps_query_result (iface w) ->
  (trace w' = trace w \/ exists ev, is_request ev = false /\ trace w' = trace w ++ [ev]) ->
  idle e c w -> idle e c w'.
Proof.
  intros He Hc Hl Hf Ht Hr Hm Htr (H1 & H2 & H3 & [H4 H5] & H6 & H7 & H8).
  split; [congruence|]. split; [lia|]. split; [exact Hl|]. split; [split|].
  - destruct Hf as [->|[b ->]]; [exact H4 | discriminate].
  - destruct Ht as [->|Ht]; auto.
  - split; [congruence|]. split; [congruence|].
    destruct Htr as [->|(ev & Hev & ->)]; [exact H8|].
    rewrite List.filter_app, H8. cbn. rewrite Hev. reflexivity.
Qed.

Ltac idle_frame H :=
  let Hl := fresh "Hl" in
  pose proof H as (_ & _ & Hl & _);
  eapply idle_frame; [..|exact H]; cbn; rewrite ?Hl; eauto; try lia;
  try (right; eexists; split; [|reflexivity]; reflexivity).

Lemma deliver_unregistered d w : registry w = no_handlers -> deliver d w = (Ret tt, w).
Proof.
  intros Hr. unfold deliver, bind, get. cbn. rewrite Hr. destruct d as [[| | |] args]; reflexivity.
Qed.

Lemma idle_background e c : background_ok (idle e c) (fun _ => True).
Proof.
  split.
  - intros w n H. idle_frame H.
  - intros w d Hd H. idle_frame H.
  - intros w b H. idle_frame H.
  - intros w t H [Ht _]. idle_frame H.
  - intros w tk rest H _. split; [idle_frame H|].
    apply ok_tick_any. intros. hnf. intros. exact Logic.I.
  - intros w H. idle_frame H.
  - apply pump_by_deliver; [intros w H; idle_frame H|].
    intros d _ w H. rewrite deliver_unregistered; [exact H | apply H].
  - intros w0 q0 _ _. apply ok_pending_any. intros. hnf. intros. exact Logic.I.
Qed.

Lemma idle_block e c w ev :
  ((exists ms, ev = EvSleep ms) \/ exists t, ev = EvJoin t) ->
  idle e c w -> idle e c (with_trace (trace w ++ [ev]) w).
Proof.
  intros He H. pose proof H as (_ & _ & Hl & _).
  eapply idle_frame; [..|exact H]; cbn; eauto; try lia.
  right. exists ev. split; [|reflexivity]. destruct He as [[ms ->]|[t ->]]; reflexivity.
Qed.

Lemma after_sleeps_idle e c k : forall w, idle e c w -> idle e c (after_sleeps k w).
Proof.
  induction k as [|k IH]; intros w H; cbn [after_sleeps]; [exact H|].
  apply IH. apply (sleep_preserves _ _ (idle_background e c) (idle_block e c)), H.
Qed.

Section IdleThread.
Context (e : Env).
Hypothesis pump_returns : forall n, sdk_raises e n RunCallbacks = false.

(** With no handler registered and a pump that returns, the polling
    thread stays alive and the stop flag stays unset. *)
Definition polling_idle (w : World) : Prop :=
  env w = e /\ loaded_flag w = true /\ registry w = no_handlers /\
  end_callbacks (iface w) = Some false /\ is_alive (steamworks_thread w) = true.

Lemma for_each_deliver_unregistered pending w :
  registry w = no_handlers -> for_each pending deliver w = (Ret tt, w).
Proof.
  intros Hr. induction pending as [|d pending IH]; [reflexivity|].
  cbn [for_each]. rewrite (bind_Ret _ _ _ _ _ (deliver_unregistered d w Hr)). exact IH.
Qed.

Lemma polling_idle_pump pending w : polling_idle w -> polling_idle (_callbacks_pump pending w).
Proof.
  intros (He & Hl & Hr & Hf & Ha). unfold _callbacks_pump, run_callbacks, sdk_call.
  unfold bind at 1. rewrite He, pump_returns. cbn [sdk_effect].
  rewrite for_each_deliver_unregistered by exact Hr.
  repeat split; cbn; auto.
Qed.

Lemma polling_idle_test pending w :
  polling_idle w -> polling_idle (_callbacks_test pending w) /\
                    steamworks_thread (_callbacks_test pending w) = Pumping pending.
Proof.
  intros (He & Hl & Hr & Hf & Ha). unfold _callbacks_test. rewrite Hf.
  repeat split; cbn; auto.
Qed.

Lemma polling_idle_turn pending w : polling_idle w -> polling_idle (_callbacks_turn pending w).
Proof.
  intros H. pose proof H as (He & Hl & Hr & Hf & Ha). unfold _callbacks_turn.
  destruct (steamworks_thread w) eqn:Et; try discriminate Ha.
  - unfold loaded, emit, modify, get, bind. cbn. rewrite Hl.
    repeat split; assumption.
  - destruct (polling_idle_test pending w H) as [H1 ->]. apply polling_idle_pump, H1.
  - apply polling_idle_pump, H.
Qed.

Lemma polling_idle_background w : polling_idle w -> polling_idle (snd (background w)).
Proof.
  intros H. unfold background. destruct (script w) as [|tk rest]; [exact H|]. cbn [snd].
  assert (H1 : polling_idle (with_script rest
                 (with_clock (clock w + Z.of_N (jitter tk))
                    (with_loaded (loaded_flag w || load_done tk) w)))).
  { destruct H as (He & Hl & Hr & Hf & Ha). repeat split; cbn; try assumption.
    rewrite Hl. reflexivity. }
  assert (H2 : polling_idle (fold_left (fun w' pending => _callbacks_turn pending w')
                               (quanta tk)
                               (with_script rest
                                  (with_clock (clock w + Z.of_N (jitter tk))
                                     (with_loaded (loaded_flag w || load_done tk) w))))).
  { revert H1. generalize (with_script rest
                 (with_clock (clock w + Z.of_N (jitter tk))
                    (with_loaded (loaded_flag w || load_done tk) w))).
    induction (quanta tk) as [|q qs IH]; intros w1 H1; cbn [fold_left]; [exact H1|].
    apply IH, polling_idle_turn, H1. }
  destruct (preempted tk) as [pending|]; [|exact H2].
  unfold _callbacks_suspend.
  destruct (steamworks_thread (fold_left _ _ _)) eqn:Et; try exact H2.
  apply polling_idle_test, H2.
Qed.

Lemma polling_idle_after_sleeps k : forall w, polling_idle w -> polling_idle (after_sleeps k w).
Proof.
  induction k as [|k IH]; intros w H; cbn [after_sleeps]; [exact H|].
  apply IH. unfold after_sleep.
  rewrite sleep_unfold by (unfold OPERATION_INTERVAL; lia). cbn [snd].
  apply polling_idle_background.
  destruct H as (He & Hl & Hr & Hf & Ha). repeat split; assumption.
Qed.

Lemma polling_idle_not_stopped w : polling_idle w -> stopped_or_dead w = false.
Proof.
  intros (_ & _ & _ & Hf & Ha). unfold stopped_or_dead. rewrite Hf, Ha. reflexivity.
Qed.
End IdleThread.

(** X13.  A query for an empty list of identifiers, with the SDK object
    built, on a platform that is available and loaded: the session is
    opened, nothing is requested and no handler is registered; [run] then
    waits, joins the polling thread and returns an empty map.  When
    [run_callbacks()] never fails, so that the polling thread stays alive,
    nothing ends the wait before its timeout: the query takes at least
    60 s. *)
Theorem query_without_identifiers :
  forall (self : SteamworksAppDependenciesQuery) (e : Env) (s : list Tick),
    sdk_missing e (query_libs self) = false ->
    as_list (query_pfids self) = [] ->
    steam_not_running
      (iface (snd (SteamworksInterface_init true (Some 0) (query_libs self)
                     (init_world e s)))) = false ->
    sdk_loaded0 e = true ->
    exists w',
      DependenciesQuery_run self (init_world e s) = (Ret (Some ∅), w') /\
      List.filter is_request (trace w') = [] /\
      ((forall n, sdk_raises e n RunCallbacks = false) -> seconds 60 <= clock w').
Proof.
  intros self e s Hm Hids Hinit Hl0.
  rewrite (interface_init_opened true (Some 0) _ (init_world e s) Hm) in Hinit.
  cbn [snd iface opened steam_not_running] in Hinit.
  unfold DependenciesQuery_run. cbv zeta. rewrite Hids. cbn [length for_each].
  change (Z.of_nat 0) with 0.
  rewrite (bind_Ret _ _ _ _ _ (interface_init_opened true (Some 0) _ (init_world e s) Hm)).
  set (w0 := opened true (Some 0) (init_world e s)).
  unfold bind at 1. cbn [get].
  change (steam_not_running (iface w0)) with (init_failed true (init_world e s)).
  rewrite Hinit. cbn [negb].
  set (w1 := with_trace (trace w0 ++ [EvCall Loaded]) w0).
  assert (Hlw : loaded_flag w0 = true).
  { unfold w0, opened. cbn. rewrite Hinit. exact Hl0. }
  assert (Hload : loaded w0 = (Ret true, w1)).
  { unfold loaded, emit, modify, get, bind. cbn [fst snd].
    change (loaded_flag (with_trace (trace w0 ++ [EvCall Loaded]) w0)) with (loaded_flag w0).
    rewrite Hlw. reflexivity. }
  rewrite (bind_Ret _ _ _ _ _ Hload).
  cbn [negb]. rewrite (bind_Ret _ _ w1 tt w1) by reflexivity.
  assert (H1 : idle e 0 w1).
  { unfold w1, w0, opened. rewrite Hinit. repeat split; cbn; try discriminate; auto. }
  assert (P1 : (forall n, sdk_raises e n RunCallbacks = false) -> polling_idle e w1).
  { intros _. unfold w1, w0, opened. rewrite Hinit. repeat split; cbn; auto. }
  pose proof H1 as (_ & _ & _ & [Hf1 Ht1] & _).
  assert (Hinv : wait_inv (clock w1) w1) by (split; [lia|split; assumption]).
  destruct (wait_loop_spec (S (Z.to_nat (60 * 10))) 60 (clock w1) w1 Hinv) as (k & _ & Hres).
  { unfold seconds, OPERATION_INTERVAL. lia. }
  pose proof (after_sleeps_idle e 0 k w1 H1) as Hk.
  assert (Hwait : exists b w2,
            _wait_for_callbacks 60 w1 = (Ret b, w2) /\ idle e 0 w2 /\
            stopped_or_dead w2 = true /\
            ((forall n, sdk_raises e n RunCallbacks = false) -> seconds 60 <= clock w2)).
  { destruct Hres as [[Hsd Hloop]|(Hsd & Hto & Hloop)].
    - exists true, (after_sleeps k w1). split; [|split; [exact Hk|split; [exact Hsd|]]].
      + unfold _wait_for_callbacks, time.
        rewrite (bind_Ret _ _ w1 (clock w1) w1) by reflexivity. exact Hloop.
      + intros Hp. exfalso.
        pose proof (polling_idle_not_stopped e _ (polling_idle_after_sleeps e Hp k w1 (P1 Hp))).
        congruence.
    - exists false, (force_stop 60 (after_sleeps k w1)).
      split; [|split; [|split; [reflexivity|]]].
      + unfold _wait_for_callbacks, time.
        rewrite (bind_Ret _ _ w1 (clock w1) w1) by reflexivity. exact Hloop.
      + unfold force_stop. idle_frame Hk.
      + intros _. apply reached_elapsed in Hto.
        unfold force_stop. cbn. change (clock w1) with 0 in Hto. lia. }
  destruct Hwait as (b & w2 & E2 & H2 & Hs2 & Hc2).
  rewrite (bind_Ret _ _ _ _ _ E2).
  pose proof H2 as (_ & _ & Hl2 & [_ Ht2] & _).
  pose proof (join_returns w2 Ht2 Hl2 Hs2) as Hj.
  pose proof (join_preserves _ _ (idle_background e 0) (idle_block e 0) w2 H2) as H3.
  assert (C3 : forall c, c <= clock w2 -> c <= clock (snd (join w2))).
  { intros c Hc.
    assert (Hi : idle e c w2).
    { destruct H2 as (A1 & A2 & A3). split; [exact A1|]. split; [lia | exact A3]. }
    apply (join_preserves _ _ (idle_background e c) (idle_block e c)) in Hi. apply Hi. }
  destruct (join w2) as [o w3] eqn:E3. cbn [fst snd] in *. subst o.
  rewrite (bind_Ret _ _ _ _ _ E3).
  destruct H3 as (_ & _ & _ & _ & _ & Hm3 & Hq3).
  exists w3. split; [|split].
  - unfold bind, get, ret. rewrite Hm3. reflexivity.
  - exact Hq3.
  - intros Hp. apply C3, Hc2, Hp.
Qed.

Definition query_nothing : SteamworksAppDependenciesQuery :=
  DependenciesQuery_init (PyList []) None None.

Lemma query_without_identifiers_witness :
  exists w',
    DependenciesQuery_run query_nothing (init_world env_quiet script_stall)
      = (Ret (Some ∅), w') /\
    List.filter is_request (trace w') = [] /\
    ((forall n, sdk_raises env_quiet n RunCallbacks = false) -> seconds 60 <= clock w').
Proof.
  apply (query_without_identifiers query_nothing env_quiet script_stall); reflexivity.
Defined.

(** ** The polling thread after a forced stop *)

(** The stop flag has never been set, and nothing registered can set it. *)
Definition unflagged (w : World) : Prop :=
  registry_ok (registry w) /\ steamworks_thread w <> NoThread /\
  end_callbacks (iface w) = Some false /\ ~ In (EvSetStop true) (trace w).

Lemma unflagged_frame w w' :
  registry w' = registry w ->
  steamworks_thread w' <> NoThread ->
  end_callbacks (iface w') = end_callbacks (iface w) ->
  (trace w' = trace w \/ exists ev, ev <> EvSetStop true /\ trace w' = trace w ++ [ev]) ->
  unflagged w -> unflagged w'.
Proof.
  intros Hr Ht Hf Htr (H1 & H2 & H3 & H4).
  split; [rewrite Hr; exact H1|]. split; [exact Ht|]. split; [congruence|].
  destruct Htr as [->|(ev & Hev & ->)]; [exact H4|]. apply not_in_snoc; auto.
Qed.

Ltac unflag H :=
  eapply unflagged_frame; [..|exact H]; cbn; eauto; try apply H;
  try (right; eexists; split; [|reflexivity]; discriminate).

Lemma unflagged_background : background_ok unflagged (fun _ => True).
Proof.
  split.
  - intros w n H. unflag H.
  - intros w d _ H. unflag H.
  - intros w b H. unflag H.
  - intros w t H [Ht _]. unflag H.
  - intros w tk rest H _. split; [unflag H|].
    apply ok_tick_any. intros. hnf. intros. exact Logic.I.
  - intros w H. unflag H.
  - apply pump_by_deliver; [intros w H; unflag H|].
    intros d _. unfold deliver.
    apply (preserves_bind_val unflagged registry_ok); [apply preserves_get| |].
    { intros w r H Hr. cbn in Hr. injection Hr as <-. apply H. }
    intros r Hr. destruct (registered d.1 r) as [h|] eqn:Eh; [|apply preserves_ret].
    apply preserves_bind.
    { apply preserves_modify. intros w H. unflag H. }
    intros _. apply invoke_orchestrator_preserves; [| |exact (Hr _ _ Eh)].
    + intros l _ w H. unflag H.
    + intros w H. unflag H.
  - intros w0 q0 _ _. apply ok_pending_any. intros. hnf. intros. exact Logic.I.
Qed.

Lemma unflagged_block w ev :
  ((exists ms, ev = EvSleep ms) \/ exists t, ev = EvJoin t) ->
  unflagged w -> unflagged (with_trace (trace w ++ [ev]) w).
Proof.
  intros He H. eapply unflagged_frame; [..|exact H]; cbn; eauto; [apply H|].
  right. exists ev. split; [|reflexivity]. destruct He as [[ms ->]|[t ->]]; discriminate.
Qed.

Lemma unflagged_sleep ms : preserves unflagged (sleep ms).
Proof. exact (sleep_preserves _ _ unflagged_background unflagged_block ms). Qed.

Lemma unflagged_log l : preserves unflagged (log l).
Proof. intros w H. unflag H. Qed.

Lemma unflagged_loaded : preserves unflagged loaded.
Proof. intros w H. unflag H. Qed.

Lemma unflagged_call c : is_orchestrator_call c = true -> preserves unflagged (sdk_call c).
Proof.
  intros Hc w H. unfold sdk_call.
  assert (H1 : unflagged (with_trace (trace w ++ [EvCall c]) w)) by unflag H.
  destruct (sdk_raises _ _ _); cbn [snd]; [exact H1|].
  destruct H1 as (R & T & F & S).
  destruct c as [| | | |h|h|h| | |p hp h o|]; try discriminate Hc; cbn [sdk_effect];
    try (destruct h; try discriminate Hc);
    (split; [|split; [exact T|split; [exact F|exact S]]]);
    cbn [registry with_registry with_loaded];
    first [exact R | apply registry_ok_register; [reflexivity | exact R]].
Qed.

Lemma unflagged_cleanup : preserves unflagged run_cleanup.
Proof.
  apply run_cleanup_preserves.
  - apply unflagged_call.
  - exact (join_timeout_preserves _ _ unflagged_background unflagged_block).
Qed.

Lemma after_sleeps_unflagged k : forall w, unflagged w -> unflagged (after_sleeps k w).
Proof.
  induction k as [|k IH]; intros w H; cbn [after_sleeps]; [exact H|].
  apply IH. apply unflagged_sleep, H.
Qed.

(** The SDK stays loaded until [unload()]. *)
Definition still_loaded (w : World) : Prop := loaded_flag w = true.

Lemma still_loaded_background : background_ok still_loaded (fun _ => True).
Proof.
  unfold still_loaded. split.
  - intros w n H. exact H.
  - intros w d _ H. exact H.
  - intros w b H. cbn. rewrite H. reflexivity.
  - intros w t H _. exact H.
  - intros w tk rest H _. split; [exact H|].
    apply ok_tick_any. intros. hnf. intros. exact Logic.I.
  - intros w H. exact H.
  - apply pump_by_deliver; [intros w H; exact H|].
    intros d _. apply (deliver_preserves still_loaded (fun _ => True)).
    + intros l _ w H. exact H.
    + intros w H. exact H.
    + intros h w H. exact H.
    + intros pfid deps _ w H. exact H.
    + intros w H. exact H.
    + intros a rest q _ _. exact I.
  - intros w0 q0 _ _. apply ok_pending_any. intros. hnf. intros. exact Logic.I.
Qed.

Lemma still_loaded_sleep ms : preserves still_loaded (sleep ms).
Proof.
  apply (sleep_preserves _ _ still_loaded_background). intros w ev _ H. exact H.
Qed.

Lemma still_loaded_stage_call c :
  is_stage_call c = true -> preserves still_loaded (sdk_call c).
Proof.
  intros Hc w H. unfold sdk_call.
  destruct (sdk_raises _ _ _); destruct c; try discriminate Hc; exact H.
Qed.

Lemma after_sleeps_still_loaded k : forall w, still_loaded w -> still_loaded (after_sleeps k w).
Proof.
  induction k as [|k IH]; intros w H; cbn [after_sleeps]; [exact H|].
  apply IH. apply still_loaded_sleep, H.
Qed.

Lemma after_sleeps_live e k : forall w, live e w -> live e (after_sleeps k w).
Proof.
  induction k as [|k IH]; intros w H; cbn [after_sleeps]; [exact H|].
  apply IH. apply live_sleep, H.
Qed.

(** What a handler of the orchestrator leaves as it is. *)
Definition same_session (w w' : World) : Prop :=
  env w' = env w /\ registry w' = registry w /\
  end_callbacks (iface w') = end_callbacks (iface w) /\
  loaded_flag w' = loaded_flag w /\ steamworks_thread w' = steamworks_thread w.

Lemma same_session_refl w : same_session w w.
Proof. repeat split. Qed.

Lemma same_session_trans w1 w2 w3 :
  same_session w1 w2 -> same_session w2 w3 -> same_session w1 w3.
Proof.
  intros (A1 & A2 & A3 & A4 & A5) (B1 & B2 & B3 & B4 & B5).
  repeat split; congruence.
Qed.

Lemma invoke_orchestrator_returns h args w :
  orchestrator_handler h = true ->
  exists w', invoke h args w = (Ret tt, w') /\ trace w' = trace w /\ same_session w w'.
Proof.
  intros Hh. destruct h as [operation| |]; [| |discriminate]; cbn [invoke].
  - unfold _create_callback, try_except, bind, modify_iface, modify, log.
    destruct args as [|a rest]; cbn; [eexists; repeat split|].
    destruct (publishedFileId a); cbn; eexists; repeat split.
  - unfold _create_download_callback, try_except, bind, first_arg, attr, log, modify, ret, raise.
    destruct args as [|a rest]; cbn; [eexists; repeat split|].
    destruct (result a) as [r|]; cbn; [|eexists; repeat split].
    destruct (publishedFileId a) as [q|]; cbn; [|eexists; repeat split].
    destruct (r =? 1); cbn; eexists; repeat split.
Qed.

Definition is_callback_event (ev : Event) : bool :=
  match ev with
  | EvCallback _ => true
  | _ => false
  end.

(** With only the orchestrator's handlers registered, the handlers that
    one [run_callbacks()] invokes all return. *)
Lemma deliveries_orchestrator pending : forall w,
  registry_ok (registry w) ->
  exists w' cbs,
    for_each pending deliver w = (Ret tt, w') /\
    trace w' = trace w ++ cbs /\
    Forall (fun ev => is_callback_event ev = true) cbs /\
    same_session w w'.
Proof.
  induction pending as [|d pending IH]; intros w Hr.
  - exists w, []. rewrite app_nil_r. repeat split. constructor.
  - cbn [for_each].
    assert (Hd : exists w1 c1, deliver d w = (Ret tt, w1) /\ trace w1 = trace w ++ c1 /\
                   Forall (fun ev => is_callback_event ev = true) c1 /\ same_session w w1).
    { unfold deliver. unfold bind at 1, get at 1.
      destruct (registered d.1 (registry w)) as [h|] eqn:Eh.
      - destruct (invoke_orchestrator_returns h d.2
                    (with_trace (trace w ++ [EvCallback h]) w) (Hr _ _ Eh))
          as (w1 & E1 & T1 & S1).
        exists w1, [EvCallback h]. unfold bind, emit, modify. rewrite E1.
        split; [reflexivity|]. split; [exact T1|]. split; [repeat constructor|exact S1].
      - exists w, []. rewrite app_nil_r. repeat split. constructor. }
    destruct Hd as (w1 & c1 & E1 & T1 & F1 & S1).
    rewrite (bind_Ret _ _ _ _ _ E1).
    destruct (IH w1) as (w2 & c2 & E2 & T2 & F2 & S2).
    { destruct S1 as (_ & -> & _). exact Hr. }
    exists w2, (c1 ++ c2). split; [exact E2|]. split; [rewrite T2, T1, app_assoc; reflexivity|].
    split; [apply Forall_app; auto | exact (same_session_trans _ _ _ S1 S2)].
Qed.

(** The events of one [run_callbacks()] of the thread: the call, then the
    handlers it invokes; the thread comes back to its loop test unless the
    call itself raised. *)
Lemma callbacks_pump_events p w :
  registry_ok (registry w) ->
  exists cbs,
    trace (_callbacks_pump p w) = trace w ++ EvCall RunCallbacks :: cbs /\
    Forall (fun ev => is_callback_event ev = true) cbs /\
    env (_callbacks_pump p w) = env w /\
    end_callbacks (iface (_callbacks_pump p w)) = end_callbacks (iface w) /\
    (steamworks_thread (_callbacks_pump p w) = Polling \/
     steamworks_thread (_callbacks_pump p w) = Crashed /\
     sdk_raises (env w) (length (trace w)) RunCallbacks = true).
Proof.
  intros Hr. unfold _callbacks_pump, run_callbacks, bind, sdk_call.
  destruct (sdk_raises (env w) (length (trace w)) RunCallbacks) eqn:Er.
  - exists []. cbn. repeat split; auto.
  - cbn [sdk_effect].
    destruct (deliveries_orchestrator p (with_trace (trace w ++ [EvCall RunCallbacks]) w) Hr)
      as (w1 & cbs & E1 & T1 & F1 & (S1 & S2 & S3 & S4 & S5)).
    rewrite E1. exists cbs. cbn in *. rewrite T1, <- app_assoc.
    repeat split; auto.
Qed.

(** What the polling thread can still do once the stop flag is set:
    nothing; the [loaded()] test of its first loop; or the one
    [run_callbacks()] that it had passed its loop test for, with the
    handlers this call invokes. *)
Definition stop_tail (th : list Event) : Prop :=
  th = [] \/ th = [EvCall Loaded] \/
  exists cbs, th = EvCall RunCallbacks :: cbs /\
              Forall (fun ev => is_callback_event ev = true) cbs.

Lemma turn_waiting_loaded pending w :
  steamworks_thread w = WaitingForLoad -> loaded_flag w = true ->
  _callbacks_turn pending w = with_thread Polling (with_trace (trace w ++ [EvCall Loaded]) w).
Proof.
  intros Et Hl. unfold _callbacks_turn. rewrite Et.
  unfold loaded, emit, modify, get, bind. cbn [fst snd loaded_flag with_trace].
  rewrite Hl. reflexivity.
Qed.

Lemma turn_polling_stopped pending w :
  steamworks_thread w = Polling -> end_callbacks (iface w) = Some true ->
  _callbacks_turn pending w
    = with_thread Finished (with_logs (logs w ++ [LogThreadEnd (callbacks_count (iface w))]) w).
Proof.
  intros Et Hf. unfold _callbacks_turn. rewrite Et. unfold _callbacks_test. rewrite Hf.
  reflexivity.
Qed.

Lemma turn_pumping pending p w :
  steamworks_thread w = Pumping p -> _callbacks_turn pending w = _callbacks_pump p w.
Proof. intros Et. unfold _callbacks_turn. rewrite Et. reflexivity. Qed.

Lemma turn_crashed pending w :
  steamworks_thread w = Crashed -> _callbacks_turn pending w = w.
Proof. intros Et. unfold _callbacks_turn. rewrite Et. reflexivity. Qed.

(** With the stop flag set and the SDK loaded, a live polling thread has
    ended when it has been given the time to reach its next loop test,
    and [stop_tail] is all it has done. *)
Lemma settle_events w :
  registry_ok (registry w) -> end_callbacks (iface w) = Some true ->
  loaded_flag w = true -> is_alive (steamworks_thread w) = true ->
  exists th,
    trace (snd (settle w)) = trace w ++ th /\ stop_tail th /\
    env (snd (settle w)) = env w /\
    end_callbacks (iface (snd (settle w))) = Some true /\
    (steamworks_thread (snd (settle w)) = Finished \/
     steamworks_thread (snd (settle w)) = Crashed /\
     exists n, sdk_raises (env w) n RunCallbacks = true).
Proof.
  intros Hr Hf Hl Ha. unfold settle, modify. cbn [snd].
  destruct (steamworks_thread w) as [| | |p| |] eqn:Et; try discriminate Ha.
  - exists [EvCall Loaded].
    rewrite (turn_waiting_loaded [] w Et Hl).
    rewrite turn_polling_stopped by (try reflexivity; exact Hf).
    cbn. repeat split; auto. right. left. reflexivity.
  - exists []. rewrite (turn_polling_stopped [] w Et Hf).
    cbn. rewrite app_nil_r. repeat split; auto. left. reflexivity.
  - rewrite (turn_pumping [] p w Et).
    destruct (callbacks_pump_events p w Hr) as (cbs & T1 & F1 & E1 & G1 & Hth).
    exists (EvCall RunCallbacks :: cbs).
    assert (Hst : stop_tail (EvCall RunCallbacks :: cbs)) by (right; right; eauto).
    destruct Hth as [Hp|[Hp Hx]].
    + rewrite (turn_polling_stopped [] _ Hp) by congruence.
      cbn. repeat split; auto. congruence.
    + rewrite (turn_crashed [] _ Hp).
      repeat split; auto; [congruence|]. right. split; [exact Hp|]. eauto.
Qed.

(** The waiter has just set the stop flag, for the first time, on a loaded
    SDK and with the polling thread alive. *)
Definition forced (e : Env) (w : World) : Prop :=
  env w = e /\ registry_ok (registry w) /\
  end_callbacks (iface w) = Some true /\ loaded_flag w = true /\
  is_alive (steamworks_thread w) = true /\
  exists pre, trace w = pre ++ [EvSetStop true] /\ ~ In (EvSetStop true) pre.

(** Where the guarded part of [run] leaves the session: the stop flag was
    never set, or the wait has just set it. *)
Definition flag_state (e : Env) (w : World) : Prop := unflagged w \/ forced e w.

Lemma run_guarded_stop self e w :
  unflagged w -> still_loaded w -> live e w ->
  flag_state e (snd (try_except (run_body self) Exception
                       (fun x => log_exc_info (LogRunError x) x) w)).
Proof.
  intros Hu Hl Hv. unfold try_except, run_body.
  generalize (stage_handle_action unflagged unflagged_sleep (fun l _ => unflagged_log l)
                (fun c Hc => unflagged_call c (stage_call_orchestrator c Hc)) self w Hu)
             (stage_handle_action still_loaded still_loaded_sleep
                (fun l _ w0 H0 => H0) still_loaded_stage_call self w Hl)
             (stage_handle_action (live e) (live_sleep e) (fun l _ => live_log e l)
                (fun c _ => live_call e c) self w Hv).
  unfold bind at 1.
  match goal with |- context [?handle w] =>
    match handle with
    | (if _ then _ else _) => destruct (handle w) as [[[]|x| |] w2]
    end
  end; cbn [fst snd]; intros Hu2 Hl2 Hv2; try (left; exact Hu2).
  - pose proof Hu2 as (_ & Ht & Hf & _).
    destruct (wait_for_callbacks_cases STEAMWORKS_TIMEOUT w2) as (k & [[Hsd Hw]|[Hsd Hw]]);
      [congruence | exact Ht | |]; rewrite (bind_Ret _ _ _ _ _ Hw);
      pose proof (after_sleeps_unflagged k w2 Hu2) as Hk.
    + left. cbn. unflag Hk.
    + right. cbn. destruct Hk as (Hrk & _ & Hfk & Hnk).
      split; [apply (after_sleeps_live e k w2 Hv2)|]. split; [exact Hrk|].
      split; [reflexivity|]. split; [apply (after_sleeps_still_loaded k w2 Hl2)|]. split.
      * unfold stopped_or_dead in Hsd. rewrite Hfk in Hsd.
        destruct (is_alive _); [reflexivity | discriminate].
      * exists (trace (after_sleeps k w2)). split; [reflexivity | exact Hnk].
  - unfold log_exc_info. destruct (format_raises _ _ _); cbn [snd]; left;
      [exact Hu2 | apply unflagged_log, Hu2].
Qed.

Lemma snd_then (m k : M unit) w :
  (forall w', snd (k w') = w') -> snd ((m >> k) w) = snd (m w).
Proof. intros Hk. unfold bind. destruct (m w) as [[[]|x| |] w1]; cbn; auto. Qed.

(** How a run stands, at its end, with the stop flag: it was never set;
    or it was set once, and what follows is the cleanup, a [join] during
    which the polling thread does [stop_tail] and ends, then [unload()]. *)
Definition stop_end (e : Env) (w : World) : Prop :=
  ~ In (EvSetStop true) (trace w) \/
  exists pre th,
    trace w = pre ++ EvSetStop true :: EvJoin (Some 5000) :: th ++ [EvCall Unload] /\
    ~ In (EvSetStop true) pre /\ stop_tail th /\
    end_callbacks (iface w) = Some true /\
    (steamworks_thread w = Finished \/
     steamworks_thread w = Crashed /\ exists n, sdk_raises e n RunCallbacks = true).

Lemma cleanup_after_stop e w : forced e w -> stop_end e (snd (run_cleanup w)).
Proof.
  intros (He & Hr & Hf & Hl & Ha & pre & Htr & Hpre). right.
  set (w0 := with_trace (trace w ++ [EvJoin (Some (seconds 5))]) w).
  destruct (settle_events w0 Hr Hf Hl Ha) as (th & T1 & S1 & E1 & F1 & Hth).
  assert (Hj : join_timeout (seconds 5) w = (Ret tt, snd (settle w0))).
  { unfold join_timeout. unfold bind at 1. cbn [emit modify]. fold w0.
    unfold bind at 1. unfold settle at 1, modify at 1.
    assert (Hdead : steamworks_thread (_callbacks_turn [] (_callbacks_turn [] w0)) = Finished \/
                    steamworks_thread (_callbacks_turn [] (_callbacks_turn [] w0)) = Crashed).
    { destruct Hth as [Hx|[Hx _]]; [left|right]; exact Hx. }
    unfold thread_is_alive, get, bind, ret.
    destruct Hdead as [Hx|Hx]; rewrite Hx; reflexivity. }
  assert (Hc : run_cleanup w = sdk_call Unload (snd (settle w0))).
  { unfold run_cleanup. unfold bind at 1, get at 1.
    destruct (steamworks_thread w) eqn:Et; try discriminate Ha; cbn [is_alive];
      rewrite (bind_Ret _ _ _ _ _ Hj); reflexivity. }
  rewrite Hc. exists pre, th.
  assert (Ht : trace (snd (settle w0)) ++ [EvCall Unload]
               = pre ++ EvSetStop true :: EvJoin (Some 5000) :: th ++ [EvCall Unload]).
  { rewrite T1. unfold w0. cbn [trace with_trace]. rewrite Htr.
    rewrite <- !app_assoc. reflexivity. }
  assert (Hx : steamworks_thread (snd (settle w0)) = Finished \/
               steamworks_thread (snd (settle w0)) = Crashed /\
               exists n, sdk_raises e n RunCallbacks = true).
  { destruct Hth as [H|[H [n Hn]]]; [left; exact H|]. right. split; [exact H|].
    exists n. rewrite <- He. exact Hn. }
  unfold sdk_call. destruct (sdk_raises _ _ _); cbn; repeat split; auto.
Qed.

Lemma run_stop_end self e s :
  stop_end e (snd (SubscriptionHandler_run self (init_world e s))).
Proof.
  destruct (sdk_missing e (handler_libs self)) eqn:Em.
  { rewrite (run_missing self e s Em). left. cbn. intuition discriminate. }
  unfold SubscriptionHandler_run.
  rewrite (bind_Ret _ _ _ _ _ (interface_init_opened true None _ (init_world e s) Em)).
  unfold bind at 1. cbn [get iface opened steam_not_running].
  destruct (init_failed true (init_world e s)) eqn:Ef.
  { left. unfold bind, log, modify, sdk_call. cbn. rewrite Ef.
    destruct (sdk_raises _ _ _); cbn; intuition discriminate. }
  assert (H0 : unflagged (opened true None (init_world e s))).
  { unfold opened. rewrite Ef. split; [|split; [|split]]; cbn.
    - intros ch h H. destruct ch; discriminate.
    - discriminate.
    - reflexivity.
    - intuition discriminate. }
  assert (V0 : live e (opened true None (init_world e s))).
  { unfold opened. rewrite Ef. split; [reflexivity|]. split; cbn; discriminate. }
  revert H0 V0. generalize (opened true None (init_world e s)). intros w H0 V0.
  unfold time. unfold bind at 1. cbn [get]. change load_fuel with (S 301).
  destruct (wait_loaded_result 301 (clock w) w (proj2 V0)) as (b & Hb & Hl & _).
  { unfold seconds, STEAMWORKS_TIMEOUT, OPERATION_INTERVAL. lia. }
  assert (H1 : unflagged (snd (wait_loaded (S 301) (clock w) w))).
  { apply wait_loaded_preserves; auto using unflagged_sleep, unflagged_loaded.
    intros l _. apply unflagged_log. }
  assert (V1 : live e (snd (wait_loaded (S 301) (clock w) w))).
  { apply wait_loaded_preserves; auto using live_sleep, live_loaded.
    intros l _. apply live_log. }
  unfold bind at 1. destruct (wait_loaded (S 301) (clock w) w) as [o w1].
  cbn [fst snd] in *. subst o. destruct b; cbn [negb].
  2:{ left. apply H1. }
  unfold try_finally.
  pose proof (run_guarded_outcome self w1 (proj2 V1)) as Hg.
  pose proof (run_guarded_stop self e w1 H1 (Hl eq_refl) V1) as Hs.
  destruct (try_except (run_body self) Exception
              (fun x => log_exc_info (LogRunError x) x) w1) as [o w2].
  cbn [fst snd] in *.
  assert (Hend : stop_end e (snd (run_cleanup w2))).
  { destruct Hs as [Hs|Hs].
    - left. apply (unflagged_cleanup w2 Hs).
    - apply cleanup_after_stop, Hs. }
  destruct Hg as [->|(y & x & w1' & _ & _ & Hg)].
  - rewrite snd_then by reflexivity. exact Hend.
  - injection Hg as -> ->. rewrite snd_then by reflexivity. exact Hend.
Qed.

Lemma split_at_unique {A} (x : A) (l1 l2 l1' l2' : list A) :
  l1 ++ x :: l2 = l1' ++ x :: l2' -> ~ In x l1 -> ~ In x l2 ->
  l1 = l1' /\ l2 = l2'.
Proof.
  revert l1'. induction l1 as [|a l1 IH]; intros [|a' l1'] Heq H1 H2; cbn in Heq.
  - injection Heq as ->. auto.
  - injection Heq as <- ->. destruct H2. apply in_or_app. right. left. reflexivity.
  - injection Heq as -> _. destruct H1. left. reflexivity.
  - injection Heq as -> Heq. destruct (IH l1' Heq) as [-> ->]; auto.
    intros H. apply H1. right. exact H.
Qed.

Definition is_pump (ev : Event) : bool :=
  match ev with
  | EvCall RunCallbacks => true
  | _ => false
  end.

Lemma callbacks_not_flag cbs b :
  Forall (fun ev => is_callback_event ev = true) cbs -> ~ In (EvSetStop b) cbs.
Proof.
  intros H Hin. rewrite List.Forall_forall in H. specialize (H _ Hin). discriminate H.
Qed.

Lemma callbacks_not_pump cbs :
  Forall (fun ev => is_callback_event ev = true) cbs -> List.filter is_pump cbs = [].
Proof.
  induction 1 as [|ev cbs Hev _ IH]; [reflexivity|].
  destruct ev; try discriminate Hev. cbn. exact IH.
Qed.

(** What follows the assignment [end_callbacks = True] in the events of a
    run: the flag is assigned no more, and the thread begins at most one
    [run_callbacks()]. *)
Definition after_stop (post : list Event) : Prop :=
  ~ In (EvSetStop true) post /\ ~ In (EvSetStop false) post /\
  (length (List.filter is_pump post) <= 1)%nat.

Lemma stop_tail_after_stop th :
  stop_tail th -> after_stop (EvJoin (Some 5000) :: th ++ [EvCall Unload]).
Proof.
  intros [->|[->|(cbs & -> & Hc)]].
  - repeat split; cbn; try (intuition discriminate); lia.
  - repeat split; cbn; try (intuition discriminate); lia.
  - split; [|split].
    + intros [H|[H|H]]; try discriminate H.
      apply in_app_or in H as [H|[H|[]]]; [|discriminate H].
      exact (callbacks_not_flag _ _ Hc H).
    + intros [H|[H|H]]; try discriminate H.
      apply in_app_or in H as [H|[H|[]]]; [|discriminate H].
      exact (callbacks_not_flag _ _ Hc H).
    + cbn. rewrite List.filter_app, (callbacks_not_pump _ Hc). cbn. lia.
Qed.

(** The events that follow the assignment, in any run. *)
Lemma run_after_stop self e s pre post :
  trace (snd (SubscriptionHandler_run self (init_world e s))) = pre ++ EvSetStop true :: post ->
  ~ In (EvSetStop true) pre /\ after_stop post /\
  end_callbacks (iface (snd (SubscriptionHandler_run self (init_world e s)))) = Some true /\
  is_alive (steamworks_thread (snd (SubscriptionHandler_run self (init_world e s)))) = false.
Proof.
  intros Heq. destruct (run_stop_end self e s) as [H|(pre0 & th & Ht & Hp & Hth & Hf & Hx)].
  { destruct H. rewrite Heq. apply in_or_app. right. left. reflexivity. }
  pose proof (stop_tail_after_stop th Hth) as Ha.
  rewrite Ht in Heq.
  destruct (split_at_unique _ _ _ _ _ Heq Hp (proj1 Ha)) as [<- <-].
  repeat split; try apply Ha; auto.
  destruct Hx as [->|[-> _]]; reflexivity.
Qed.

(** C3, as amended.  In the events of any run of the orchestrator the stop
    flag is assigned [True] at most once and, once it has been, it is
    never assigned again, neither [False] nor [True], and is still [True]
    when the run ends.  The polling loop is not stopped at once: after
    the assignment the thread still begins at most one [run_callbacks()],
    the one it had passed its loop test for, with the handlers that this
    call invokes; when the run ends the thread is no longer alive. *)
Theorem C3_stop_flag_monotone :
  forall (self : SteamworksSubscriptionHandler) (e : Env) (s : list Tick)
         (pre post : list Event),
    trace (snd (SubscriptionHandler_run self (init_world e s)))
      = pre ++ EvSetStop true :: post ->
    ~ In (EvSetStop true) pre /\ ~ In (EvSetStop true) post /\
    ~ In (EvSetStop false) post /\
    (length (List.filter is_pump post) <= 1)%nat /\
    end_callbacks (iface (snd (SubscriptionHandler_run self (init_world e s)))) = Some true /\
    is_alive (steamworks_thread (snd (SubscriptionHandler_run self (init_world e s)))) = false.
Proof.
  intros self e s pre post Heq.
  destruct (run_after_stop self e s pre post Heq) as (H1 & (H2 & H3 & H4) & H5 & H6).
  auto 10.
Qed.

(** A script in which the polling thread is suspended between its loop
    test and [run_callbacks()] while the main flow sleeps in the waiter,
    for 40 s, with one notification pending. *)
Definition script_race : list Tick :=
  [ {| jitter := 0; load_done := false; quanta := [[]]; preempted := None |};
    {| jitter := 0; load_done := false; quanta := []; preempted := None |};
    {| jitter := 40000; load_done := false; quanta := [];
       preempted := Some [(ItemSubscribed, [subscribed_payload 7])] |} ].

Lemma C3_stop_flag_monotone_witness :
  let pre := [EvSetStop false; EvCall Initialize; EvThreadStart; EvCall Loaded;
              EvCall (SetItemUnsubscribedCallback (cb_operation "unsubscribe"));
              EvCall (SetItemSubscribedCallback (cb_operation "subscribe"));
              EvCall (UnsubscribeItem 7); EvSleep 1000;
              EvCall Loaded; EvCall (SubscribeItem 7); EvSleep 1000;
              EvCall (DownloadItem 7 true cb_download true); EvSleep 100] in
  let post := [EvJoin (Some 5000); EvCall RunCallbacks;
               EvCallback (cb_operation "subscribe"); EvCall Unload] in
  ~ In (EvSetStop true) pre /\ ~ In (EvSetStop true) post /\
  ~ In (EvSetStop false) post /\
  (length (List.filter is_pump post) <= 1)%nat /\
  end_callbacks
    (iface (snd (SubscriptionHandler_run handler_7 (init_world env_quiet script_race))))
    = Some true /\
  is_alive
    (steamworks_thread
       (snd (SubscriptionHandler_run handler_7 (init_world env_quiet script_race))))
    = false.
Proof.
  apply (C3_stop_flag_monotone handler_7 env_quiet script_race).
  vm_compute. reflexivity.
Defined.

(** The claim as it stands fails on that run: the waiter times out and
    sets the flag while the thread is suspended; during the [join] of the
    cleanup the thread makes the [run_callbacks()] that it had gone on to,
    the subscribe handler runs, counts and logs, and only then does the
    thread see the flag and end. *)
Lemma C3_counterexample :
  let w' := snd (SubscriptionHandler_run handler_7 (init_world env_quiet script_race)) in
  trace w' = [EvSetStop false; EvCall Initialize; EvThreadStart; EvCall Loaded;
              EvCall (SetItemUnsubscribedCallback (cb_operation "unsubscribe"));
              EvCall (SetItemSubscribedCallback (cb_operation "subscribe"));
              EvCall (UnsubscribeItem 7); EvSleep 1000;
              EvCall Loaded; EvCall (SubscribeItem 7); EvSleep 1000;
              EvCall (DownloadItem 7 true cb_download true); EvSleep 100;
              EvSetStop true;
              EvJoin (Some 5000); EvCall RunCallbacks;
              EvCallback (cb_operation "subscribe"); EvCall Unload] /\
  logs w' = [LogCallbackTimeout 30; LogWaitTimeout;
             LogOperation "subscribe" 7 (Some 1); LogThreadEnd 1] /\
  callbacks_count (iface w') = 1.
Proof. vm_compute. repeat split. Qed.

(** X14.  If the stop flag was set at any point of a run of the orchestrator,
    the polling thread is no longer running when the run ends: in such a
    run only the wait sets the flag, on its timeout, and the [join] of
    the cleanup then gives the thread the time to see it.  The thread has
    left its loop, unless the [run_callbacks()] that it had passed its
    loop test for raised and ended it. *)
Theorem stop_flag_ends_polling_thread :
  forall (self : SteamworksSubscriptionHandler) (e : Env) (s : list Tick),
    In (EvSetStop true) (trace (snd (SubscriptionHandler_run self (init_world e s)))) ->
    steamworks_thread (snd (SubscriptionHandler_run self (init_world e s))) = Finished \/
    (steamworks_thread (snd (SubscriptionHandler_run self (init_world e s))) = Crashed /\
     exists n, sdk_raises e n RunCallbacks = true).
Proof.
  intros self e s Hin.
  destruct (run_stop_end self e s) as [H|(pre & th & _ & _ & _ & _ & H)];
    [destruct (H Hin) | exact H].
Qed.

Lemma stop_flag_ends_polling_thread_witness :
  steamworks_thread
    (snd (SubscriptionHandler_run handler_7 (init_world env_quiet script_stall))) = Finished \/
  (steamworks_thread
     (snd (SubscriptionHandler_run handler_7 (init_world env_quiet script_stall))) = Crashed /\
   exists n, sdk_raises env_quiet n RunCallbacks = true).
Proof.
  apply (stop_flag_ends_polling_thread handler_7 env_quiet script_stall).
  vm_compute. tauto.
Defined.

(** ** The orchestrator's handlers on any payload *)

(** The payload has no first argument, or one without identifier. *)
Definition lacks_identifier (payload : list CallbackObj) : bool :=
  match payload with
  | [] => true
  | a :: _ => match publishedFileId a with None => true | Some _ => false end
  end.

(** The log lines that carry nothing of the payload. *)
Definition is_generic_line (l : Log) : bool :=
  match l with
  | LogOperationFired _ | LogDownloadParseFailed _ => true
  | _ => false
  end.

(** X15.  The handlers that the subscription orchestrator registers never
    raise, whatever they are called with: no argument, an object without
    identifier or without result code.  They leave the stop flag, the
    result map and the event list as they are and add one log line, a
    generic one when the payload has no identifier; the subscribe and
    unsubscribe handlers add one to [callbacks_count], the download
    callback leaves it alone. *)
Theorem orchestrator_handlers_never_raise :
  forall (h : Handler) (payload : list CallbackObj) (w : World),
    orchestrator_handler h = true ->
    exists (l : Log) (w' : World),
      invoke h payload w = (Ret tt, w') /\
      logs w' = logs w ++ [l] /\
      (lacks_identifier payload = true -> is_generic_line l = true) /\
      trace w' = trace w /\
      end_callbacks (iface w') = end_callbacks (iface w) /\
      get_app_deps_query_result (iface w') = get_app_deps_query_result (iface w) /\
      callbacks_count (iface w') =
        callbacks_count (iface w) + (match h with cb_download => 0 | _ => 1 end).
Proof.
  intros h payload w Hh. destruct h as [operation| |]; [| |discriminate]; cbn [invoke].
  - unfold _create_callback, try_except, bind, modify_iface, modify, log.
    destruct payload as [|a rest]; cbn; [eexists _, _; repeat split|].
    destruct (publishedFileId a); cbn; eexists _, _; repeat split. discriminate.
  - unfold _create_download_callback, try_except, bind, first_arg, attr, log, modify, ret, raise.
    destruct payload as [|a rest]; cbn; [eexists _, _; repeat split; cbn; lia|].
    destruct (result a) as [r|]; cbn; [|eexists _, _; repeat split; cbn; lia].
    destruct (publishedFileId a) as [p|]; cbn; [|eexists _, _; repeat split; cbn; lia].
    destruct (r =? 1); cbn; eexists _, _; repeat split; cbn; first [lia | discriminate].
Qed.

Lemma orchestrator_handlers_never_raise_witness :
  exists (l : Log) (w' : World),
    invoke cb_download [] session_open = (Ret tt, w') /\
    logs w' = logs session_open ++ [l] /\
    (lacks_identifier [] = true -> is_generic_line l = true) /\
    trace w' = trace session_open /\
    end_callbacks (iface w') = end_callbacks (iface session_open) /\
    get_app_deps_query_result (iface w') = get_app_deps_query_result (iface session_open) /\
    callbacks_count (iface w') = callbacks_count (iface session_open) + 0.
Proof.
  apply (orchestrator_handlers_never_raise cb_download [] session_open). reflexivity.
Defined.

(** ** The loop of the dependency query *)

(** What the main flow issues for one identifier of a query for [total]
    identifiers. *)
Definition query_events (self : SteamworksAppDependenciesQuery) (total : nat) (pfid : Z)
    : list Event :=
  [EvCall (SetGetAppDependenciesResultCallback cb_app_dependencies);
   EvCall (GetAppDependencies pfid)] ++
  (if (1 <? total)%nat then [EvSleep (seconds (interval self))] else []).

Lemma main_query_one e self total pfid w :
  (forall n c, is_query_call c = true -> sdk_raises e n c = false) ->
  0 <= interval self -> env w = e ->
  shows is_main_event (query_one self total pfid) w (query_events self total pfid).
Proof.
  intros Hret Hi Hw. unfold query_one, query_events.
  change ([?a; ?b] ++ ?l) with ([a] ++ [b] ++ l).
  apply shows_bind.
  { apply (shows_call is_main_event (SetGetAppDependenciesResultCallback _)).
    rewrite Hw. apply Hret. reflexivity. }
  intros w1 Hw1. apply shows_bind.
  { apply (shows_call is_main_event (GetAppDependencies _)).
    rewrite Hw1, Hw. apply Hret. reflexivity. }
  intros w2 Hw2. destruct (_ <? _)%nat; [|apply shows_ret].
  apply (shows_sleep is_main_event main_thread_event). unfold seconds. lia.
Qed.

Lemma slept_query_events self total ids :
  slept (flat_map (query_events self total) ids)
  = if (1 <? total)%nat then Z.of_nat (length ids) * seconds (interval self) else 0.
Proof.
  induction ids as [|p ids IH]; cbn [flat_map length]; [destruct (_ <? _)%nat; reflexivity|].
  rewrite slept_app, IH. unfold query_events.
  destruct (1 <? total)%nat; cbn [app slept]; lia.
Qed.

(** X16.  The loop of the query's [run], when its SDK calls return and the
    interval is not negative: for each identifier in input order it
    registers the dependency handler again, issues the query and, when
    there is more than one identifier, sleeps for the interval, also
    after the last identifier.  The time it asks to sleep is the interval
    times the number of identifiers, or nothing for a single one. *)
Theorem query_loop_events :
  forall (self : SteamworksAppDependenciesQuery) (ids : list Z) (w : World),
    (forall n c, is_query_call c = true -> sdk_raises (env w) n c = false) ->
    0 <= interval self ->
    exists w' d,
      for_each ids (query_one self (length ids)) w = (Ret tt, w') /\
      trace w' = trace w ++ d /\
      main_view d = flat_map (query_events self (length ids)) ids /\
      slept d = (if (1 <? length ids)%nat
                 then Z.of_nat (length ids) * seconds (interval self) else 0) /\
      clock w + slept d <= clock w'.
Proof.
  intros self ids w Hret Hi.
  assert (Hs : forall total l w0, env w0 = env w ->
            shows is_main_event (for_each l (query_one self total)) w0
                  (flat_map (query_events self total) l)).
  { intros total. induction l as [|p l IH]; intros w0 Hw0; cbn [for_each flat_map].
    - apply shows_ret.
    - apply shows_bind; [apply (main_query_one (env w)); auto|].
      intros w1 Hw1. apply IH. congruence. }
  destruct (Hs (length ids) ids w eq_refl) as (w' & d & H1 & _ & H2 & H3 & H4).
  exists w', d. split; [exact H1|]. split; [exact H2|]. split; [exact H3|].
  split; [|exact H4].
  rewrite <- (slept_main_view d). unfold main_view. rewrite H3. apply slept_query_events.
Qed.

Lemma query_loop_events_witness :
  exists w' d,
    for_each [10; 20] (query_one query_10_20 (length [10; 20]))
      (init_world env_quiet script_answers_10) = (Ret tt, w') /\
    trace w' = trace (init_world env_quiet script_answers_10) ++ d /\
    main_view d = flat_map (query_events query_10_20 (length [10; 20])) [10; 20] /\
    slept d = (if (1 <? length [10; 20])%nat
               then Z.of_nat (length [10; 20]) * seconds (interval query_10_20) else 0) /\
    clock (init_world env_quiet script_answers_10) + slept d <= clock w'.
Proof.
  apply (query_loop_events query_10_20 [10; 20] (init_world env_quiet script_answers_10)).
  - intros n c _. reflexivity.
  - vm_compute. discriminate.
Defined.

(** X17.  With the SDK object built, a negative interval and more than one
    identifier, the first sleep of the loop raises [ValueError]: [run]
    raises it after the first query, out of its loop, with the SDK not
    unloaded and the polling thread started and not joined. *)
Theorem query_negative_interval_raises :
  forall (self : SteamworksAppDependenciesQuery) (e : Env) (s : list Tick)
         (p q : Z) (rest : list Z),
    sdk_missing e (query_libs self) = false ->
    as_list (query_pfids self) = p :: q :: rest ->
    interval self < 0 ->
    (forall n c, is_query_call c = true -> sdk_raises e n c = false) ->
    sdk_raises e 1 Initialize = false ->
    sdk_loaded0 e = true ->
    exists w',
      DependenciesQuery_run self (init_world e s) = (Raise ValueError, w') /\
      trace w' = [EvSetStop false; EvCall Initialize; EvThreadStart; EvCall Loaded;
                  EvCall (SetGetAppDependenciesResultCallback cb_app_dependencies);
                  EvCall (GetAppDependencies p)] /\
      steamworks_thread w' = WaitingForLoad /\
      loaded_flag w' = true.
Proof.
  intros self e s p q rest Hm Hids Hneg Hret Hinit Hl0.
  unfold DependenciesQuery_run. cbv zeta. rewrite Hids.
  rewrite (bind_Ret _ _ _ _ _ (interface_init_opened true _ _ (init_world e s) Hm)).
  set (w0 := opened true (Some (Z.of_nat (length (p :: q :: rest)))) (init_world e s)).
  assert (Hf : init_failed true (init_world e s) = false) by exact Hinit.
  assert (Hsn : steam_not_running (iface w0) = false) by exact Hf.
  assert (Hlw : loaded_flag w0 = true).
  { unfold w0, opened. cbn. rewrite Hf. exact Hl0. }
  assert (Htr : trace w0 = [EvSetStop false; EvCall Initialize; EvThreadStart]).
  { unfold w0, opened. cbn. rewrite Hf. reflexivity. }
  assert (Hth : steamworks_thread w0 = WaitingForLoad).
  { unfold w0, opened. cbn. rewrite Hf. reflexivity. }
  unfold bind at 1. cbn [get]. rewrite Hsn. cbn [negb].
  set (w1 := with_trace (trace w0 ++ [EvCall Loaded]) w0).
  assert (Hload : loaded w0 = (Ret true, w1)).
  { unfold loaded, emit, modify, get, bind. cbn [fst snd].
    change (loaded_flag (with_trace (trace w0 ++ [EvCall Loaded]) w0)) with (loaded_flag w0).
    rewrite Hlw. reflexivity. }
  rewrite (bind_Ret _ _ _ _ _ Hload). cbn [negb for_each].
  set (c1 := SetGetAppDependenciesResultCallback cb_app_dependencies).
  set (w2 := sdk_effect c1 (with_trace (trace w1 ++ [EvCall c1]) w1)).
  set (w3 := sdk_effect (GetAppDependencies p)
               (with_trace (trace w2 ++ [EvCall (GetAppDependencies p)]) w2)).
  assert (H1 : query_one self (length (p :: q :: rest)) p w1 = (Raise ValueError, w3)).
  { unfold query_one.
    rewrite (bind_Ret _ _ w1 tt w2)
      by (unfold sdk_call; change (env w1) with e; rewrite (Hret _ c1 eq_refl); reflexivity).
    rewrite (bind_Ret _ _ w2 tt w3)
      by (unfold sdk_call; change (env w2) with e;
          rewrite (Hret _ (GetAppDependencies p) eq_refl); reflexivity).
    cbn [length]. replace (1 <? S (S (length rest)))%nat with true by reflexivity.
    unfold sleep. replace (seconds (interval self) <? 0) with true
      by (symmetry; apply Z.ltb_lt; unfold seconds; lia).
    reflexivity. }
  exists w3. split.
  - unfold bind at 1. unfold bind at 1. rewrite H1. reflexivity.
  - split; [|split].
    + change (trace w3)
        with (((trace w0 ++ [EvCall Loaded]) ++ [EvCall c1]) ++ [EvCall (GetAppDependencies p)]).
      rewrite Htr. reflexivity.
    + exact Hth.
    + exact Hlw.
Qed.

Lemma query_negative_interval_raises_witness :
  exists w',
    DependenciesQuery_run query_in_haste (init_world env_quiet script_answers_10)
      = (Raise ValueError, w') /\
    trace w' = [EvSetStop false; EvCall Initialize; EvThreadStart; EvCall Loaded;
                EvCall (SetGetAppDependenciesResultCallback cb_app_dependencies);
                EvCall (GetAppDependencies 10)] /\
    steamworks_thread w' = WaitingForLoad /\
    loaded_flag w' = true.
Proof.
  apply (query_negative_interval_raises query_in_haste env_quiet script_answers_10 10 20 []);
    reflexivity.
Defined.

(** ** The outcome of the guarded part is logged *)
















(** The second ending: [SubscribeItem(7)] raises with braces in its text,
    and the [except] clause raises [IndexError] without a line for it. *)
Example run_guarded_raises_unlogged :
  let w := opened true None (init_world env_subscribe_7_braces script_stall) in
  let r := try_except (run_body handler_7) Exception
             (fun x => log_exc_info (LogRunError x) x) w in
  fst r = Raise IndexError /\ fst (run_body handler_7 w) = Raise SteamException /\
  logs (snd r) = logs (snd (run_body handler_7 w)) /\
  (forall x, ~ In (LogRunError x) (logs (snd r))).
Proof.
  vm_compute. repeat split. intros x H.
  repeat (destruct H as [H|H]; [discriminate H|]). exact H.
Qed.

(** ** The orchestrator on an unavailable platform *)

(** X19.  With the platform unavailable at open, a run of the orchestrator
    logs the failure of [initialize()] and its abort, and unloads: its
    events are the creation of the stop flag, [initialize()] and
    [unload()]; no thread was started, and nothing is waited for.  The
    run returns when [unload()] returns, and the exception of an
    [unload()] that raises leaves it. *)
Theorem run_unavailable_platform_unloads :
  forall (self : SteamworksSubscriptionHandler) (e : Env) (s : list Tick),
    let r := SubscriptionHandler_run self (init_world e s) in
    steam_not_running
      (iface (snd (SteamworksInterface_init true None (handler_libs self)
                     (init_world e s)))) = true ->
    trace (snd r) = [EvSetStop false; EvCall Initialize; EvCall Unload] /\
    logs (snd r) = [LogInitFailed; LogNotRunning] /\
    steamworks_thread (snd r) = NoThread /\
    clock (snd r) = 0 /\
    ((fst r = Ret tt /\ sdk_raises e 2 Unload = false) \/
     (fst r = Raise SteamException /\ sdk_raises e 2 Unload = true)).
Proof.
  intros self e s r. subst r.
  destruct (sdk_missing e (handler_libs self)) eqn:Em.
  { rewrite (interface_init_missing true None _ (init_world e s) Em). cbn. discriminate. }
  unfold SubscriptionHandler_run.
  rewrite (interface_init_opened true None _ (init_world e s) Em).
  rewrite (bind_Ret _ _ _ _ _ (interface_init_opened true None _ (init_world e s) Em)).
  cbn [snd iface opened steam_not_running]. intros Hf.
  unfold bind at 1. cbn [get iface opened steam_not_running]. rewrite Hf.
  unfold bind, log, modify, sdk_call, opened. cbn. rewrite Hf. cbn.
  destruct (sdk_raises e 2 Unload); cbn; auto 8.
Qed.

Lemma run_unavailable_platform_unloads_witness :
  let r := SubscriptionHandler_run handler_7 (init_world env_no_steam script_stall) in
  trace (snd r) = [EvSetStop false; EvCall Initialize; EvCall Unload] /\
  logs (snd r) = [LogInitFailed; LogNotRunning] /\
  steamworks_thread (snd r) = NoThread /\
  clock (snd r) = 0 /\
  ((fst r = Ret tt /\ sdk_raises env_no_steam 2 Unload = false) \/
   (fst r = Raise SteamException /\ sdk_raises env_no_steam 2 Unload = true)).
Proof.
  apply (run_unavailable_platform_unloads handler_7 env_no_steam script_stall).
  reflexivity.
Defined.

(** ** The wait for the SDK to load is bounded *)




